(** * 008 chat client: stream decoder, tool-call accumulator, orchestrator
      and device login loop.

    A shallow embedding of
      - [CopilotAPI.chatStream], the streaming request of the API module
        that 008.ts imports as [./src/api/copilot],
      - [ChatTui.mergeToolCalls], [ChatTui.resolveToolCalls],
        [ChatTui.handleReadFile], [ChatTui.describeToolResult],
        [ChatTui.streamAssistantResponse] and [ChatTui.sendToAssistant]
        (008.ts),
      - [login] (src/cli/commands.ts),
    with the properties of the design document proved about it.

    What the platform and the network supply is a parameter: [JSON.parse],
    [readFileSync], [toLowerCase], [path.basename], the answers of the
    completion service and of the device authorization service. *)

From Stdlib Require DecimalString DecimalNat.
From Stdlib Require Import String Ascii.
From Stdlib.Strings Require Import Byte.
From Stdlib Require Import ZArith Lia Bool Arith List.
Import ListNotations.

Set Implicit Arguments.
Set Warnings "-register-all,-abstract-large-number".

(** ** JavaScript strings

    A JavaScript string is a sequence of UTF-16 code units; a code unit is
    kept as a [Z] in [0, 65535]. *)

Definition jsstring := list Z.

(** An ASCII literal of the source as a JavaScript string. *)
Definition lit (s : string) : jsstring :=
  map (fun a => Z.of_N (N_of_ascii a)) (list_ascii_of_string s).

Fixpoint jseqb (a b : jsstring) : bool :=
  match a, b with
  | [], [] => true
  | x :: a', y :: b' => Z.eqb x y && jseqb a' b'
  | _, _ => false
  end.

(** [s.length === 0] is [isEmpty]; a string is truthy when it is not empty. *)
Definition isEmpty (s : jsstring) : bool :=
  match s with [] => true | _ :: _ => false end.

(** [String.prototype.startsWith]. *)
Fixpoint startsWith (s prefix : jsstring) {struct prefix} : bool :=
  match prefix, s with
  | [], _ => true
  | p :: prefix', c :: s' => Z.eqb c p && startsWith s' prefix'
  | _ :: _, [] => false
  end.

(** [s.slice(n)] for [0 <= n]. *)
Definition slice (n : nat) (s : jsstring) : jsstring := skipn n s.

(** White space and line terminators of ECMAScript, the code units that
    [trim], [trimStart] and [trimEnd] strip. *)
Definition isWhiteSpace (c : Z) : bool :=
  (((9 <=? c) && (c <=? 13)) || (c =? 32) || (c =? 160) || (c =? 5760)
   || ((8192 <=? c) && (c <=? 8202)) || (c =? 8232) || (c =? 8233)
   || (c =? 8239) || (c =? 8287) || (c =? 12288) || (c =? 65279))%Z.

Fixpoint trimStart (s : jsstring) : jsstring :=
  match s with
  | [] => []
  | c :: r => if isWhiteSpace c then trimStart r else s
  end.

Definition trimEnd (s : jsstring) : jsstring := rev (trimStart (rev s)).

Definition trim (s : jsstring) : jsstring := trimEnd (trimStart s).

(** A number in a template literal: its decimal digits. *)
Definition decimal (n : nat) : jsstring :=
  lit (DecimalString.NilEmpty.string_of_uint (Nat.to_uint n)).

(** [a || b] on a possibly missing string: [a] when it is a non-empty
    string, [b] when it is [undefined], [null] or [''].  *)
Definition orElse (a : option jsstring) (b : jsstring) : jsstring :=
  match a with
  | Some (c :: s) => c :: s
  | _ => b
  end.

Definition nonEmpty (a : option jsstring) : bool :=
  match a with Some (_ :: _) => true | _ => false end.

(** ** Data model (src/api/copilot.ts) *)

(** [ToolCall]: [{ id, type: 'function', function: { name, arguments } }];
    the [type] field holds one constant and is left out. *)
Record ToolCallFunction := mkFn { fn_name : jsstring; fn_arguments : jsstring }.
Record ToolCall := mkToolCall { tc_id : jsstring; tc_function : ToolCallFunction }.

(** A tool-call fragment of a streamed delta.  It is declared [ToolCall] in
    the source but read defensively ([update.id || ...],
    [update.function?.name], [update.function?.arguments || '']): every
    field may be missing. *)
Record DeltaFunction := mkDeltaFn
  { df_name : option jsstring; df_arguments : option jsstring }.
Record ToolCallDelta := mkDelta
  { delta_id : option jsstring; delta_function : option DeltaFunction }.

(** [update.function?.name] and [update.function?.arguments]. *)
Definition delta_name (u : ToolCallDelta) : option jsstring :=
  match delta_function u with Some f => df_name f | None => None end.
Definition delta_arguments (u : ToolCallDelta) : option jsstring :=
  match delta_function u with Some f => df_arguments f | None => None end.

Inductive Role := user | assistant | system | function.

(** [CopilotMessage]. *)
Record CopilotMessage := mkMessage
  { role : Role;
    content : jsstring;
    tool_calls : option (list ToolCall);
    tool_call_id : option jsstring;
    name : option jsstring }.

(** ** ToolCallAccumulator: [ChatTui.mergeToolCalls] (008.ts) *)

(** [merged[index] = v].  [mergeToolCalls] only writes at
    [index <= merged.length] (see [mergeLoop_length]), where JavaScript
    replaces the element or appends it. *)
Fixpoint arraySet (A : Type) (l : list A) (index : nat) (v : A) : list A :=
  match l, index with
  | [], _ => [v]
  | _ :: r, O => v :: r
  | x :: r, S i => x :: arraySet r i v
  end.

(** [`tool-${index}`]. *)
Definition syntheticId (index : nat) : jsstring := lit "tool-" ++ decimal index.

(** The body of the [forEach] callback.  [merged] is a shallow copy of
    [existing], so the callback updates the record of [existing] in place;
    the caller drops [existing] for the result
    ([pendingToolCalls = this.mergeToolCalls(pendingToolCalls, ...)]) and
    nothing else holds the records until the stream has ended, so a new
    record stands for the updated one. *)
Definition mergeOne (merged : list ToolCall) (update : ToolCallDelta)
    (index : nat) : list ToolCall :=
  let current :=
    match nth_error merged index with
    | Some c => c
    | None => mkToolCall (orElse (delta_id update) (syntheticId index))
                         (mkFn [] [])
    end in
  let id' := orElse (delta_id update) (tc_id current) in
  let name' := orElse (delta_name update) (fn_name (tc_function current)) in
  let incomingArgs := orElse (delta_arguments update) [] in
  let arguments' := orElse (Some (fn_arguments (tc_function current))) []
                    ++ incomingArgs in
  arraySet merged index (mkToolCall id' (mkFn name' arguments')).

(** [updates.forEach((update, index) => ...)], from position [index] on. *)
Fixpoint mergeLoop (merged : list ToolCall) (updates : list ToolCallDelta)
    (index : nat) : list ToolCall :=
  match updates with
  | [] => merged
  | update :: rest => mergeLoop (mergeOne merged update index) rest (S index)
  end.

Definition mergeToolCalls (existing : list ToolCall)
    (updates : list ToolCallDelta) : list ToolCall :=
  let merged := existing in
  mergeLoop merged updates 0.

(** The accumulator over the fragment batches of one streaming pass. *)
Definition accumulate (existing : list ToolCall)
    (batches : list (list ToolCallDelta)) : list ToolCall :=
  fold_left mergeToolCalls batches existing.

(** *** What one slot receives  *)

(** The fragments that reach slot [i], in arrival order. *)
Fixpoint slotFragments (i : nat) (batches : list (list ToolCallDelta))
    : list ToolCallDelta :=
  match batches with
  | [] => []
  | b :: rest =>
      match nth_error b i with
      | Some u => u :: slotFragments i rest
      | None => slotFragments i rest
      end
  end.

(** The last non-empty value of a sequence, [d] when there is none. *)
Definition lastNonEmpty (l : list (option jsstring)) (d : jsstring) : jsstring :=
  match find nonEmpty (rev l) with
  | Some v => orElse v d
  | None => d
  end.

(** The text an arguments fragment contributes. *)
Definition argumentsText (u : ToolCallDelta) : jsstring :=
  orElse (delta_arguments u) [].

(** One fragment merged into the slot it is aligned with. *)
Definition mergedRecord (i : nat) (old : option ToolCall) (u : ToolCallDelta)
    : ToolCall :=
  let id0 := match old with Some o => tc_id o | None => syntheticId i end in
  let name0 := match old with Some o => fn_name (tc_function o) | None => [] end in
  let args0 := match old with Some o => fn_arguments (tc_function o) | None => [] end in
  mkToolCall (orElse (delta_id u) id0)
             (mkFn (orElse (delta_name u) name0) (args0 ++ argumentsText u)).

(** A record with a non-empty id. *)
Definition hasId (tc : ToolCall) : Prop := isEmpty (tc_id tc) = false.

(** The record of slot [i] after the fragments [fs] have been merged into
    it, stated from the merge rule: [old] is the record the slot held before
    ([None] for a slot that did not exist).  The id and the name are the
    last non-empty value supplied, the arguments text is every fragment's
    text appended in order. *)
Definition slotResult (i : nat) (old : option ToolCall)
    (fs : list ToolCallDelta) : option ToolCall :=
  match old, fs with
  | None, [] => None
  | _, _ =>
      let id0 := match old with Some o => tc_id o | None => syntheticId i end in
      let name0 := match old with Some o => fn_name (tc_function o) | None => [] end in
      let args0 := match old with Some o => fn_arguments (tc_function o) | None => [] end in
      Some (mkToolCall (lastNonEmpty (map delta_id fs) id0)
              (mkFn (lastNonEmpty (map delta_name fs) name0)
                    (args0 ++ concat (map argumentsText fs))))
  end.

(** ** StreamDecoder: [CopilotAPI.chatStream] (src/api/copilot.ts) *)

(** *** [new TextDecoder()] and [decoder.decode(value, { stream: true })]

    The platform's UTF-8 decoder, as the Encoding Standard defines it: a
    state machine fed one byte at a time, whose state survives from one
    [decode] call to the next because the source always passes
    [stream: true].  Malformed input yields U+FFFD; a leading byte order
    mark is dropped. *)
Record TextDecoder := mkDecoder
  { code_point : Z;
    bytes_seen : Z;
    bytes_needed : Z;
    lower_boundary : Z;
    upper_boundary : Z;
    bom_seen : bool }.

Definition newTextDecoder : TextDecoder := mkDecoder 0 0 0 128 191 false.

(** The decoder with its multi-byte state cleared. *)
Definition resetSequence (d : TextDecoder) : TextDecoder :=
  mkDecoder 0 0 0 128 191 (bom_seen d).

Definition inRange (lo hi b : Z) : bool := ((lo <=? b) && (b <=? hi))%Z.

(** The handler when no multi-byte sequence is open. *)
Definition utf8Lead (d : TextDecoder) (b : Z) : TextDecoder * list Z :=
  if inRange 0 127 b then (d, [b])
  else if inRange 194 223 b then
    (mkDecoder (Z.land b 31) 0 1 128 191 (bom_seen d), [])
  else if inRange 224 239 b then
    (mkDecoder (Z.land b 15) 0 2
       (if (b =? 224)%Z then 160 else 128)%Z
       (if (b =? 237)%Z then 159 else 191)%Z (bom_seen d), [])
  else if inRange 240 244 b then
    (mkDecoder (Z.land b 7) 0 3
       (if (b =? 240)%Z then 144 else 128)%Z
       (if (b =? 244)%Z then 143 else 191)%Z (bom_seen d), [])
  else (d, [65533%Z]).

(** The handler for one byte: the code points it emits.  A byte that
    breaks an open sequence emits U+FFFD and is then handled again as the
    start of a new sequence. *)
Definition utf8Handler (d : TextDecoder) (b : Z) : TextDecoder * list Z :=
  if (bytes_needed d =? 0)%Z then utf8Lead d b
  else if negb (inRange (lower_boundary d) (upper_boundary d) b) then
    let (d', out) := utf8Lead (resetSequence d) b in
    (d', 65533%Z :: out)
  else
    let cp := Z.lor (Z.shiftl (code_point d) 6) (Z.land b 63) in
    if (bytes_seen d + 1 =? bytes_needed d)%Z then (resetSequence d, [cp])
    else (mkDecoder cp (bytes_seen d + 1) (bytes_needed d) 128 191 (bom_seen d),
          []).

(** A code point as UTF-16 code units. *)
Definition codeUnits (cp : Z) : jsstring :=
  if (cp <? 65536)%Z then [cp]
  else [(55296 + Z.shiftr (cp - 65536) 10)%Z;
        (56320 + Z.land (cp - 65536) 1023)%Z].

(** The decoded code points written to the output string: the first one is
    dropped when it is the byte order mark U+FEFF. *)
Fixpoint serialize (bom : bool) (cps : list Z) : bool * jsstring :=
  match cps with
  | [] => (bom, [])
  | cp :: rest =>
      if bom then let (bom', out) := serialize bom rest in (bom', codeUnits cp ++ out)
      else if (cp =? 65279)%Z then serialize true rest
      else let (bom', out) := serialize true rest in (bom', codeUnits cp ++ out)
  end.

Definition decodeByte (d : TextDecoder) (b : byte) : TextDecoder * jsstring :=
  let (d1, cps) := utf8Handler d (Z.of_N (Byte.to_N b)) in
  let (bom', out) := serialize (bom_seen d1) cps in
  (mkDecoder (code_point d1) (bytes_seen d1) (bytes_needed d1)
             (lower_boundary d1) (upper_boundary d1) bom', out).

(** [decoder.decode(value, { stream: true })]. *)
Fixpoint decode (d : TextDecoder) (value : list byte) : TextDecoder * jsstring :=
  match value with
  | [] => (d, [])
  | b :: rest =>
      let (d1, out1) := decodeByte d b in
      let (d2, out2) := decode d1 rest in
      (d2, out1 ++ out2)
  end.

(** *** Values of [JSON.parse] *)

(** A parsed JSON document; a number keeps its literal, no code of the
    program reads one. *)
Inductive json :=
| JNull
| JBool (b : bool)
| JNumber (literal : jsstring)
| JString (s : jsstring)
| JArray (items : list json)
| JObject (members : list (jsstring * json)).

(** [value[key]] for a property name: own properties of an object, the
    last of several members with one name (as [JSON.parse] builds the
    object); [None] is [undefined].  No other value has a property of the
    names read here. *)
Definition getProp (key : jsstring) (value : json) : option json :=
  match value with
  | JObject members =>
      match find (fun m => jseqb (fst m) key) (rev members) with
      | Some m => Some (snd m)
      | None => None
      end
  | _ => None
  end.

(** [value?.[0]]. *)
Definition index0 (value : option json) : option json :=
  match value with
  | None | Some JNull => None
  | Some (JArray items) => nth_error items 0
  | Some (JString (c :: _)) => Some (JString [c])
  | Some v => getProp (lit "0") v
  end.

(** [value?.delta] and the like. *)
Definition optProp (key : jsstring) (value : option json) : option json :=
  match value with
  | None | Some JNull => None
  | Some v => getProp key v
  end.

(** A value read at the declared type [string | undefined]: a value of
    another type is outside the interface and read as missing. *)
Definition asString (value : option json) : option jsstring :=
  match value with
  | Some (JString s) => Some s
  | _ => None
  end.

(** A fragment read at the declared type of [delta.tool_calls[k]]. *)
Definition asToolCallDelta (value : json) : ToolCallDelta :=
  mkDelta (asString (getProp (lit "id") value))
    match getProp (lit "function") value with
    | Some (JObject members) =>
        Some (mkDeltaFn (asString (getProp (lit "name") (JObject members)))
                        (asString (getProp (lit "arguments") (JObject members))))
    | _ => None
    end.

(** A value read at the declared type [ToolCall[] | undefined]. *)
Definition asToolCalls (value : option json) : option (list ToolCallDelta) :=
  match value with
  | Some (JArray items) => Some (map asToolCallDelta items)
  | _ => None
  end.

(** [parsed.choices?.[0]?.delta]; reading [choices] of [null] throws a
    TypeError, which the [catch] around it swallows like a syntax error:
    [None] stands for that and for [undefined]. *)
Definition deltaOf (parsed : json) : option json :=
  match parsed with
  | JNull => None
  | _ => optProp (lit "delta") (index0 (getProp (lit "choices") parsed))
  end.

(** [delta.content] and [delta.tool_calls] at their declared types; a
    [delta] that is not an object has neither. *)
Definition deltaContent (delta : json) : option jsstring :=
  asString (getProp (lit "content") delta).
Definition deltaToolCalls (delta : json) : option (list ToolCallDelta) :=
  asToolCalls (getProp (lit "tool_calls") delta).

(** *** Truthiness *)

(** The digits a text starts with, and what follows them. *)
Fixpoint leadingDigits (s : jsstring) : jsstring * jsstring :=
  match s with
  | c :: r =>
      if (48 <=? c)%Z && (c <=? 57)%Z
      then let (digits, rest) := leadingDigits r in (c :: digits, rest)
      else ([], s)
  | [] => ([], [])
  end.

(** The number that a run of decimal digits denotes. *)
Definition digitsValue (digits : jsstring) : Z :=
  fold_left (fun acc c => (10 * acc + (c - 48))%Z) digits 0%Z.

(** Whether the Number that [JSON.parse] makes of a number literal is
    truthy, that is, not zero.  The literal is [-?int(.frac)?([eE][+-]?exp)?]
    and denotes [digits * 10^scale], with [digits] the value of [int] and
    [frac] put together; the Number is the double nearest to that, ties to
    even, and it is zero exactly when the digits are all zero or the value
    is at most [2^-1075], half the least positive double. *)
Definition nonZeroNumber (literal : jsstring) : bool :=
  let unsigned := match literal with
                  | 45%Z :: r => r
                  | _ => literal
                  end in
  let (int, afterInt) := leadingDigits unsigned in
  let (frac, afterFrac) :=
    match afterInt with
    | 46%Z :: r => leadingDigits r
    | _ => ([], afterInt)
    end in
  let exponent :=
    match afterFrac with
    | e :: r =>
        if (e =? 101)%Z || (e =? 69)%Z then
          match r with
          | 45%Z :: d => (- digitsValue (fst (leadingDigits d)))%Z
          | 43%Z :: d => digitsValue (fst (leadingDigits d))
          | d => digitsValue (fst (leadingDigits d))
          end
        else 0%Z
    | [] => 0%Z
    end in
  let digits := digitsValue (int ++ frac) in
  let scale := (exponent - Z.of_nat (length frac))%Z in
  negb (digits =? 0)%Z
  && ((0 <=? scale)%Z || (10 ^ (- scale) <? digits * 2 ^ 1075)%Z).

(** Truthiness of a parsed value, given that of the numbers. *)
Definition truthy (truthyNumber : jsstring -> bool) (value : json) : bool :=
  match value with
  | JNull => false
  | JBool b => b
  | JNumber literal => truthyNumber literal
  | JString s => negb (isEmpty s)
  | JArray _ | JObject _ => true
  end.

(** Truthiness of a value that may be [undefined]. *)
Definition truthyValue (value : option json) : bool :=
  match value with
  | Some v => truthy nonZeroNumber v
  | None => false
  end.

(** *** Events *)

(** What [chatStream] yields: [{ content: delta.content, tool_calls:
    delta.tool_calls }], with the two values as [JSON.parse] gave them;
    [None] is [undefined]. *)
Record StreamChunk := mkChunk
  { chunk_raw_content : option json;
    chunk_raw_tool_calls : option json }.

(** [chunk.content] and [chunk.tool_calls] as the consumers of the
    events use them, at the types the interface declares, [string |
    undefined] and [ToolCall[] | undefined]. *)
Definition chunk_content (c : StreamChunk) : option jsstring :=
  asString (chunk_raw_content c).
Definition chunk_tool_calls (c : StreamChunk)
    : option (list ToolCallDelta) :=
  asToolCalls (chunk_raw_tool_calls c).

(** A value is at the declared type [string | undefined] when it is a
    string, [null] or missing. *)
Definition declaredString (value : option json) : bool :=
  match value with
  | None | Some JNull | Some (JString _) => true
  | Some _ => false
  end.

(** A fragment is at its declared type when it is an object whose [id] is
    a string or missing and whose [function], when there is one, is an
    object with [name] and [arguments] strings or missing. *)
Definition declaredFragment (value : json) : bool :=
  match value with
  | JObject members =>
      declaredString (getProp (lit "id") value)
      && match getProp (lit "function") value with
         | None | Some JNull => true
         | Some (JObject fn) =>
             declaredString (getProp (lit "name") (JObject fn))
             && declaredString (getProp (lit "arguments") (JObject fn))
         | Some _ => false
         end
  | _ => false
  end.

(** An event is at its declared type, [{ content?: string; tool_calls?:
    ToolCall[] }]: on such events reading at the declared types loses
    nothing. *)
Definition declaredChunk (c : StreamChunk) : bool :=
  declaredString (chunk_raw_content c)
  && match chunk_raw_tool_calls c with
     | None | Some JNull => true
     | Some (JArray items) => forallb declaredFragment items
     | Some _ => false
     end.

(** The first line of a split with one more code unit in front. *)
Definition consHead (c : Z) (ll : list jsstring) : list jsstring :=
  match ll with
  | [] => [[c]]
  | l :: ls => (c :: l) :: ls
  end.

(** [buffer.split('\n')]: never empty, the last element is what follows
    the last line feed. *)
Fixpoint split_newline (s : jsstring) : list jsstring :=
  match s with
  | [] => [[]]
  | c :: r =>
      if (c =? 10)%Z then [] :: split_newline r
      else consHead c (split_newline r)
  end.

(** The outcome of a call that may throw. *)
Inductive Outcome (A : Type) :=
| Returned (a : A)
| Threw (message : jsstring).
Arguments Returned {A} a.
Arguments Threw {A} message.

(** What [fetch] and the body reader deliver to [chatStream]: a failure
    before the body is read (no token, a rejected request, a status that is
    not ok, no body), or the chunks that [reader.read()] returns one after
    the other, ended by [done] or by a rejected read. *)
Inductive Response :=
| FetchThrows (message : jsstring)
| FetchBody (chunks : list (list byte)) (readError : option jsstring).

(** What the body of the [for (const line of lines)] loop does. *)
Inductive LineResult :=
| Skip
| Yield (c : StreamChunk)
| Return.

Section Decoder.

(** [JSON.parse]: [None] when it throws. *)
Variable JSON_parse : jsstring -> option json.

Definition processLine (line : jsstring) : LineResult :=
  if startsWith line (lit "data: ") then
    let data := slice 6 line in
    if jseqb data (lit "[DONE]") then Return
    else
      match JSON_parse data with
      | None => Skip                              (* catch: skip invalid JSON *)
      | Some parsed =>
          match deltaOf parsed with
          | Some delta =>
              let content := getProp (lit "content") delta in
              let tool_calls := getProp (lit "tool_calls") delta in
              if truthy nonZeroNumber delta
                 && (truthyValue content || truthyValue tool_calls)
              then Yield (mkChunk content tool_calls)
              else Skip
          | None => Skip
          end
      end
  else Skip.

(** The [for (const line of lines)] loop: the events it yields and
    whether it left the generator through [return]. *)
Fixpoint processLines (lines : list jsstring) : list StreamChunk * bool :=
  match lines with
  | [] => ([], false)
  | line :: rest =>
      match processLine line with
      | Return => ([], true)
      | Skip => processLines rest
      | Yield c => let (evs, fin) := processLines rest in (c :: evs, fin)
      end
  end.

(** The [while (true)] loop over [reader.read()]: the events yielded and
    whether the generator returned on the sentinel. *)
Fixpoint readLoop (decoder : TextDecoder) (buffer : jsstring)
    (chunks : list (list byte)) : list StreamChunk * bool :=
  match chunks with
  | [] => ([], false)                                   (* done: break *)
  | value :: rest =>
      let (decoder', text) := decode decoder value in
      let buffer := buffer ++ text in
      let lines := split_newline buffer in
      let buffer := last lines [] in                    (* lines.pop() || '' *)
      let lines := removelast lines in
      let (evs, fin) := processLines lines in
      if fin then (evs, true)
      else let (evs', fin') := readLoop decoder' buffer rest in
           (evs ++ evs', fin')
  end.

(** [chatStream]: the events the generator yields, and how it ends. *)
Definition chatStream (response : Response)
    : list StreamChunk * Outcome unit :=
  match response with
  | FetchThrows message => ([], Threw message)
  | FetchBody chunks readError =>
      let (evs, fin) := readLoop newTextDecoder [] chunks in
      (evs, if fin then Returned tt
            else match readError with
                 | Some message => Threw message
                 | None => Returned tt
                 end)
  end.

End Decoder.

(** ** ConversationOrchestrator: [ChatTui] (008.ts) *)

(** A node of the history pane.  The source names a node ['msg-' + n] with
    [n] the value of [messageCounter]: [mr_id] is that [n].  The node's
    content is [formatMessage(role, text)]: [mr_text] is that [text]. *)
Record MessageRenderable := mkRenderable
  { mr_id : nat; mr_role : Role; mr_text : jsstring }.

(** The fields of [ChatTui] that the conversation uses, and a log of the
    streaming requests sent so far (each with the transcript it carried). *)
Record ChatTui := mkTui
  { messages : list MessageRenderable;
    chatHistory : list CopilotMessage;
    isStreaming : bool;
    messageCounter : nat;
    statusLine : jsstring * jsstring;
    streamRequests : list (list CopilotMessage) }.

(** A method of [ChatTui]: it may change the object and may throw; what
    it changed before it threw stays changed. *)
Definition M (A : Type) : Type := ChatTui -> Outcome A * ChatTui.

Definition ret {A : Type} (a : A) : M A := fun st => (Returned a, st).

Definition bind {A B : Type} (m : M A) (k : A -> M B) : M B :=
  fun st =>
    match m st with
    | (Returned a, st') => k a st'
    | (Threw e, st') => (Threw e, st')
    end.

Definition throw {A : Type} (message : jsstring) : M A :=
  fun st => (Threw message, st).

(** [try { body } catch (error) { handler(error.message) }]. *)
Definition tryCatch {A : Type} (body : M A) (handler : jsstring -> M A) : M A :=
  fun st =>
    match body st with
    | (Returned a, st') => (Returned a, st')
    | (Threw e, st') => handler e st'
    end.

Definition get : M ChatTui := fun st => (Returned st, st).
Definition modify (f : ChatTui -> ChatTui) : M unit :=
  fun st => (Returned tt, f st).

Notation "x <- m ;; k" := (bind m (fun x => k))
  (at level 61, m at next level, right associativity).
Notation "m ;;; k" := (bind m (fun _ => k))
  (at level 61, right associativity).

Definition when (b : bool) (m : M unit) : M unit :=
  if b then m else ret tt.

(** [try { body } catch (error) { handler }] around code that does not
    touch the object. *)
Definition catchOutcome {A : Type} (body : Outcome A)
    (handler : jsstring -> A) : A :=
  match body with
  | Returned a => a
  | Threw e => handler e
  end.

(** [this.chatHistory.push(message)]. *)
Definition pushHistory (message : CopilotMessage) : M unit :=
  modify (fun st =>
    mkTui (messages st) (chatHistory st ++ [message]) (isStreaming st)
          (messageCounter st) (statusLine st) (streamRequests st)).

Definition setMessages (ms : list MessageRenderable) : M unit :=
  modify (fun st =>
    mkTui ms (chatHistory st) (isStreaming st)
          (messageCounter st) (statusLine st) (streamRequests st)).

(** [Array.prototype.findIndex]; [None] is [-1]. *)
Fixpoint findIndex (A : Type) (p : A -> bool) (l : list A) : option nat :=
  match l with
  | [] => None
  | x :: r => if p x then Some 0
              else match findIndex p r with
                   | Some i => Some (S i)
                   | None => None
                   end
  end.

(** [createMessageNode(role, content, { insertBeforeId })]: the id of the
    new node. *)
Definition createMessageNode (role : Role) (text : jsstring)
    (insertBeforeId : option nat) : M nat :=
  fun st =>
    let id := messageCounter st in
    let entry := mkRenderable id role text in
    let insertIndex :=
      match insertBeforeId with
      | Some target => findIndex (fun msg => Nat.eqb (mr_id msg) target) (messages st)
      | None => None
      end in
    let messages' :=
      match insertIndex with
      | Some i => firstn i (messages st) ++ entry :: skipn i (messages st)
      | None => messages st ++ [entry]
      end in
    (Returned id,
     mkTui messages' (chatHistory st) (isStreaming st) (S id)
           (statusLine st) (streamRequests st)).

(** [removeMessageNode(id)]. *)
Definition removeMessageNode (id : nat) : M unit :=
  st <- get ;;
  match findIndex (fun msg => Nat.eqb (mr_id msg) id) (messages st) with
  | None => ret tt
  | Some index =>
      setMessages (firstn index (messages st) ++ skipn (S index) (messages st))
  end.

(** [renderable.node.content = formatMessage(role, text)]: the node is
    shared with the entry of [messages] that holds it. *)
Definition setNodeContent (id : nat) (text : jsstring) : M unit :=
  st <- get ;;
  setMessages
    (map (fun msg => if Nat.eqb (mr_id msg) id
                     then mkRenderable (mr_id msg) (mr_role msg) text
                     else msg)
         (messages st)).

Definition addSystemMessage (text : jsstring) : M unit :=
  createMessageNode system text None ;;; ret tt.

Definition setStatus (text color : jsstring) : M unit :=
  modify (fun st =>
    mkTui (messages st) (chatHistory st) (isStreaming st)
          (messageCounter st) (text, color) (streamRequests st)).

Definition setIsStreaming (b : bool) : M unit :=
  modify (fun st =>
    mkTui (messages st) (chatHistory st) b
          (messageCounter st) (statusLine st) (streamRequests st)).

(** The elements of a list without repetition, in the order of their first
    occurrence: [Array.from(new Set(names))]. *)
Fixpoint unique (seen l : list jsstring) : list jsstring :=
  match l with
  | [] => []
  | x :: r => if existsb (jseqb x) seen then unique seen r
              else x :: unique (x :: seen) r
  end.

(** [names.join(sep)]. *)
Fixpoint join (sep : jsstring) (l : list jsstring) : jsstring :=
  match l with
  | [] => []
  | [x] => x
  | x :: r => x ++ sep ++ join sep r
  end.

(** [describeToolCalls]; the text ends in U+2026. *)
Definition describeToolCalls (toolCalls : list ToolCall) : jsstring :=
  let names :=
    unique []
      (filter (fun name => negb (isEmpty (trim name)))
              (map (fun call => fn_name (tc_function call)) toolCalls)) in
  match names with
  | [] => lit "running tool" ++ [8230%Z]
  | [n] => lit "running " ++ n ++ [8230%Z]
  | _ => lit "running " ++ join (lit ", ") names ++ [8230%Z]
  end.

(** The note of the pass bound; it holds an em dash, U+2014. *)
Definition depthLimitNote : jsstring :=
  lit "Reached tool-call depth limit " ++ [8212%Z]
  ++ lit " aborting conversation state.".

Definition maxToolPasses : nat := 4.

(** What the [for await] loop keeps from one chunk to the next. *)
Record PassLocals := mkLocals
  { accumulatedText : jsstring;
    pendingToolCalls : list ToolCall;
    toolStatusRenderable : option nat }.

Definition SUMMARIZER_MODEL_ID : jsstring := lit "gpt-4.1".
Definition SUMMARY_INPUT_LIMIT : nat := 4000.

(** [text.replace(/\r\n/g, '\n')]. *)
Fixpoint replaceCRLF (s : jsstring) : jsstring :=
  match s with
  | [] => []
  | c :: r =>
      if (c =? 13)%Z && match r with
                        | d :: _ => (d =? 10)%Z
                        | [] => false
                        end
      then replaceCRLF r
      else c :: replaceCRLF r
  end.

Section Orchestrator.

(** [JSON.parse]. *)
Variable JSON_parse : jsstring -> option json.

(** [readFileSync(path, 'utf-8')]: the text of the file, or the message of
    the error thrown. *)
Variable readFileSync : jsstring -> Outcome jsstring.

(** The service: how the streaming request number [n] of the session,
    carrying the transcript [messages], is answered. *)
Variable fetchStream : nat -> list CopilotMessage -> Response.

(** [String.prototype.toLowerCase] and [path.basename], the platform's. *)
Variable toLowerCase : jsstring -> jsstring.
Variable basename : jsstring -> jsstring.

(** [CopilotAPI.chat], the request that is not streamed, for a model, a
    list of messages and [max_tokens] (the temperature, a constant, is
    left out): the [choices] of the response, each with its
    [message.content] if it has one, or the error thrown. *)
Variable chat :
  jsstring -> list CopilotMessage -> Z
  -> Outcome (option (list (option jsstring))).

(** [summarizeWithCopilot]: every failure of the request is caught. *)
Definition summarizeWithCopilot (input systemPrompt : jsstring)
    (maxTokens : Z) : option jsstring :=
  catchOutcome
    (match chat SUMMARIZER_MODEL_ID
             [ mkMessage system systemPrompt None None None;
               mkMessage user (firstn SUMMARY_INPUT_LIMIT input) None None None ]
             maxTokens with
     | Threw error => Threw error
     | Returned response =>
         let choice :=
           match response with
           | Some choices =>
               find (fun item => match item with
                                 | Some text => negb (isEmpty (trim text))
                                 | None => false
                                 end) choices
           | None => None
           end in
         match choice with
         | Some (Some text) =>
             Returned (if isEmpty (trim text) then None else Some (trim text))
         | _ => Returned None
         end
     end)
    (fun _ => None).

(** [summarizePreview]. *)
Definition summarizePreview (preview : jsstring) (maxLines : nat) : jsstring :=
  if isEmpty preview then []
  else
    let normalized := replaceCRLF preview in
    let lines := split_newline normalized in
    if Nat.leb (length lines) maxLines then trimEnd normalized
    else
      let limitedLines := firstn maxLines lines in
      match limitedLines with
      | [] => []
      | _ =>
          trimEnd (join [10%Z]
                     (removelast limitedLines
                      ++ [last limitedLines [] ++ lit " ..."]))
      end.

(** [describeToolResult(toolName, args, output)]: the line shown in the
    history pane for a tool result. *)
Definition describeToolResult (toolName : jsstring) (args : json)
    (output : jsstring) : jsstring :=
  let normalized := replaceCRLF output in
  let lines := split_newline normalized in
  let isError := startsWith (toLowerCase (trimStart normalized)) (lit "error") in
  let needsSummary := negb isError && Nat.ltb 3 (length lines) in
  let summaryText :=
    if needsSummary then
      let promptInput := firstn SUMMARY_INPUT_LIMIT normalized in
      summarizeWithCopilot
        (lit "Tool " ++ toolName ++ lit " produced the following output:"
         ++ [10%Z; 10%Z] ++ promptInput)
        (lit "You summarize tool responses for a developer terminal. Respond with one sentence under 120 characters describing the outcome. No markdown, no quotes.")
        60
    else None in
  let snippetLines := match summaryText with Some _ => 1 | None => 2 end in
  let snippet := summarizePreview normalized snippetLines in
  if jseqb toolName (lit "read_file") then
    let rawPath := asString (getProp (lit "path") args) in
    let displayName :=
      match rawPath with
      | Some (c :: p) => basename (c :: p)
      | _ => lit "(unknown file)"
      end in
    if isError then
      let body := if isEmpty snippet then [] else 32%Z :: snippet in
      trimEnd (lit "read_file error ->" ++ body)
    else
      join [10%Z]
        ([lit "reading contents of file -> " ++ displayName]
         ++ match summaryText with
            | Some summary => [lit "summary: " ++ summary]
            | None => []
            end
         ++ (if isEmpty snippet then [] else [snippet]))
  else if isError then
    if isEmpty snippet then toolName ++ lit " error"
    else toolName ++ lit " error -> " ++ snippet
  else
    match summaryText with
    | Some summary =>
        join [10%Z]
          ([toolName ++ lit " -> " ++ summary]
           ++ (if isEmpty snippet then [] else [snippet]))
    | None =>
        if isEmpty snippet then lit "ran " ++ toolName
        else toolName ++ lit " -> " ++ snippet
    end.

(** [parseToolArguments]. *)
Definition parseToolArguments (toolCall : ToolCall) : json :=
  let raw := orElse (Some (fn_arguments (tc_function toolCall))) (lit "{}") in
  match JSON_parse raw with
  | Some (JObject members) => JObject members
  | Some (JArray items) => JArray items
  | _ => JObject []
  end.

(** The [try] block of [handleReadFile]. *)
Definition readFileBody (toolCall : ToolCall) (args : option json)
    : Outcome jsstring :=
  let parameters := match args with
                    | Some a => a
                    | None => parseToolArguments toolCall
                    end in
  match getProp (lit "path") parameters with
  | Some (JString (c :: p)) => readFileSync (c :: p)
  | _ => Threw (lit "read_file requires a valid path argument")
  end.

Definition handleReadFile (toolCall : ToolCall) (args : option json)
    : jsstring :=
  catchOutcome (readFileBody toolCall args)
    (fun message => lit "Error reading file: " ++ message).

(** The [path] argument of a call when it is a non-empty string. *)
Definition pathArgument (toolCall : ToolCall) : option jsstring :=
  match getProp (lit "path") (parseToolArguments toolCall) with
  | Some (JString (c :: p)) => Some (c :: p)
  | _ => None
  end.

(** The text a tool call is answered with. *)
Definition toolResponse (toolCall : ToolCall) : jsstring :=
  let toolName := fn_name (tc_function toolCall) in
  let args := parseToolArguments toolCall in
  if jseqb toolName (lit "read_file")
  then handleReadFile toolCall (Some args)
  else lit "Tool " ++ toolName ++ lit " is not implemented in the TUI.".

(** The message [resolveToolCalls] pushes for a tool call. *)
Definition toolResultMessage (toolCall : ToolCall) : CopilotMessage :=
  mkMessage function (toolResponse toolCall) None
            (Some (tc_id toolCall)) (Some (fn_name (tc_function toolCall))).

Fixpoint resolveToolCalls (toolCalls : list ToolCall) (anchorMessageId : nat)
    : M unit :=
  match toolCalls with
  | [] => ret tt
  | toolCall :: rest =>
      let toolName := fn_name (tc_function toolCall) in
      let args := parseToolArguments toolCall in
      let toolResponse :=
        if jseqb toolName (lit "read_file")
        then handleReadFile toolCall (Some args)
        else lit "Tool " ++ toolName ++ lit " is not implemented in the TUI." in
      pushHistory (mkMessage function toolResponse None
                     (Some (tc_id toolCall)) (Some toolName)) ;;;
      let summary := describeToolResult toolName args toolResponse in
      createMessageNode function summary (Some anchorMessageId) ;;;
      resolveToolCalls rest anchorMessageId
  end.

(** The body of the [for await] loop. *)
Definition consumeChunk (assistantRenderable : nat) (locals : PassLocals)
    (chunk : StreamChunk) : M PassLocals :=
  locals1 <-
    match chunk_tool_calls chunk with
    | Some (u :: us) =>
        let pending := mergeToolCalls (pendingToolCalls locals) (u :: us) in
        if negb (Nat.eqb (length pending) 0) then
          let statusText := describeToolCalls pending in
          status <-
            match toolStatusRenderable locals with
            | None =>
                id <- createMessageNode function statusText
                        (Some assistantRenderable) ;;
                ret (Some id)
            | Some id => setNodeContent id statusText ;;; ret (Some id)
            end ;;
          ret (mkLocals (accumulatedText locals) pending status)
        else ret (mkLocals (accumulatedText locals) pending
                           (toolStatusRenderable locals))
    | _ => ret locals
    end ;;
  match chunk_content chunk with
  | Some (c :: text) =>
      let accumulated := accumulatedText locals1 ++ c :: text in
      setNodeContent assistantRenderable accumulated ;;;
      ret (mkLocals accumulated (pendingToolCalls locals1)
                    (toolStatusRenderable locals1))
  | _ => ret locals1
  end.

Fixpoint consumeChunks (assistantRenderable : nat) (locals : PassLocals)
    (chunks : list StreamChunk) : M PassLocals :=
  match chunks with
  | [] => ret locals
  | chunk :: rest =>
      locals' <- consumeChunk assistantRenderable locals chunk ;;
      consumeChunks assistantRenderable locals' rest
  end.

(** [for await (const chunk of CopilotAPI.chatStream({ ..., messages:
    this.chatHistory, ... }))]: the request is sent, the events are
    consumed as they come, and a failure of the stream is thrown on. *)
Definition streamPass (assistantRenderable : nat) : M PassLocals :=
  st <- get ;;
  let response := fetchStream (length (streamRequests st)) (chatHistory st) in
  modify (fun st =>
    mkTui (messages st) (chatHistory st) (isStreaming st) (messageCounter st)
          (statusLine st) (streamRequests st ++ [chatHistory st])) ;;;
  let (events, outcome) := chatStream JSON_parse response in
  locals <- consumeChunks assistantRenderable (mkLocals [] [] None) events ;;
  match outcome with
  | Returned _ => ret locals
  | Threw message => throw message
  end.

(** The [while (safetyCounter < maxToolPasses)] loop of
    [streamAssistantResponse] with [remaining = maxToolPasses -
    safetyCounter] iterations to go, and the statement after it. *)
Fixpoint passLoop (remaining : nat) (assistantRenderable : nat) : M unit :=
  match remaining with
  | O => addSystemMessage depthLimitNote
  | S remaining' =>
      locals <- streamPass assistantRenderable ;;
      let accumulatedText := accumulatedText locals in
      let pendingToolCalls := pendingToolCalls locals in
      if Nat.eqb (length pendingToolCalls) 0 then
        let finalText := trimEnd accumulatedText in
        match toolStatusRenderable locals with
        | Some id => removeMessageNode id
        | None => ret tt
        end ;;;
        if Nat.eqb (length finalText) 0 then
          removeMessageNode assistantRenderable
        else
          setNodeContent assistantRenderable finalText ;;;
          pushHistory (mkMessage assistant finalText None None None)
      else
        pushHistory (mkMessage assistant accumulatedText
                       (Some pendingToolCalls) None None) ;;;
        resolveToolCalls pendingToolCalls assistantRenderable ;;;
        match toolStatusRenderable locals with
        | Some id => removeMessageNode id
        | None => ret tt
        end ;;;
        when (Nat.eqb (length (trim accumulatedText)) 0)
             (removeMessageNode assistantRenderable) ;;;
        assistantRenderable' <- createMessageNode assistant [] None ;;
        passLoop remaining' assistantRenderable'
  end.

Definition streamAssistantResponse : M unit :=
  assistantRenderable <- createMessageNode assistant [] None ;;
  passLoop maxToolPasses assistantRenderable.

(** [sendToAssistant(value)].  The call [void
    this.maybeGenerateTitleSummary(value)] is left out: it is detached,
    it cannot make [sendToAssistant] throw, and it reads and writes the
    title node and its flag only, none of the fields below (it is
    [maybeGenerateTitleSummary] further down).  It sends a request of its
    own through [CopilotAPI.chat], as [describeToolResult] does for a long
    tool output: [streamRequests] logs the streaming requests, those of
    [chatStream], and no others. *)
Definition sendToAssistant (value : jsstring) : M unit :=
  pushHistory (mkMessage user value None None None) ;;;
  setStatus (lit "Thinking" ++ [8230%Z]) (lit "green") ;;;
  setIsStreaming true ;;;
  tryCatch
    (streamAssistantResponse ;;; setStatus (lit "Ready") (lit "brightBlue"))
    (fun message =>
       addSystemMessage (lit "Error: " ++ message) ;;;
       setStatus (lit "Error " ++ [8212%Z] ++ lit " try again?")
                 (lit "brightRed")) ;;;
  setIsStreaming false.

End Orchestrator.

(** The text and the tool calls that the events of a pass add up to. *)
Definition truthyContent (c : StreamChunk) : jsstring :=
  orElse (chunk_content c) [].

Definition textOf (events : list StreamChunk) : jsstring :=
  concat (map truthyContent events).

Definition fragmentBatch (c : StreamChunk) : list ToolCallDelta :=
  match chunk_tool_calls c with Some l => l | None => [] end.

Definition pendingOf (events : list StreamChunk) : list ToolCall :=
  accumulate [] (map fragmentBatch events).

(** The messages a pass that asks for tools adds to the transcript: the
    assistant message with the calls, then one result per call. *)
Definition toolPassMessages (answer : ToolCall -> CopilotMessage)
    (pass : jsstring * list ToolCall) : list CopilotMessage :=
  mkMessage assistant (fst pass) (Some (snd pass)) None None
  :: map answer (snd pass).





(** The text the decoder has produced for a body, and its complete,
    line-feed-terminated lines: every element of the split but the last. *)
Definition decodedText (chunks : list (list byte)) : jsstring :=
  snd (decode newTextDecoder (concat chunks)).

Definition completeLines (chunks : list (list byte)) : list jsstring :=
  removelast (split_newline (decodedText chunks)).

(** *** A JSON parser

    [JSON.parse] is the platform's.  The program is stated over any parser
    ([JSON_parse] above); [parseJSON] is one, after ECMA-404, to run the
    program on concrete bodies. *)

Definition isJsonSpace (c : Z) : bool :=
  ((c =? 32) || (c =? 9) || (c =? 10) || (c =? 13))%Z.

Fixpoint skipSpace (s : jsstring) : jsstring :=
  match s with
  | c :: r => if isJsonSpace c then skipSpace r else s
  | [] => []
  end.

Definition isDigit (c : Z) : bool := inRange 48 57 c.

Definition hexValue (c : Z) : option Z :=
  if inRange 48 57 c then Some (c - 48)%Z
  else if inRange 97 102 c then Some (c - 87)%Z
  else if inRange 65 70 c then Some (c - 55)%Z
  else None.

(** The characters after an opening quotation mark, up to the closing one. *)
Fixpoint parseChars (s : jsstring) : option (jsstring * jsstring) :=
  match s with
  | [] => None
  | c :: r =>
      if (c =? 34)%Z then Some ([], r)
      else if (c <? 32)%Z then None
      else if (c =? 92)%Z then
        match r with
        | [] => None
        | e :: r1 =>
            let simple (u : Z) :=
              match parseChars r1 with
              | Some (str, rest) => Some (u :: str, rest)
              | None => None
              end in
            if (e =? 34)%Z then simple 34%Z
            else if (e =? 92)%Z then simple 92%Z
            else if (e =? 47)%Z then simple 47%Z
            else if (e =? 98)%Z then simple 8%Z
            else if (e =? 102)%Z then simple 12%Z
            else if (e =? 110)%Z then simple 10%Z
            else if (e =? 114)%Z then simple 13%Z
            else if (e =? 116)%Z then simple 9%Z
            else if (e =? 117)%Z then
              match r1 with
              | h1 :: h2 :: h3 :: h4 :: r2 =>
                  match hexValue h1, hexValue h2, hexValue h3, hexValue h4 with
                  | Some a, Some b, Some c', Some d =>
                      match parseChars r2 with
                      | Some (str, rest) =>
                          Some ((a * 4096 + b * 256 + c' * 16 + d)%Z :: str, rest)
                      | None => None
                      end
                  | _, _, _, _ => None
                  end
              | _ => None
              end
            else None
        end
      else
        match parseChars r with
        | Some (str, rest) => Some (c :: str, rest)
        | None => None
        end
  end.

Fixpoint spanDigits (s : jsstring) : jsstring * jsstring :=
  match s with
  | c :: r => if isDigit c then let (ds, rest) := spanDigits r in (c :: ds, rest)
              else ([], s)
  | [] => ([], [])
  end.

(** A number literal at the head of [s]: the literal and what follows. *)
Definition parseNumber (s : jsstring) : option (jsstring * jsstring) :=
  let (sign, s1) := match s with
                    | c :: r => if (c =? 45)%Z then ([c], r) else ([], s)
                    | [] => ([], s)
                    end in
  let (int, s2) := spanDigits s1 in
  match int with
  | [] => None
  | d :: ds =>
      if (d =? 48)%Z && negb (isEmpty ds) then None
      else
        let frac :=
          match s2 with
          | c :: r =>
              if (c =? 46)%Z then
                let (fs, rest) := spanDigits r in
                match fs with [] => None | _ => Some (c :: fs, rest) end
              else Some ([], s2)
          | [] => Some ([], s2)
          end in
        match frac with
        | None => None
        | Some (fr, s3) =>
            let withExp (e : Z) (sgn : jsstring) (r : jsstring) :=
              let (es, rest) := spanDigits r in
              match es with
              | [] => None
              | _ => Some (sign ++ int ++ fr ++ e :: sgn ++ es, rest)
              end in
            match s3 with
            | e :: r =>
                if (e =? 101)%Z || (e =? 69)%Z then
                  match r with
                  | g :: r' =>
                      if (g =? 43)%Z || (g =? 45)%Z then withExp e [g] r'
                      else withExp e [] r
                  | [] => None
                  end
                else Some (sign ++ int ++ fr, s3)
            | [] => Some (sign ++ int ++ fr, s3)
            end
        end
  end.

Fixpoint parseValue (fuel : nat) (s : jsstring) : option (json * jsstring) :=
  match fuel with
  | O => None
  | S fuel' =>
      match skipSpace s with
      | [] => None
      | c :: r =>
          if (c =? 123)%Z then
            match skipSpace r with
            | c' :: r' => if (c' =? 125)%Z then Some (JObject [], r')
                          else parseMembers fuel' (c' :: r') []
            | [] => None
            end
          else if (c =? 91)%Z then
            match skipSpace r with
            | c' :: r' => if (c' =? 93)%Z then Some (JArray [], r')
                          else parseElements fuel' (c' :: r') []
            | [] => None
            end
          else if (c =? 34)%Z then
            match parseChars r with
            | Some (str, rest) => Some (JString str, rest)
            | None => None
            end
          else if startsWith (c :: r) (lit "true") then Some (JBool true, skipn 4 (c :: r))
          else if startsWith (c :: r) (lit "false") then Some (JBool false, skipn 5 (c :: r))
          else if startsWith (c :: r) (lit "null") then Some (JNull, skipn 4 (c :: r))
          else
            match parseNumber (c :: r) with
            | Some (num, rest) => Some (JNumber num, rest)
            | None => None
            end
      end
  end
with parseElements (fuel : nat) (s : jsstring) (acc : list json)
    : option (json * jsstring) :=
  match fuel with
  | O => None
  | S fuel' =>
      match parseValue fuel' s with
      | Some (v, r) =>
          match skipSpace r with
          | c :: r' =>
              if (c =? 44)%Z then parseElements fuel' r' (v :: acc)
              else if (c =? 93)%Z then Some (JArray (rev (v :: acc)), r')
              else None
          | [] => None
          end
      | None => None
      end
  end
with parseMembers (fuel : nat) (s : jsstring) (acc : list (jsstring * json))
    : option (json * jsstring) :=
  match fuel with
  | O => None
  | S fuel' =>
      match skipSpace s with
      | q :: r0 =>
          if (q =? 34)%Z then
            match parseChars r0 with
            | Some (key, r1) =>
                match skipSpace r1 with
                | colon :: r2 =>
                    if (colon =? 58)%Z then
                      match parseValue fuel' r2 with
                      | Some (v, r3) =>
                          match skipSpace r3 with
                          | c :: r4 =>
                              if (c =? 44)%Z then parseMembers fuel' r4 ((key, v) :: acc)
                              else if (c =? 125)%Z
                                   then Some (JObject (rev ((key, v) :: acc)), r4)
                              else None
                          | [] => None
                          end
                      | None => None
                      end
                    else None
                | [] => None
                end
            | None => None
            end
          else None
      | [] => None
      end
  end.

Definition parseJSON (text : jsstring) : option json :=
  match parseValue (2 * length text + 2) text with
  | Some (v, rest) => if isEmpty (skipSpace rest) then Some v else None
  | None => None
  end.

(** A literal in which an apostrophe stands for a quotation mark, to write
    JSON text. *)
Definition litq (s : string) : jsstring :=
  map (fun c => if (c =? 39)%Z then 34%Z else c) (lit s).

(** The bytes of an ASCII text, an apostrophe standing for a quotation
    mark. *)
Definition bytesOfq (s : string) : list byte :=
  map (fun a => if Ascii.eqb a "'"%char then x22
                else byte_of_ascii a)
      (list_ascii_of_string s).

(** ASCII lines as the bytes of a body, each ended by a line feed. *)
Definition bodyOf (lines : list string) : list byte :=
  concat (map (fun l => bytesOfq l ++ [x0a]) lines).

(** A body of three lines, the sentinel in the middle. *)
Definition sentinelBody : list byte :=
  bodyOf [ "data: {'choices':[{'delta':{'content':'Hi'}}]}";
           "data: [DONE]";
           "data: {'choices':[{'delta':{'content':'late'}}]}" ]%string.

(** A body with a line that is not JSON between two that are. *)
Definition malformedBody : list byte :=
  bodyOf [ "data: {'choices':[{'delta':{'content':'a'}}]}";
           "data: {'choices':[{'delta':";
           "data: {'choices':[{'delta':{'content':'b'}}]}" ]%string.

(** The same body without the malformed line. *)
Definition wellFormedBody : list byte :=
  bodyOf [ "data: {'choices':[{'delta':{'content':'a'}}]}";
           "data: {'choices':[{'delta':{'content':'b'}}]}" ]%string.

(** A payload whose delta has an empty text and an empty list of tool-call
    fragments. *)
Definition emptyDeltaPayload : jsstring :=
  litq "{'choices':[{'delta':{'content':'','tool_calls':[]}}]}".

(** One chunk per byte. *)
Definition bytewise (body : list byte) : list (list byte) :=
  map (fun b => [b]) body.

(** *** Statements about methods *)

(** [m], started in [st], returns, with a value and a final state that
    satisfy [Q]. *)
Definition returnsWith {A : Type} (m : M A) (st : ChatTui)
    (Q : A -> ChatTui -> Prop) : Prop :=
  exists a st', m st = (Returned a, st') /\ Q a st'.

(** [m] always returns, with a value that satisfies [P], and leaves the
    transcript and the request log as they were: it writes to the pane
    only. *)
Definition paneOnly {A : Type} (m : M A) (P : A -> Prop) : Prop :=
  forall st, returnsWith m st (fun a st' =>
    P a /\ chatHistory st' = chatHistory st
        /\ streamRequests st' = streamRequests st).

(** ** DeviceAuthFlow: [login] (src/cli/commands.ts) *)

(** What [AuthGithubCopilot.authorize()] resolves to. *)
Record DeviceInfo := mkDeviceInfo
  { device : jsstring;
    user_code : jsstring;
    verification : jsstring;
    interval : Z }.

(** What [login] does to the outside, in order: a line on the console, a
    [setTimeout] wait of so many milliseconds, a call of [poll]. *)
Inductive LoginEvent :=
| Print (text : jsstring)
| Sleep (milliseconds : Z)
| Poll (deviceCode : jsstring).

(** How [login] ends: its promise resolves, or the process exits. *)
Inductive LoginResult :=
| Resolved
| Exited (code : Z).

Definition maxAttempts : nat := 120.

Section Login.

(** [AuthGithubCopilot.authorize] and [AuthGithubCopilot.poll] are not
    among the sources at hand; [login] is stated over any two of them.
    [poll n deviceCode] is what the call number [n] (from 0) resolves to:
    a status, or a rejection. *)
Variable authorize : Outcome DeviceInfo.
Variable poll : nat -> jsstring -> Outcome jsstring.

(** The [while (status === 'pending' && attempts < maxAttempts)] loop with
    [remaining = maxAttempts - attempts]: what it does, and the status and
    the attempts it ends with unless [poll] rejects. *)
Fixpoint pollLoop (deviceInfo : DeviceInfo) (remaining attempts : nat)
    (status : jsstring) : list LoginEvent * Outcome (jsstring * nat) :=
  if jseqb status (lit "pending") then
    match remaining with
    | O => ([], Returned (status, attempts))
    | S remaining' =>
        let wait := Sleep (interval deviceInfo * 1000) in
        match poll attempts (device deviceInfo) with
        | Threw error => ([wait; Poll (device deviceInfo)], Threw error)
        | Returned status' =>
            let attempts' := S attempts in
            let waiting :=
              if jseqb status' (lit "pending")
              then [Print (lit "Still waiting for authorization...")]
              else [] in
            let (events, result) :=
              pollLoop deviceInfo remaining' attempts' status' in
            (wait :: Poll (device deviceInfo) :: waiting ++ events, result)
        end
    end
  else ([], Returned (status, attempts)).

Definition loginFailed (error : jsstring) : list LoginEvent * LoginResult :=
  ([Print (lit "Login failed: " ++ error)], Exited 1).

Definition login : list LoginEvent * LoginResult :=
  let start := Print (lit "Logging into GitHub Copilot...") in
  match authorize with
  | Threw error =>
      let (events, result) := loginFailed error in (start :: events, result)
  | Returned deviceInfo =>
      let prompts :=
        [ Print (10%Z :: lit "Go to: " ++ verification deviceInfo);
          Print (lit "Enter code: " ++ user_code deviceInfo);
          Print (10%Z :: lit "Waiting for authorization...") ] in
      let (events, polled) := pollLoop deviceInfo maxAttempts 0 (lit "pending") in
      let (final, result) :=
        match polled with
        | Threw error => loginFailed error
        | Returned (status, _) =>
            if jseqb status (lit "complete")
            then ([Print (lit "Successfully logged into GitHub Copilot!")],
                  Resolved)
            else ([Print (lit "Authorization failed or timed out")], Exited 1)
        end in
      (start :: prompts ++ events ++ final, result)
  end.

End Login.

(** The calls of [poll] and the waits of a run, and the time waited. *)
Definition isPoll (e : LoginEvent) : bool :=
  match e with Poll _ => true | _ => false end.

Definition pollCalls (events : list LoginEvent) : nat :=
  length (filter isPoll events).

Fixpoint sleptMilliseconds (events : list LoginEvent) : Z :=
  match events with
  | [] => 0
  | Sleep ms :: rest => ms + sleptMilliseconds rest
  | _ :: rest => sleptMilliseconds rest
  end.

(** The waits and polls of a run, without the console lines. *)
Definition waitsAndPolls (events : list LoginEvent) : list LoginEvent :=
  filter (fun e => match e with Print _ => false | _ => true end) events.

(** [n] rounds of waiting and then polling. *)
Fixpoint rounds (deviceInfo : DeviceInfo) (n : nat) : list LoginEvent :=
  match n with
  | O => []
  | S n' => Sleep (interval deviceInfo * 1000) :: Poll (device deviceInfo)
            :: rounds deviceInfo n'
  end.

(** The first [k] polls answer [pending] and the next one [status]. *)
Definition pendingThen (poll : nat -> jsstring -> Outcome jsstring)
    (deviceCode : jsstring) (from k : nat) (status : jsstring) : Prop :=
  (forall j, j < k -> poll (from + j) deviceCode = Returned (lit "pending"))
  /\ poll (from + k) deviceCode = Returned status.

(** A service that answers [pending] three times and then [complete]. *)
Definition pendingThrice (n : nat) (deviceCode : jsstring) : Outcome jsstring :=
  if Nat.ltb n 3 then Returned (lit "pending") else Returned (lit "complete").

Definition sampleDevice : DeviceInfo :=
  mkDeviceInfo (lit "dev-1") (lit "ABCD-1234")
               (lit "https://github.com/login/device") 5.

(** ** Sample runs *)

Definition emptyDelta : json :=
  JObject [(lit "content", JString []); (lit "tool_calls", JArray [])].

Definition emptyDeltaParsed : json :=
  JObject [(lit "choices", JArray [JObject [(lit "delta", emptyDelta)]])].

(** Files: [a.txt] holds [hello]; no other file can be read. *)
Definition sampleFiles (path : jsstring) : Outcome jsstring :=
  if jseqb path (lit "a.txt") then Returned (lit "hello")
  else Threw (lit "ENOENT: no such file or directory").

Definition sampleLower (text : jsstring) : jsstring :=
  map (fun c => if inRange 65 90 c then (c + 32)%Z else c) text.

Fixpoint untilSlash (s : jsstring) : jsstring :=
  match s with
  | [] => []
  | c :: r => if (c =? 47)%Z then [] else c :: untilSlash r
  end.

(** What follows the last slash. *)
Definition sampleBasename (path : jsstring) : jsstring :=
  rev (untilSlash (rev path)).

(** A summarizer that is out of reach. *)
Definition sampleChat (model : jsstring) (request : list CopilotMessage)
    (maxTokens : Z) : Outcome (option (list (option jsstring))) :=
  Threw (lit "fetch failed").

(** A service that asks for [read_file] on [a.txt] at every request. *)
Definition toolCallBody : list byte :=
  bodyOf [ "data: {'choices':[{'delta':{'tool_calls':[{'index':0,'id':'call_1','type':'function','function':{'name':'read_file','arguments':''}}]}}]}";
           "data: {'choices':[{'delta':{'tool_calls':[{'index':0,'function':{'arguments':'{\'path\':\'a.txt\'}'}}]}}]}";
           "data: [DONE]" ]%string.

Definition insistentService (n : nat) (transcript : list CopilotMessage)
    : Response :=
  FetchBody [toolCallBody] None.


Definition answerBody : list byte :=
  bodyOf [ "data: {'choices':[{'delta':{'content':'a.txt contains: '}}]}";
           "data: {'choices':[{'delta':{'content':'hello  '}}]}";
           "data: [DONE]" ]%string.



(** A service that asks for the file once and then answers. *)
Definition helpfulService (n : nat) (transcript : list CopilotMessage)
    : Response :=
  match n with
  | O => FetchBody [toolCallBody] None
  | _ => FetchBody [answerBody] None
  end.

(** The state after the user has asked a question. *)
Definition askedState : ChatTui :=
  mkTui [mkRenderable 0 user (lit "what's in a.txt")]
        [mkMessage user (lit "what's in a.txt") None None None]
        true 1 (lit "Thinking" ++ [8230%Z], lit "green") [].

(** Fragments of one call: the first without an id. *)
Definition anonymousFragments : list ToolCallDelta :=
  [mkDelta None (Some (mkDeltaFn (Some (lit "read_file")) (Some (lit "{"))))].

(** Truthiness as ECMAScript defines it ([ToBoolean]), written out for
    the values of JSON: [undefined], [null], [false], the empty string and
    a number that is zero are falsy, every other value is truthy, an
    empty array and an empty object too. *)
Definition Truthy (value : option json) : Prop :=
  match value with
  | None | Some JNull | Some (JBool false) | Some (JString []) => False
  | Some (JNumber literal) => nonZeroNumber literal = true
  | Some (JBool true) | Some (JString (_ :: _))
  | Some (JArray _) | Some (JObject _) => True
  end.

(** [digits] is the decimal numeral of [n]: digits only, at least one, no
    zero in front of another digit, and the number they denote is [n]. *)
Definition isDecimalOf (digits : jsstring) (n : nat) : Prop :=
  digits <> []
  /\ Forall (fun c => (48 <= c <= 57)%Z) digits
  /\ (digits = [48%Z] \/ hd 0%Z digits <> 48%Z)
  /\ digitsValue digits = Z.of_nat n.

(** The property of the design document about empty deltas, as it is
    worded there: a parsed line yields an event exactly when its delta has
    a non-empty text or at least one tool-call fragment. *)
Definition yieldsOnlyNonEmptyDeltas (JSON_parse : jsstring -> option json)
    : Prop :=
  forall (data : jsstring) (parsed delta : json),
    jseqb data (lit "[DONE]") = false ->
    JSON_parse data = Some parsed ->
    deltaOf parsed = Some delta ->
    ((exists c, processLine JSON_parse (lit "data: " ++ data) = Yield c)
     <-> (nonEmpty (deltaContent delta) = true
          \/ exists u us, deltaToolCalls delta = Some (u :: us))).

(** The lines of the sample bodies. *)
Definition hiLine : jsstring :=
  litq "data: {'choices':[{'delta':{'content':'Hi'}}]}".
Definition lateLine : jsstring :=
  litq "data: {'choices':[{'delta':{'content':'late'}}]}".
Definition aLine : jsstring :=
  litq "data: {'choices':[{'delta':{'content':'a'}}]}".
Definition bLine : jsstring :=
  litq "data: {'choices':[{'delta':{'content':'b'}}]}".
Definition brokenPayload : jsstring := litq "{'choices':[{'delta':".

(** ** Notions for the further properties *)

(** The line feeds of a text. *)
Definition lineFeeds (s : jsstring) : nat :=
  length (filter (fun c => (c =? 10)%Z) s).

(** [m], started in [st], ends, returning or throwing, with an outcome and
    a final state that satisfy [Q]. *)
Definition endsWith {A : Type} (m : M A) (st : ChatTui)
    (Q : Outcome A -> ChatTui -> Prop) : Prop :=
  exists o st', m st = (o, st') /\ Q o st'.

(** [m] keeps [I]: from a state where [I] holds it ends, whichever way, in
    a state where [I] holds. *)
Definition keeps {A : Type} (I : ChatTui -> Prop) (m : M A) : Prop :=
  forall st o st', I st -> m st = (o, st') -> I st'.

(** The ids of the nodes of the pane. *)
Definition paneIds (st : ChatTui) : list nat := map mr_id (messages st).

(** The nodes of the pane have distinct ids, all of them below
    [messageCounter], the id the next node gets. *)
Definition paneWellFormed (st : ChatTui) : Prop :=
  NoDup (paneIds st) /\ Forall (fun id => id < messageCounter st) (paneIds st).

(** The streaming requests of a turn carry the transcript as it stands:
    the request number [k] of the turn carries what the turn started with
    and the messages of the [k] tool passes before it. *)
Definition carriesTranscript (answer : ToolCall -> CopilotMessage)
    (start : list CopilotMessage) (passes : list (jsstring * list ToolCall))
    (sent : list (list CopilotMessage)) : Prop :=
  forall (k : nat) (request : list CopilotMessage),
    nth_error sent k = Some request ->
    request = start ++ concat (map (toolPassMessages answer) (firstn k passes)).

(** A plain assistant message. *)
Definition finalAnswer (text : jsstring) : CopilotMessage :=
  mkMessage assistant text None None None.

(** A body with a comment line and an empty line between two frames. *)
Definition commentedBody : list byte :=
  bodyOf [ "data: {'choices':[{'delta':{'content':'a'}}]}";
           ": keep-alive";
           "data: {'choices':[{'delta':{'content':'b'}}]}" ]%string.

(** A call of [read_file] whose arguments stopped in the middle. *)
Definition truncatedCall : ToolCall :=
  mkToolCall (lit "call_9") (mkFn (lit "read_file") (litq "{'path':'a.t")).

(** A summarizer that answers with one choice. *)
Definition talkativeChat (model : jsstring) (request : list CopilotMessage)
    (maxTokens : Z) : Outcome (option (list (option jsstring))) :=
  Returned (Some [Some (lit "  Four lines of text. ")]).

(** What a turn may leave in the transcript after the tool passes: nothing,
    or one plain assistant message with a text that is not empty. *)
Definition finalPart (final : list CopilotMessage) : Prop :=
  final = [] \/ exists text, isEmpty text = false /\ final = [finalAnswer text].

(** A service that fails on the second request. *)
Definition failingService (n : nat) (transcript : list CopilotMessage)
    : Response :=
  match n with
  | O => FetchBody [toolCallBody] None
  | _ => FetchThrows (lit "Copilot API error: 500 oops")
  end.

(** A pane with three nodes, the assistant's in the middle. *)
Definition samplePane : ChatTui :=
  mkTui [ mkRenderable 0 user (lit "hi");
          mkRenderable 1 assistant [];
          mkRenderable 2 system (lit "note") ]
        [] true 3 (lit "Ready", lit "brightBlue") [].

(** The two frames of [commentedBody] alone. *)
Definition plainBody : list byte :=
  bodyOf [ "data: {'choices':[{'delta':{'content':'a'}}]}";
           "data: {'choices':[{'delta':{'content':'b'}}]}" ]%string.

(** ** Command assistant (command-assist.ts) *)

(** [CommandProposal]. *)
Record CommandProposal := mkProposal
  { cp_command : jsstring;
    cp_explanation : option jsstring;
    cp_summary : option jsstring }.

(** [content.indexOf(c)] and [content.lastIndexOf(c)] for one code unit;
    [None] is [-1]. *)
Definition indexOf (c : Z) (s : jsstring) : option nat :=
  findIndex (fun d => (d =? c)%Z) s.

Fixpoint lastIndexOf (c : Z) (s : jsstring) : option nat :=
  match s with
  | [] => None
  | d :: r =>
      match lastIndexOf c r with
      | Some i => Some (S i)
      | None => if (d =? c)%Z then Some 0 else None
      end
  end.

(** [content.slice(start, stop)] for indices within the string. *)
Definition sliceBetween (start stop : nat) (s : jsstring) : jsstring :=
  firstn (stop - start) (skipn start s).

Section CommandAssist.

(** [JSON.parse]: [None] when it throws. *)
Variable JSON_parse : jsstring -> option json.

(** Whether the number that a literal denotes is truthy (neither zero nor
    NaN), the platform's. *)
Variable truthyNumber : jsstring -> bool.

(** [extractJson]: [None] is [null]. *)
Definition extractJson (content : jsstring) : option json :=
  match indexOf 123 content, lastIndexOf 125 content with
  | Some start, Some stop =>
      if Nat.leb stop start then None
      else JSON_parse (sliceBetween start (stop + 1) content)
  | _, _ => None
  end.

(** [typeof json[key] === 'string' ? json[key].trim() : undefined]. *)
Definition trimmedField (key : jsstring) (value : json) : option jsstring :=
  match getProp key value with
  | Some (JString s) => Some (trim s)
  | _ => None
  end.

(** [parseProposal]: the lines written with [console.error], and the
    proposal, [None] for [null]. *)
Definition parseProposal (content : jsstring)
    : list jsstring * option CommandProposal :=
  match extractJson content with
  | None => ([], None)
  | Some value =>
      if negb (truthy truthyNumber value) then ([], None)
      else
        let command :=
          match trimmedField (lit "command") value with
          | Some s => s
          | None => []
          end in
        let explanation := trimmedField (lit "explanation") value in
        let summary := trimmedField (lit "summary") value in
        if isEmpty command
        then ([orElse explanation
                 (lit "Assistant did not provide a runnable command.")], None)
        else ([], Some (mkProposal command explanation summary))
  end.



End CommandAssist.


Definition anyNumber (literal : jsstring) : bool := true.

(** ** ChatTui: submissions and commands (008.ts) *)

(** A role as the string it is. *)
Definition roleName (r : Role) : jsstring :=
  match r with
  | user => lit "user"
  | assistant => lit "assistant"
  | system => lit "system"
  | function => lit "function"
  end.

Definition isSystemRole (r : Role) : bool :=
  match r with system => true | _ => false end.

(** The first element of [s.split(/\s+/)] for a trimmed [s]: what comes
    before the first white space, the empty string for the empty string. *)
Fixpoint firstWord (s : jsstring) : jsstring :=
  match s with
  | [] => []
  | c :: r => if isWhiteSpace c then [] else c :: firstWord r
  end.

(** [list.slice(-n)]. *)
Definition lastItems (A : Type) (n : nat) (l : list A) : list A :=
  skipn (length l - n) l.

(** The keys of the [commands] table. *)
Inductive Command := Help | Clear | History | About | Exit.

(** The own property of [commands] that a name selects. *)
Definition ownCommand (name : jsstring) : option Command :=
  if jseqb name (lit "help") then Some Help
  else if jseqb name (lit "clear") then Some Clear
  else if jseqb name (lit "history") then Some History
  else if jseqb name (lit "about") then Some About
  else if jseqb name (lit "exit") then Some Exit
  else None.

Definition helpText : jsstring :=
  lit "Commands:" ++ 10%Z :: lit "  /help     Show this help"
  ++ 10%Z :: lit "  /clear    Reset the conversation"
  ++ 10%Z :: lit "  /history  Show last turns"
  ++ 10%Z :: lit "  /about    About this client"
  ++ 10%Z :: lit "  /exit     Exit (you can also type exit)".

(** The text of [about]; it holds two middle dots, U+00B7. *)
Definition aboutText : jsstring :=
  lit "008 TUI " ++ 183%Z :: lit " built with OpenTUI " ++ 183%Z
  :: lit " streams the GitHub Copilot API + tools.".

(** The preview that [history] shows. *)
Definition historyPreview (entries : list CopilotMessage) : jsstring :=
  join [10%Z]
    (map (fun entry => roleName (role entry) ++ lit "> "
                       ++ firstn 80 (content entry))
         (lastItems 6
            (filter (fun entry => negb (isSystemRole (role entry))) entries))).

(** [this.chatHistory = history]. *)
Definition setChatHistory (history : list CopilotMessage) : M unit :=
  modify (fun st =>
    mkTui (messages st) history (isStreaming st)
          (messageCounter st) (statusLine st) (streamRequests st)).

(** The handlers of [commands].  The value returned says whether the
    handler has set the timer that destroys the renderer and ends the
    process 150 ms later. *)
Definition runCommand (command : Command) : M bool :=
  match command with
  | Help => addSystemMessage helpText ;;; ret false
  | Clear =>
      setMessages [] ;;;
      setChatHistory [] ;;;
      addSystemMessage (lit "Conversation cleared.") ;;;
      ret false
  | History =>
      st <- get ;;
      if Nat.eqb (length (chatHistory st)) 0 then
        addSystemMessage (lit "History is empty.") ;;; ret false
      else
        addSystemMessage
          (orElse (Some (historyPreview (chatHistory st)))
                  (lit "No previous turns tracked.")) ;;;
        ret false
  | About => addSystemMessage aboutText ;;; ret false
  | Exit =>
      addSystemMessage
        (lit "Shutting down " ++ 8212%Z :: lit " see you next time.") ;;;
      ret true
  end.

Section Submission.

Variable JSON_parse : jsstring -> option json.
Variable readFileSync : jsstring -> Outcome jsstring.
Variable fetchStream : nat -> list CopilotMessage -> Response.
Variable toLowerCase : jsstring -> jsstring.
Variable basename : jsstring -> jsstring.
Variable chat :
  jsstring -> list CopilotMessage -> Z
  -> Outcome (option (list (option jsstring))).

(** [commands] is an object literal: a name that is not one of its keys is
    looked up in [Object.prototype].  [inheritedCommand name] is [None]
    when that has no property of the name, and otherwise what calling the
    property as [handler(args)] does: it returns, or it throws (a
    TypeError when the property is not a function).  None of these
    properties reaches the [ChatTui]. *)
Variable inheritedCommand : jsstring -> option (Outcome unit).

(** [handleCommand(input)]; the value is that of the handler. *)
Definition handleCommand (input : jsstring) : M bool :=
  let command := toLowerCase (firstWord (trim (slice 1 input))) in
  match ownCommand command with
  | Some handler => runCommand handler
  | None =>
      match inheritedCommand command with
      | None =>
          addSystemMessage
            (lit "Unknown command: " ++ command ++ lit ". Try /help.") ;;;
          ret false
      | Some (Returned _) => ret false
      | Some (Threw message) => throw message
      end
  end.

(** [echoUserInput(value)]: whether to go on, and whether the exit timer
    has been set. *)
Definition echoUserInput (value : jsstring) : M (bool * bool) :=
  if jseqb (toLowerCase value) (lit "exit") then
    exits <- runCommand Exit ;;
    ret (false, exits)
  else
    createMessageNode user value None ;;;
    ret (true, false).

(** [handleSubmission(rawValue)]; the value says whether the exit timer
    has been set.  Clearing and focusing the input field is left out. *)
Definition handleSubmission (rawValue : jsstring) : M bool :=
  let value := trim rawValue in
  if isEmpty value then
    setStatus (lit "Nothing to send " ++ 8212%Z :: lit " type a message.")
              (lit "brightBlack") ;;;
    ret false
  else
    st <- get ;;
    if isStreaming st then
      addSystemMessage
        (lit "Hold on " ++ 8212%Z :: lit " response is still streaming.") ;;;
      ret false
    else
      echoed <- echoUserInput value ;;
      if negb (fst echoed) then ret (snd echoed)
      else if startsWith value (lit "/") then handleCommand value
      else
        sendToAssistant JSON_parse readFileSync fetchStream toLowerCase
          basename chat value ;;;
        ret false.

End Submission.

(** The properties of [Object.prototype] with a name in lower case:
    [constructor], which returns its argument, and [__proto__], which is
    not a function. *)
Definition sampleInherited (name : jsstring) : option (Outcome unit) :=
  if jseqb name (lit "constructor") then Some (Returned tt)
  else if jseqb name (lit "__proto__")
       then Some (Threw (lit "handler is not a function"))
       else None.

(** A session at rest after one exchange. *)
Definition restingState : ChatTui :=
  mkTui [ mkRenderable 0 system (lit "Welcome to 008. Minimal terminal, maximal focus.");
          mkRenderable 1 user (lit "hi");
          mkRenderable 2 assistant (lit "Hello.") ]
        [ mkMessage user (lit "hi") None None None;
          mkMessage assistant (lit "Hello.") None None None ]
        false 3 (lit "Ready", lit "brightBlue")
        [[mkMessage user (lit "hi") None None None]].

(** [st] is [origin] as far as the service and the transcript go: no
    request was sent, the transcript is as it was or has been emptied, and
    [isStreaming] is as it was. *)
Definition quiet (origin st : ChatTui) : Prop :=
  streamRequests st = streamRequests origin
  /\ (chatHistory st = chatHistory origin \/ chatHistory st = [])
  /\ isStreaming st = isStreaming origin.

(** [handleSubmission] on the sample platform. *)
Definition sampleSubmission : jsstring -> M bool :=
  handleSubmission parseJSON sampleFiles helpfulService sampleLower
    sampleBasename sampleChat sampleInherited.

(** ** The command-line clients: [repl] (src/cli/repl.ts) and [chat]
    (src/cli/commands.ts) *)

(** Why the [try] block of a turn was left: the service failed, with the
    message of the error, or a tool call could not be read (a TypeError of
    a destructuring, a SyntaxError of [JSON.parse]). *)
Inductive TurnFailure :=
| ServiceFailure (message : jsstring)
| ToolCallFailure.

(** What [askQuestion] does last: it asks again, it closes the interface
    and returns, or (after [/exit]) it closes the interface and asks
    again all the same. *)
Inductive TurnEnd := Asked | Closed | ClosedThenAsked.

(** A turn of [repl]: the transcript after it, the messages of the
    requests it sent, the failure that the [catch] reported, and how it
    ended.  What is written to the terminal is left out. *)
Record ReplTurn := mkReplTurn
  { rt_history : list CopilotMessage;
    rt_requests : list (list CopilotMessage);
    rt_failure : option TurnFailure;
    rt_end : TurnEnd }.

(** [choices[k].message] of a response that is not streamed. *)
Record ResponseMessage := mkResponseMessage
  { rm_content : option jsstring;
    rm_tool_calls : option (list ToolCallDelta) }.

(** A run of [chat]: the lines written with [console.log], the messages
    of the requests sent, and the failure after which [Chat failed:] is
    written and the process exits with code 1. *)
Record ChatRun := mkChatRun
  { cr_printed : list jsstring;
    cr_requests : list (list CopilotMessage);
    cr_failure : option TurnFailure }.

Section CommandLine.

(** [JSON.parse]: [None] when it throws. *)
Variable JSON_parse : jsstring -> option json.

(** [readFileSync(path, 'utf-8')] for whatever value [path] holds, [None]
    for [undefined]: the text of the file, or the error thrown, as a
    template literal renders it. *)
Variable readFileAt : option json -> Outcome jsstring.

(** The service: how the streaming request number [n] of a turn, carrying
    [messages], is answered; and the same for a request that is not
    streamed, with the [message] of each of the [choices]. *)
Variable fetchStream : nat -> list CopilotMessage -> Response.
Variable fetchChat :
  nat -> list CopilotMessage -> Outcome (list (option ResponseMessage)).

Variable toLowerCase : jsstring -> jsstring.

(** The body of [for (const toolCall of toolCalls)], the same in [repl]
    and in [chat]: the messages pushed, or [None] when it throws.
    [JSON.parse] of [undefined] throws, and so does the destructuring of
    [null]. *)
Definition answerToolCall (toolCall : ToolCallDelta)
    : option (list CopilotMessage) :=
  match delta_function toolCall with
  | None => None
  | Some fn =>
      match df_name fn with
      | Some name =>
          if jseqb name (lit "read_file") then
            match df_arguments fn with
            | None => None
            | Some args =>
                match JSON_parse args with
                | None | Some JNull => None
                | Some parsed =>
                    let content :=
                      match readFileAt (getProp (lit "path") parsed) with
                      | Returned text => text
                      | Threw e => lit "Error reading file: " ++ e
                      end in
                    Some [mkMessage function content None
                                    (delta_id toolCall) (Some name)]
                end
            end
          else Some []
      | None => Some []
      end
  end.

(** The loop: what was pushed, and whether the loop came to its end. *)
Fixpoint answerToolCalls (toolCalls : list ToolCallDelta)
    : list CopilotMessage * bool :=
  match toolCalls with
  | [] => ([], true)
  | toolCall :: rest =>
      match answerToolCall toolCall with
      | None => ([], false)
      | Some pushed =>
          let (more, completed) := answerToolCalls rest in
          (pushed ++ more, completed)
      end
  end.

(** The callback of [rl.question] in [askQuestion], for the transcript
    [history] of the session so far. *)
Definition replTurn (input : jsstring) (history : list CopilotMessage)
    : ReplTurn :=
  if jseqb (toLowerCase input) (lit "exit") then
    mkReplTurn history [] None Closed
  else if startsWith input (lit "/") then
    mkReplTurn history [] None
      (if jseqb (toLowerCase (slice 1 input)) (lit "exit")
       then ClosedThenAsked else Asked)
  else if isEmpty (trim input) then mkReplTurn history [] None Asked
  else
    let asked := history ++ [mkMessage user input None None None] in
    let (events, outcome) := chatStream JSON_parse (fetchStream 0 asked) in
    match outcome with
    | Threw message =>
        mkReplTurn asked [asked] (Some (ServiceFailure message)) Asked
    | Returned _ =>
        let fullResponse := textOf events in
        let toolCalls := concat (map fragmentBatch events) in
        if Nat.ltb 0 (length toolCalls) then
          let (pushed, completed) := answerToolCalls toolCalls in
          let answered := asked ++ pushed in
          if completed then
            let (events', outcome') :=
              chatStream JSON_parse (fetchStream 1 answered) in
            match outcome' with
            | Threw message =>
                mkReplTurn answered [asked; answered]
                           (Some (ServiceFailure message)) Asked
            | Returned _ =>
                mkReplTurn
                  (answered
                   ++ [mkMessage assistant (fullResponse ++ textOf events')
                                 None None None])
                  [asked; answered] None Asked
            end
          else mkReplTurn answered [asked] (Some ToolCallFailure) Asked
        else
          mkReplTurn
            (asked ++ [mkMessage assistant fullResponse None None None])
            [asked] None Asked
    end.

(** [response.choices[0]?.message]. *)
Definition firstMessage (choices : list (option ResponseMessage))
    : option ResponseMessage :=
  match choices with
  | Some message :: _ => Some message
  | _ => None
  end.

(** [response.choices[0]?.message?.content], or the text shown when it is
    missing or empty. *)
Definition contentOr (choices : list (option ResponseMessage))
    (otherwise : jsstring) : jsstring :=
  match firstMessage choices with
  | Some message => orElse (rm_content message) otherwise
  | None => otherwise
  end.

(** [chat(message)]. *)
Definition chatCommand (message : jsstring) : ChatRun :=
  let greeting := lit "008: " in
  let messages := [mkMessage user message None None None] in
  match fetchChat 0 messages with
  | Threw e => mkChatRun [greeting] [messages] (Some (ServiceFailure e))
  | Returned response =>
      match match firstMessage response with
            | Some first => rm_tool_calls first
            | None => None
            end with
      | Some toolCalls =>
          let (pushed, completed) := answerToolCalls toolCalls in
          if completed then
            let answered := messages ++ pushed in
            match fetchChat 1 answered with
            | Threw e =>
                mkChatRun [greeting] [messages; answered]
                          (Some (ServiceFailure e))
            | Returned finalResponse =>
                mkChatRun
                  [greeting;
                   contentOr finalResponse (lit "No final response from 008")]
                  [messages; answered] None
            end
          else mkChatRun [greeting] [messages] (Some ToolCallFailure)
      | None =>
          mkChatRun [greeting; contentOr response (lit "No response from 008")]
                    [messages] None
      end
  end.

End CommandLine.

(** Whether a fragment names [read_file]. *)
Definition namesReadFile (toolCall : ToolCallDelta) : bool :=
  match delta_name toolCall with
  | Some name => jseqb name (lit "read_file")
  | None => false
  end.

(** [readFileSync] on the sample files, for a path of any type. *)
Definition sampleFileAt (path : option json) : Outcome jsstring :=
  match path with
  | Some (JString p) =>
      match sampleFiles p with
      | Returned text => Returned text
      | Threw e => Threw (lit "Error: " ++ e)
      end
  | _ => Threw (lit "TypeError: The path argument must be of type string")
  end.

(** A service that sends a whole [read_file] call in one fragment, then an
    answer. *)
Definition wholeCallBody : list byte :=
  bodyOf [ "data: {'choices':[{'delta':{'content':'Let me look. ','tool_calls':[{'index':0,'id':'call_1','type':'function','function':{'name':'read_file','arguments':'{\'path\':\'a.txt\'}'}}]}}]}";
           "data: [DONE]" ]%string.

Definition wholeCallService (n : nat) (transcript : list CopilotMessage)
    : Response :=
  match n with
  | O => FetchBody [wholeCallBody] None
  | _ => FetchBody [answerBody] None
  end.

Definition silentChat (n : nat) (transcript : list CopilotMessage)
    : Outcome (list (option ResponseMessage)) :=
  match n with
  | O => Returned [Some (mkResponseMessage (Some (lit "One moment.")) (Some []))]
  | _ => Returned [Some (mkResponseMessage (Some (lit "Done.")) None)]
  end.

(** A message that answers a [read_file] call. *)
Definition readFileResult (m : CopilotMessage) : Prop :=
  role m = function /\ name m = Some (lit "read_file") /\ tool_calls m = None.

(** Two complete calls, of [read_file] and of another tool. *)
Definition sampleCalls : list ToolCallDelta :=
  [ mkDelta (Some (lit "call_1"))
      (Some (mkDeltaFn (Some (lit "read_file"))
                       (Some (litq "{'path':'a.txt'}"))));
    mkDelta (Some (lit "call_2"))
      (Some (mkDeltaFn (Some (lit "list_dir")) (Some (lit "{}")))) ].

(** The fragments of [toolCallBody]: the first names the tool and has no
    arguments yet, the second carries the arguments. *)
Definition firstFragment : ToolCallDelta :=
  mkDelta (Some (lit "call_1"))
          (Some (mkDeltaFn (Some (lit "read_file")) (Some []))).
Definition laterFragment : ToolCallDelta :=
  mkDelta None (Some (mkDeltaFn None (Some (litq "{'path':'a.txt'}")))).

(** A chat service that asks for two tools, then answers. *)
Definition callingChat (n : nat) (transcript : list CopilotMessage)
    : Outcome (list (option ResponseMessage)) :=
  match n with
  | O => Returned [Some (mkResponseMessage (Some (lit "One moment."))
                                            (Some sampleCalls))]
  | _ => Returned [Some (mkResponseMessage (Some (lit "It says hello.")) None)]
  end.


(** ** ChatTui: the title and the lines of the pane (008.ts) *)

(** [summary.replace(/\s+/g, ' ')]: every run of white space becomes one
    space. *)
Fixpoint collapseWhiteSpace (s : jsstring) : jsstring :=
  match s with
  | [] => []
  | c :: r =>
      if isWhiteSpace c then
        match r with
        | d :: _ => if isWhiteSpace d then collapseWhiteSpace r
                    else 32%Z :: collapseWhiteSpace r
        | [] => [32%Z]
        end
      else c :: collapseWhiteSpace r
  end.

Definition TITLE_PROMPT : jsstring :=
  lit "You create short, evocative titles for programming tasks. Respond with 3 to 5 words in Title Case. No punctuation.".

(** [text.replace(/\r/g, '')]. *)
Definition removeCR (text : jsstring) : jsstring :=
  filter (fun c => negb (c =? 13)%Z) text.

Definition prefixForRole (r : Role) : jsstring :=
  match r with
  | user => lit "you:"
  | assistant => lit "008:"
  | function => lit "|"
  | system => lit "sys:"
  end.

Definition colorForRole (r : Role) : jsstring :=
  match r with
  | user => lit "cyan"
  | assistant => lit "brightGreen"
  | function => lit "brightMagenta"
  | system => lit "brightBlack"
  end.

(** A [StyledText] of [formatMessage]: the label, in its colour, and the
    plain text after it. *)
Record StyledText := mkStyled
  { st_color : jsstring; st_label : jsstring; st_rest : jsstring }.

(** [formatMessage(role, text)]. *)
Definition formatMessage (r : Role) (text : jsstring) : StyledText :=
  let sanitized := removeCR text in
  match r with
  | function =>
      let hasContent := Nat.ltb 0 (length sanitized) in
      let body := if hasContent then 32%Z :: sanitized else [] in
      mkStyled (colorForRole r) (lit "|") (body ++ [10%Z])
  | _ =>
      let prefix := prefixForRole r in
      let hasContent := Nat.ltb 0 (length sanitized) in
      let body := if hasContent then 32%Z :: sanitized else [] in
      mkStyled (colorForRole r) prefix (body ++ [10%Z])
  end.

(** No two white-space code units side by side. *)
Fixpoint singleSpaced (s : jsstring) : bool :=
  match s with
  | a :: r =>
      match r with
      | b :: _ => negb (isWhiteSpace a && isWhiteSpace b) && singleSpaced r
      | [] => true
      end
  | [] => true
  end.

(** Whether a text is empty or starts with white space. *)
Definition headWhite (s : jsstring) : bool :=
  match s with
  | [] => true
  | c :: _ => isWhiteSpace c
  end.

(** The words of a text: its runs of code units that are not white space,
    each as long as it can be, in their order. *)
Fixpoint wordsOf (s : jsstring) : list jsstring :=
  match s with
  | [] => []
  | c :: r =>
      if isWhiteSpace c then wordsOf r
      else if headWhite r then [c] :: wordsOf r
      else consHead c (wordsOf r)
  end.

Section Title.

Variable chat :
  jsstring -> list CopilotMessage -> Z
  -> Outcome (option (list (option jsstring))).

(** One call of [maybeGenerateTitleSummary], from its start to its end,
    on the flag [hasGeneratedTitle] and the content of the title node. *)
Definition maybeGenerateTitleSummary (initialMessage : jsstring)
    (hasGeneratedTitle : bool) (title : jsstring) : bool * jsstring :=
  if hasGeneratedTitle then (hasGeneratedTitle, title)
  else
    let trimmed := trim initialMessage in
    if isEmpty trimmed then (hasGeneratedTitle, title)
    else
      match summarizeWithCopilot chat trimmed TITLE_PROMPT 24 with
      | Some (c :: summary) =>
          let normalized := trim (collapseWhiteSpace (c :: summary)) in
          if isEmpty normalized then (false, title)
          else (true, lit "008 " ++ 183%Z :: 32%Z :: normalized)
      | _ => (false, title)
      end.

End Title.

(** ** Command assistant: [main] (command-assist.ts) *)




Section CommandAssistMain.

Variable JSON_parse : jsstring -> option json.
Variable truthyNumber : jsstring -> bool.
Variable toLowerCase : jsstring -> jsstring.

(** [process.cwd()], and how the service answers a request with given
    messages. *)
Variable cwd : jsstring.
Variable fetchAnswer : list CopilotMessage -> Response.


End CommandAssistMain.


(** A summarizer whose answer has runs of white space inside. *)
Definition spacedChat (model : jsstring) (request : list CopilotMessage)
    (maxTokens : Z) : Outcome (option (list (option jsstring))) :=
  Returned (Some [Some (lit " Fix  the" ++ 10%Z :: 9%Z :: lit "Parser ")]).

(** Two answers [pending], then a rejection. *)
Definition rejectingPoll (n : nat) (deviceCode : jsstring) : Outcome jsstring :=
  if Nat.ltb n 2 then Returned (lit "pending")
  else Threw (lit "fetch failed").

(* ================================================================== *)
(** * Properties *)

(** ** Strings *)

Lemma orElse_self (s : jsstring) : orElse (Some s) [] = s.
Proof. destruct s; reflexivity. Qed.

Lemma orElse_nonEmpty a b : nonEmpty a = true -> orElse a b = orElse a [].
Proof. destruct a as [[|c s]|]; simpl; congruence. Qed.

Lemma orElse_empty a b : nonEmpty a = false -> orElse a b = b.
Proof. destruct a as [[|c s]|]; simpl; congruence. Qed.

Lemma lastNonEmpty_nil d : lastNonEmpty [] d = d.
Proof. reflexivity. Qed.

Lemma lastNonEmpty_cons x l d :
  lastNonEmpty (x :: l) d = lastNonEmpty l (orElse x d).
Proof.
  unfold lastNonEmpty. simpl.
  induction (rev l) as [|y r IH]; simpl.
  - destruct (nonEmpty x) eqn:E; [reflexivity|].
    now rewrite orElse_empty.
  - destruct (nonEmpty y) eqn:E; [|exact IH].
    now rewrite (orElse_nonEmpty y d E), (orElse_nonEmpty y (orElse x d) E).
Qed.

Lemma lastNonEmpty_snoc l x d :
  lastNonEmpty (l ++ [x]) d =
  if nonEmpty x then orElse x [] else lastNonEmpty l d.
Proof.
  unfold lastNonEmpty. rewrite rev_app_distr. simpl.
  destruct (nonEmpty x) eqn:E; [|reflexivity].
  now apply orElse_nonEmpty.
Qed.

(** ** ToolCallAccumulator *)

Lemma arraySet_length A (l : list A) k v :
  k <= length l -> length (arraySet l k v) = Nat.max (length l) (S k).
Proof.
  revert k; induction l as [|x l IH]; intros [|k] H; simpl in *; try lia.
  rewrite IH; lia.
Qed.

Lemma arraySet_nth A (l : list A) k v i :
  k <= length l ->
  nth_error (arraySet l k v) i = if Nat.eqb i k then Some v else nth_error l i.
Proof.
  revert k i; induction l as [|x l IH]; intros k i H; simpl in *.
  - assert (k = 0) by lia; subst. destruct i as [|[|i]]; reflexivity.
  - destruct k as [|k], i as [|i]; simpl; try reflexivity.
    apply IH; lia.
Qed.

Lemma orElse_idem a b : orElse a (orElse a b) = orElse a b.
Proof. destruct a as [[|c s]|]; reflexivity. Qed.

Lemma mergeOne_spec merged u index :
  mergeOne merged u index =
  arraySet merged index (mergedRecord index (nth_error merged index) u).
Proof.
  unfold mergeOne, mergedRecord, argumentsText.
  rewrite orElse_self.
  destruct (nth_error merged index) as [c|]; cbn [tc_id tc_function fn_name fn_arguments].
  - reflexivity.
  - now rewrite orElse_idem.
Qed.

(** The [forEach] index never runs past the end of [merged]: the write
    [merged[index] = current] replaces or appends, it leaves no hole. *)
Lemma mergeLoop_length updates : forall merged index,
  index <= length merged ->
  length (mergeLoop merged updates index)
  = Nat.max (length merged) (index + length updates).
Proof.
  induction updates as [|u rest IH]; intros merged index H; simpl.
  - lia.
  - rewrite IH; rewrite mergeOne_spec, arraySet_length by lia; lia.
Qed.

Lemma mergeLoop_nth updates : forall merged index i,
  index <= length merged ->
  nth_error (mergeLoop merged updates index) i =
  if Nat.ltb i index then nth_error merged i
  else match nth_error updates (i - index) with
       | Some u => Some (mergedRecord i (nth_error merged i) u)
       | None => nth_error merged i
       end.
Proof.
  induction updates as [|u rest IH]; intros merged index i H; simpl.
  - destruct (Nat.ltb i index); [reflexivity|]. now destruct (i - index).
  - rewrite IH by (rewrite mergeOne_spec, arraySet_length by lia; lia).
    rewrite mergeOne_spec, !arraySet_nth by lia.
    destruct (Nat.ltb_spec i (S index)) as [L|L].
    + destruct (Nat.eqb_spec i index) as [->|N].
      * rewrite Nat.ltb_irrefl, Nat.sub_diag. reflexivity.
      * destruct (Nat.ltb_spec i index); [reflexivity|lia].
    + destruct (Nat.eqb_spec i index) as [->|N]; [lia|].
      destruct (Nat.ltb_spec i index); [lia|].
      replace (i - index) with (S (i - S index)) by lia. reflexivity.
Qed.

Lemma mergeToolCalls_nth existing updates i :
  nth_error (mergeToolCalls existing updates) i =
  match nth_error updates i with
  | Some u => Some (mergedRecord i (nth_error existing i) u)
  | None => nth_error existing i
  end.
Proof.
  unfold mergeToolCalls. rewrite mergeLoop_nth by lia.
  simpl. now rewrite Nat.sub_0_r.
Qed.

Lemma mergeToolCalls_length existing updates :
  length (mergeToolCalls existing updates)
  = Nat.max (length existing) (length updates).
Proof. unfold mergeToolCalls. now rewrite mergeLoop_length by lia. Qed.

Lemma slotResult_nil i old : slotResult i old [] = old.
Proof.
  destruct old as [[id [n a]]|]; simpl; [|reflexivity].
  now rewrite !lastNonEmpty_nil, app_nil_r.
Qed.

Lemma slotResult_cons i old u fs :
  slotResult i old (u :: fs) = slotResult i (Some (mergedRecord i old u)) fs.
Proof.
  unfold slotResult, mergedRecord.
  destruct fs as [|f fs]; destruct old as [o|]; cbn [map concat tc_id tc_function fn_name fn_arguments];
    rewrite ?lastNonEmpty_cons, ?lastNonEmpty_nil, ?app_nil_r, <- ?app_assoc;
    reflexivity.
Qed.

Lemma accumulate_slot existing batches i :
  nth_error (accumulate existing batches) i
  = slotResult i (nth_error existing i) (slotFragments i batches).
Proof.
  unfold accumulate. revert existing.
  induction batches as [|b rest IH]; intros existing; simpl.
  - now rewrite slotResult_nil.
  - rewrite IH, mergeToolCalls_nth.
    destruct (nth_error b i) as [u|]; [|reflexivity].
    now rewrite slotResult_cons.
Qed.

Lemma syntheticId_nonEmpty index : isEmpty (syntheticId index) = false.
Proof. reflexivity. Qed.

Lemma orElse_isEmpty a b : isEmpty b = false -> isEmpty (orElse a b) = false.
Proof. destruct a as [[|c s]|]; simpl; auto. Qed.

Lemma mergedRecord_id_nonEmpty i old u :
  match old with Some o => isEmpty (tc_id o) = false | None => True end ->
  isEmpty (tc_id (mergedRecord i old u)) = false.
Proof.
  intros H. unfold mergedRecord; simpl. apply orElse_isEmpty.
  destruct old; [exact H | apply syntheticId_nonEmpty].
Qed.

Lemma Forall_nth_error A (P : A -> Prop) (l : list A) :
  (forall i x, nth_error l i = Some x -> P x) -> Forall P l.
Proof.
  induction l as [|a l IH]; intros H; constructor.
  - apply (H 0). reflexivity.
  - apply IH. intros i x Hx. apply (H (S i)). exact Hx.
Qed.

Lemma nth_error_Forall A (P : A -> Prop) (l : list A) i x :
  Forall P l -> nth_error l i = Some x -> P x.
Proof.
  intros H Hx. rewrite Forall_forall in H. apply H.
  eapply nth_error_In; eauto.
Qed.

Lemma mergeToolCalls_hasId existing updates :
  Forall hasId existing -> Forall hasId (mergeToolCalls existing updates).
Proof.
  intros H. apply Forall_nth_error. intros i x.
  rewrite mergeToolCalls_nth.
  destruct (nth_error updates i) as [u|].
  - intros [= <-]. apply mergedRecord_id_nonEmpty.
    destruct (nth_error existing i) as [o|] eqn:E; [|exact I].
    exact (nth_error_Forall _ H E).
  - intros E. exact (nth_error_Forall _ H E).
Qed.

Lemma accumulate_hasId batches : forall existing,
  Forall hasId existing -> Forall hasId (accumulate existing batches).
Proof.
  unfold accumulate.
  induction batches as [|b rest IH]; intros existing H; simpl; [exact H|].
  apply IH, mergeToolCalls_hasId, H.
Qed.

(** C2.  Whatever the accumulator held and whatever batches of fragments
    are merged into it, slot [i] ends up as [slotResult] says: its id and
    its function name are the last non-empty value a fragment supplied (the
    previous value, or the initial one, when none did: an empty or missing
    id or name never replaces anything), and its arguments text is the
    previous text followed by every fragment's arguments text in arrival
    order, the empty ones included.  One merge step changes slot [i] only
    when the batch has a fragment at position [i], and then as
    [mergedRecord] says. *)
Theorem mergeToolCalls_merge_rule :
  forall (existing : list ToolCall) (batches : list (list ToolCallDelta))
         (updates : list ToolCallDelta) (i : nat),
    nth_error (accumulate existing batches) i
    = slotResult i (nth_error existing i) (slotFragments i batches)
    /\ nth_error (mergeToolCalls existing updates) i
       = match nth_error updates i with
         | Some u => Some (mergedRecord i (nth_error existing i) u)
         | None => nth_error existing i
         end.
Proof.
  intros existing batches updates i. split.
  - apply accumulate_slot.
  - apply mergeToolCalls_nth.
Qed.

(** ** StreamDecoder *)

Lemma decode_app d a b :
  decode d (a ++ b) =
  let (d1, t1) := decode d a in
  let (d2, t2) := decode d1 b in
  (d2, t1 ++ t2).
Proof.
  revert d; induction a as [|x a IH]; intros d; simpl.
  - now destruct (decode d b).
  - destruct (decodeByte d x) as [d1 o1]. rewrite IH.
    destruct (decode d1 a) as [d2 o2]. destruct (decode d2 b) as [d3 o3].
    now rewrite app_assoc.
Qed.

Lemma split_newline_not_nil s : split_newline s <> [].
Proof.
  destruct s as [|c r]; simpl; [discriminate|].
  destruct (c =? 10)%Z; [discriminate|].
  destruct (split_newline r); discriminate.
Qed.

Lemma split_newline_cons c r :
  split_newline (c :: r) =
  if (c =? 10)%Z then [] :: split_newline r else consHead c (split_newline r).
Proof. reflexivity. Qed.

Lemma removelast_cons A (x : A) l : l <> [] -> removelast (x :: l) = x :: removelast l.
Proof. destruct l; [congruence|reflexivity]. Qed.

Lemma last_cons A (x : A) l d : l <> [] -> last (x :: l) d = last l d.
Proof. destruct l; [congruence|reflexivity]. Qed.

(** Splitting a text that arrives in two parts: the complete lines of the
    first part, then the split of its unfinished line followed by the
    second part. *)
Lemma split_newline_app a b :
  split_newline (a ++ b) =
  removelast (split_newline a) ++ split_newline (last (split_newline a) [] ++ b).
Proof.
  induction a as [|c a IH]; [reflexivity|].
  rewrite <- app_comm_cons, !split_newline_cons.
  destruct (c =? 10)%Z eqn:E.
  - rewrite removelast_cons, last_cons by apply split_newline_not_nil.
    now rewrite IH.
  - rewrite IH. pose proof (split_newline_not_nil a) as N.
    destruct (split_newline a) as [|l ls]; [congruence|].
    destruct ls as [|l' ls]; simpl.
    + now rewrite E.
    + reflexivity.
Qed.

(** What is held back contains no line feed: splitting it again gives no
    complete line. *)
Lemma split_newline_last s :
  split_newline (last (split_newline s) []) = [last (split_newline s) []].
Proof.
  induction s as [|c s IH]; [reflexivity|].
  rewrite split_newline_cons. pose proof (split_newline_not_nil s) as N.
  destruct (c =? 10)%Z eqn:E.
  - now rewrite last_cons.
  - destruct (split_newline s) as [|l ls]; [congruence|].
    destruct ls as [|l' ls].
    + simpl in *. rewrite E, IH. reflexivity.
    + exact IH.
Qed.

Lemma removelast_split_app a b :
  removelast (split_newline (a ++ b)) =
  removelast (split_newline a)
  ++ removelast (split_newline (last (split_newline a) [] ++ b)).
Proof.
  rewrite split_newline_app. apply removelast_app, split_newline_not_nil.
Qed.

Lemma last_split_app a b :
  last (split_newline (a ++ b)) [] =
  last (split_newline (last (split_newline a) [] ++ b)) [].
Proof.
  rewrite split_newline_app.
  generalize (split_newline_not_nil (last (split_newline a) [] ++ b)).
  generalize (split_newline (last (split_newline a) [] ++ b)) as l2.
  induction (removelast (split_newline a)) as [|x l1 IH]; intros l2 N;
    [reflexivity|].
  rewrite <- app_comm_cons, last_cons; [now apply IH|].
  destruct l1; simpl; [exact N | discriminate].
Qed.

Section DecoderProperties.

Variable JSON_parse : jsstring -> option json.


Lemma processLines_app l1 l2 :
  processLines JSON_parse (l1 ++ l2) =
  let (e1, f1) := processLines JSON_parse l1 in
  if f1 then (e1, true)
  else let (e2, f2) := processLines JSON_parse l2 in (e1 ++ e2, f2).
Proof.
  induction l1 as [|x l1 IH]; simpl.
  - now destruct (processLines JSON_parse l2).
  - destruct (processLine JSON_parse x); [exact IH | | reflexivity].
    rewrite IH. destruct (processLines JSON_parse l1) as [e1 [|]]; [reflexivity|].
    now destruct (processLines JSON_parse l2).
Qed.

(** The read loop yields what one pass over the complete lines of the
    whole text yields, however the text was cut into chunks. *)
Lemma readLoop_spec chunks : forall d buffer,
  removelast (split_newline buffer) = [] ->
  readLoop JSON_parse d buffer chunks =
  processLines JSON_parse
    (removelast (split_newline (buffer ++ snd (decode d (concat chunks))))).
Proof.
  induction chunks as [|value rest IH]; intros d buffer Hb; simpl.
  - now rewrite app_nil_r, Hb.
  - rewrite decode_app.
    destruct (decode d value) as [d1 t1].
    specialize (IH d1 (last (split_newline (buffer ++ t1)) [])).
    destruct (decode d1 (concat rest)) as [d2 t2]. simpl in *.
    rewrite (app_assoc buffer t1 t2), (removelast_split_app (buffer ++ t1) t2),
      processLines_app.
    destruct (processLines JSON_parse (removelast (split_newline (buffer ++ t1))))
      as [e1 [|]]; [reflexivity|].
    rewrite IH; [reflexivity|].
    now rewrite split_newline_last.
Qed.

Lemma readLoop_lines chunks :
  readLoop JSON_parse newTextDecoder [] chunks
  = processLines JSON_parse (completeLines chunks).
Proof. now rewrite readLoop_spec. Qed.

Lemma chatStream_lines chunks readError :
  chatStream JSON_parse (FetchBody chunks readError) =
  let (evs, fin) := processLines JSON_parse (completeLines chunks) in
  (evs, if fin then Returned tt
        else match readError with
             | Some message => Threw message
             | None => Returned tt
             end).
Proof. unfold chatStream. now rewrite readLoop_lines. Qed.

Lemma completeLines_concat chunks :
  completeLines [concat chunks] = completeLines chunks.
Proof. unfold completeLines, decodedText. simpl. now rewrite app_nil_r. Qed.

Lemma concat_bytewise body : concat (bytewise body) = body.
Proof.
  unfold bytewise. induction body as [|b body IH]; simpl; [reflexivity|].
  now rewrite IH.
Qed.

(** C3.  However a body is cut into chunks (one byte per chunk, empty
    chunks, any other way), [chatStream] yields the events, and ends the
    way, it does when the whole body arrives as one chunk; and these are
    the events of the complete, line-feed-terminated lines of the decoded
    text: what follows the last line feed is held back and never
    processed. *)
Theorem chatStream_chunk_independent :
  forall (chunks : list (list byte)) (body : list byte)
         (readError : option jsstring),
    chatStream JSON_parse (FetchBody chunks readError)
    = chatStream JSON_parse (FetchBody [concat chunks] readError)
    /\ chatStream JSON_parse (FetchBody (bytewise body) readError)
       = chatStream JSON_parse (FetchBody [body] readError)
    /\ fst (chatStream JSON_parse (FetchBody chunks readError))
       = fst (processLines JSON_parse (completeLines chunks)).
Proof.
  intros chunks body readError. repeat split.
  - now rewrite !chatStream_lines, completeLines_concat.
  - now rewrite !chatStream_lines, <- (completeLines_concat (bytewise body)),
      concat_bytewise.
  - rewrite chatStream_lines.
    now destruct (processLines JSON_parse (completeLines chunks)).
Qed.


Lemma processLine_sentinel : processLine JSON_parse (lit "data: [DONE]") = Return.
Proof. reflexivity. Qed.

Lemma completeLines_app chunks more :
  exists extra, completeLines (chunks ++ more) = completeLines chunks ++ extra.
Proof.
  unfold completeLines, decodedText. rewrite concat_app, decode_app.
  destruct (decode newTextDecoder (concat chunks)) as [d1 t1].
  destruct (decode d1 (concat more)) as [d2 t2]. simpl.
  rewrite removelast_split_app. eauto.
Qed.

Lemma processLines_sentinel before after :
  processLines JSON_parse (before ++ lit "data: [DONE]" :: after)
  = (fst (processLines JSON_parse before), true).
Proof.
  rewrite processLines_app.
  destruct (processLines JSON_parse before) as [e1 [|]]; [reflexivity|].
  cbn [processLines]. rewrite processLine_sentinel. simpl.
  now rewrite app_nil_r.
Qed.

(** C4.  When the complete lines of a body contain the sentinel line
    [data: [DONE]], [chatStream] yields the events of the lines before it
    and returns: the lines after it, the unfinished line in the buffer and
    any chunk that the reader would still deliver (and a read error that
    would follow) add nothing. *)
Theorem chatStream_sentinel_ends_stream :
  forall (chunks : list (list byte)) (readError : option jsstring)
         (before after : list jsstring),
    completeLines chunks = before ++ lit "data: [DONE]" :: after ->
    chatStream JSON_parse (FetchBody chunks readError)
    = (fst (processLines JSON_parse before), Returned tt)
    /\ forall (more : list (list byte)) (readError' : option jsstring),
         chatStream JSON_parse (FetchBody (chunks ++ more) readError')
         = (fst (processLines JSON_parse before), Returned tt).
Proof.
  intros chunks readError before after H. split.
  - now rewrite chatStream_lines, H, processLines_sentinel.
  - intros more readError'.
    destruct (completeLines_app chunks more) as [extra E].
    rewrite chatStream_lines, E, H, <- app_assoc, <- app_comm_cons.
    now rewrite processLines_sentinel.
Qed.

Lemma processLine_framed data :
  processLine JSON_parse (lit "data: " ++ data) =
  if jseqb data (lit "[DONE]") then Return
  else match JSON_parse data with
       | None => Skip
       | Some parsed =>
           match deltaOf parsed with
           | Some delta =>
               if truthy nonZeroNumber delta
                  && (truthyValue (getProp (lit "content") delta)
                      || truthyValue (getProp (lit "tool_calls") delta))
               then Yield (mkChunk (getProp (lit "content") delta)
                                   (getProp (lit "tool_calls") delta))
               else Skip
           | None => Skip
           end
       end.
Proof.
  unfold processLine.
  replace (startsWith (lit "data: " ++ data) (lit "data: ")) with true
    by (vm_compute; reflexivity).
  replace (slice 6 (lit "data: " ++ data)) with data by reflexivity.
  reflexivity.
Qed.

Lemma processLines_skip before line after :
  processLine JSON_parse line = Skip ->
  processLines JSON_parse (before ++ line :: after)
  = processLines JSON_parse (before ++ after).
Proof.
  intros H. rewrite !processLines_app. cbn [processLines]. now rewrite H.
Qed.

(** C6.  A framed line whose payload [JSON.parse] rejects is skipped and
    nothing else: the events, and the way the generator ends, are those of
    the lines before and after it, and so those of any body that has the
    same lines without the malformed one. *)
Theorem chatStream_skips_malformed_line :
  forall (chunks : list (list byte)) (readError : option jsstring)
         (before after : list jsstring) (data : jsstring),
    completeLines chunks = before ++ (lit "data: " ++ data) :: after ->
    jseqb data (lit "[DONE]") = false ->
    JSON_parse data = None ->
    fst (chatStream JSON_parse (FetchBody chunks readError))
    = fst (processLines JSON_parse (before ++ after))
    /\ forall chunks' : list (list byte),
         completeLines chunks' = before ++ after ->
         chatStream JSON_parse (FetchBody chunks readError)
         = chatStream JSON_parse (FetchBody chunks' readError).
Proof.
  intros chunks readError before after data H Hd Hp.
  assert (S : processLine JSON_parse (lit "data: " ++ data) = Skip)
    by now rewrite processLine_framed, Hd, Hp.
  pose proof (processLines_skip before _ after S) as K.
  unfold jsstring in *. split.
  - rewrite chatStream_lines, H, K.
    now destruct (processLines JSON_parse (before ++ after)).
  - intros chunks' H'.
    now rewrite !chatStream_lines, H, H', K.
Qed.

Lemma truthyValue_Truthy value : truthyValue value = true <-> Truthy value.
Proof.
  destruct value as [[|[|]|literal|[|c s]|items|members]|]; cbn;
    intuition congruence.
Qed.

Lemma truthyValue_getProp key delta :
  truthyValue (getProp key delta) = true -> truthy nonZeroNumber delta = true.
Proof. destruct delta; cbn; congruence. Qed.

Lemma declaredString_Truthy value :
  declaredString value = true ->
  (Truthy value <-> nonEmpty (asString value) = true).
Proof.
  destruct value as [[|[|]|literal|[|c s]|items|members]|]; cbn;
    intuition congruence.
Qed.

(** C5, as amended.  A framed line that parses yields an event exactly
    when the [content] or the [tool_calls] of its delta is truthy; the
    event carries the two values as they are.  For a delta at its declared
    type that is: a text that is not empty, or a list of tool-call
    fragments, be the list empty.  A delta of which both are falsy
    (missing, [null], an empty text, zero, [false]) yields nothing. *)
Theorem processLine_yields_iff :
  forall (data : jsstring) (parsed : json) (c : StreamChunk),
    jseqb data (lit "[DONE]") = false ->
    JSON_parse data = Some parsed ->
    (processLine JSON_parse (lit "data: " ++ data) = Yield c
     <-> exists delta : json,
           deltaOf parsed = Some delta
           /\ c = mkChunk (getProp (lit "content") delta)
                          (getProp (lit "tool_calls") delta)
           /\ (Truthy (getProp (lit "content") delta)
               \/ Truthy (getProp (lit "tool_calls") delta)))
    /\ (processLine JSON_parse (lit "data: " ++ data) = Skip
        <-> forall delta : json,
              deltaOf parsed = Some delta ->
              ~ Truthy (getProp (lit "content") delta)
              /\ ~ Truthy (getProp (lit "tool_calls") delta))
    /\ (forall delta : json,
          deltaOf parsed = Some delta ->
          declaredChunk (mkChunk (getProp (lit "content") delta)
                                 (getProp (lit "tool_calls") delta)) = true ->
          (Truthy (getProp (lit "content") delta)
           <-> nonEmpty (deltaContent delta) = true)
          /\ (Truthy (getProp (lit "tool_calls") delta)
              <-> exists fragments, deltaToolCalls delta = Some fragments))
    /\ nonZeroNumber (lit "5") = true
    /\ nonZeroNumber (lit "-0.25") = true
    /\ nonZeroNumber (lit "0") = false
    /\ nonZeroNumber (lit "-0.0e7") = false.
Proof.
  intros data parsed c Hd Hp.
  rewrite processLine_framed, Hd, Hp.
  split; [|split; [|split; [|now vm_compute]]].
  - destruct (deltaOf parsed) as [delta|];
      [|split; [discriminate|intros (d & E & _); discriminate E]].
    destruct (truthyValue (getProp (lit "content") delta)) eqn:Ec;
      destruct (truthyValue (getProp (lit "tool_calls") delta)) eqn:Et;
      rewrite ?(truthyValue_getProp _ _ Ec), ?(truthyValue_getProp _ _ Et),
              ?andb_false_r; cbn [andb orb];
      (split;
       [ try discriminate; intros [= <-]; exists delta;
         rewrite <- !truthyValue_Truthy; auto
       | intros (d & [= <-] & -> & Hor); try reflexivity;
         rewrite <- !truthyValue_Truthy in Hor;
         destruct Hor; congruence ]).
  - destruct (deltaOf parsed) as [delta|];
      [|split; [intros _ d E; discriminate E|reflexivity]].
    destruct (truthyValue (getProp (lit "content") delta)) eqn:Ec;
      destruct (truthyValue (getProp (lit "tool_calls") delta)) eqn:Et;
      rewrite ?(truthyValue_getProp _ _ Ec), ?(truthyValue_getProp _ _ Et),
              ?andb_false_r; cbn [andb orb];
      (split;
       [ try discriminate; intros _ d [= <-];
         rewrite <- !truthyValue_Truthy; split; congruence
       | intros H; try reflexivity;
         destruct (H delta eq_refl) as [H1 H2];
         rewrite <- truthyValue_Truthy in H1, H2; congruence ]).
  - intros delta _ Hdecl. unfold declaredChunk in Hdecl.
    cbn [chunk_raw_content chunk_raw_tool_calls] in Hdecl.
    apply andb_prop in Hdecl. destruct Hdecl as [H1 H2].
    split; [exact (declaredString_Truthy _ H1)|].
    unfold deltaToolCalls.
    destruct (getProp (lit "tool_calls") delta)
      as [[|[|]|literal|[|c' s']|items|members]|];
      try discriminate H2; cbn; split; try tauto;
      try (intros [fs E]; discriminate E); eauto.
Qed.

End DecoderProperties.

(** ** ConversationOrchestrator *)

Lemma returnsWith_bind A B (m : M A) (k : A -> M B) st (Q : B -> ChatTui -> Prop) :
  returnsWith m st (fun a st1 => returnsWith (k a) st1 Q) ->
  returnsWith (bind m k) st Q.
Proof.
  intros (a & st1 & E & b & st2 & E2 & HQ).
  exists b, st2. split; [|exact HQ]. unfold bind. now rewrite E.
Qed.

Lemma returnsWith_ret A (a : A) st (Q : A -> ChatTui -> Prop) :
  Q a st -> returnsWith (ret a) st Q.
Proof. intros H. now exists a, st. Qed.

Lemma returnsWith_weaken A (m : M A) st (Q Q' : A -> ChatTui -> Prop) :
  returnsWith m st Q -> (forall a st', Q a st' -> Q' a st') ->
  returnsWith m st Q'.
Proof. intros (a & st' & E & H) W. exists a, st'. auto. Qed.

Lemma returnsWith_pane A (m : M A) (P : A -> Prop) st (Q : A -> ChatTui -> Prop) :
  paneOnly m P ->
  (forall a st', P a -> chatHistory st' = chatHistory st ->
                 streamRequests st' = streamRequests st -> Q a st') ->
  returnsWith m st Q.
Proof.
  intros Hm HQ. eapply returnsWith_weaken; [apply Hm|].
  intros a st' (Pa & H1 & H2). auto.
Qed.

Lemma paneOnly_ret A (a : A) (P : A -> Prop) : P a -> paneOnly (ret a) P.
Proof. intros H st. apply returnsWith_ret. auto. Qed.

Lemma paneOnly_bind A B (m : M A) (k : A -> M B) (P : A -> Prop) (Q : B -> Prop) :
  paneOnly m P -> (forall a, P a -> paneOnly (k a) Q) ->
  paneOnly (bind m k) Q.
Proof.
  intros Hm Hk st. apply returnsWith_bind.
  eapply returnsWith_weaken; [apply Hm|].
  intros a st1 (Pa & H1 & H2). cbn beta.
  eapply returnsWith_weaken; [apply (Hk a Pa)|].
  intros b st2 (Qb & H3 & H4). cbn beta. repeat split; congruence.
Qed.

Lemma paneOnly_weaken A (m : M A) (P P' : A -> Prop) :
  paneOnly m P -> (forall a, P a -> P' a) -> paneOnly m P'.
Proof.
  intros Hm W st. eapply returnsWith_weaken; [apply Hm|].
  intros a st' (Pa & H). split; auto.
Qed.

Lemma createMessageNode_pane r text anchor :
  paneOnly (createMessageNode r text anchor) (fun _ => True).
Proof. intros st. eexists _, _. split; [reflexivity|]. simpl. auto. Qed.

Lemma setMessages_pane ms : paneOnly (setMessages ms) (fun _ => True).
Proof. intros st. eexists _, _. split; [reflexivity|]. simpl. auto. Qed.

Lemma removeMessageNode_pane i : paneOnly (removeMessageNode i) (fun _ => True).
Proof.
  intros st. unfold removeMessageNode, bind, get, returnsWith. cbn beta iota.
  destruct (findIndex (fun msg => Nat.eqb (mr_id msg) i) (messages st));
    eexists _, _; (split; [reflexivity|]); simpl; auto.
Qed.

Lemma setNodeContent_pane i text : paneOnly (setNodeContent i text) (fun _ => True).
Proof. intros st. eexists _, _. split; [reflexivity|]. simpl. auto. Qed.

Lemma when_pane b (m : M unit) :
  paneOnly m (fun _ => True) -> paneOnly (when b m) (fun _ => True).
Proof. destruct b; [auto|]. intros _. now apply paneOnly_ret. Qed.

Lemma removeStatus_pane (status : option nat) :
  paneOnly (match status with
            | Some id => removeMessageNode id
            | None => ret tt
            end) (fun _ => True).
Proof.
  destruct status; [apply removeMessageNode_pane | now apply paneOnly_ret].
Qed.

Lemma mergeToolCalls_nil existing : mergeToolCalls existing [] = existing.
Proof. reflexivity. Qed.

Lemma textOf_cons c events : textOf (c :: events) = truthyContent c ++ textOf events.
Proof. reflexivity. Qed.







Section OrchestratorProperties.

Variable JSON_parse : jsstring -> option json.
Variable readFileSync : jsstring -> Outcome jsstring.
Variable fetchStream : nat -> list CopilotMessage -> Response.
Variable toLowerCase : jsstring -> jsstring.
Variable basename : jsstring -> jsstring.
Variable chat :
  jsstring -> list CopilotMessage -> Z
  -> Outcome (option (list (option jsstring))).

(** The [for await] body adds the chunk's text and merges its fragments. *)
Lemma consumeChunk_pane a locals chunk :
  paneOnly (consumeChunk a locals chunk) (fun locals' =>
    accumulatedText locals' = accumulatedText locals ++ truthyContent chunk
    /\ pendingToolCalls locals'
       = mergeToolCalls (pendingToolCalls locals) (fragmentBatch chunk)).
Proof.
  unfold consumeChunk.
  eapply paneOnly_bind with
    (P := fun l1 => accumulatedText l1 = accumulatedText locals
                    /\ pendingToolCalls l1
                       = mergeToolCalls (pendingToolCalls locals)
                                        (fragmentBatch chunk)).
  - unfold fragmentBatch.
    destruct (chunk_tool_calls chunk) as [[|u us]|];
      try (apply paneOnly_ret; now rewrite ?mergeToolCalls_nil).
    destruct (negb _).
    + eapply paneOnly_bind with (P := fun _ => True).
      * destruct (toolStatusRenderable locals).
        -- eapply paneOnly_bind; [apply setNodeContent_pane|].
           intros; now apply paneOnly_ret.
        -- eapply paneOnly_bind; [apply createMessageNode_pane|].
           intros; now apply paneOnly_ret.
      * intros; apply paneOnly_ret. auto.
    + apply paneOnly_ret. auto.
  - intros l1 (E1 & E2). unfold truthyContent.
    destruct (chunk_content chunk) as [[|c text]|]; simpl;
      try (apply paneOnly_ret; now rewrite app_nil_r).
    eapply paneOnly_bind; [apply setNodeContent_pane|].
    intros; apply paneOnly_ret. simpl. now rewrite E1.
Qed.

Lemma consumeChunks_pane a events : forall locals,
  paneOnly (consumeChunks a locals events) (fun locals' =>
    accumulatedText locals' = accumulatedText locals ++ textOf events
    /\ pendingToolCalls locals'
       = accumulate (pendingToolCalls locals) (map fragmentBatch events)).
Proof.
  induction events as [|c events IH]; intros locals; simpl.
  - apply paneOnly_ret. now rewrite app_nil_r.
  - eapply paneOnly_bind; [apply consumeChunk_pane|].
    intros l1 (E1 & E2). eapply paneOnly_weaken; [apply IH|].
    intros l2 (E3 & E4). rewrite E3, E4, E1, E2, textOf_cons.
    now rewrite app_assoc.
Qed.

(** A streaming pass whose stream ends normally: one request is logged,
    carrying the transcript as it stands, and the locals hold the text and
    the tool calls of the events. *)
Lemma streamPass_returns a st events :
  chatStream JSON_parse
    (fetchStream (length (streamRequests st)) (chatHistory st))
  = (events, Returned tt) ->
  returnsWith (streamPass JSON_parse fetchStream a) st (fun locals st' =>
    accumulatedText locals = textOf events
    /\ pendingToolCalls locals = pendingOf events
    /\ chatHistory st' = chatHistory st
    /\ streamRequests st' = streamRequests st ++ [chatHistory st]).
Proof.
  intros E. unfold streamPass.
  apply returnsWith_bind, returnsWith_ret.
  apply returnsWith_bind. eexists tt, _. split; [reflexivity|].
  rewrite E. apply returnsWith_bind.
  eapply returnsWith_pane; [apply consumeChunks_pane|].
  intros locals st' (E1 & E2) H1 H2. apply returnsWith_ret.
  simpl in *. auto.
Qed.

Lemma pushHistory_returns message st (Q : unit -> ChatTui -> Prop) :
  (forall st', chatHistory st' = chatHistory st ++ [message] ->
               streamRequests st' = streamRequests st ->
               messages st' = messages st -> Q tt st') ->
  returnsWith (pushHistory message) st Q.
Proof. intros H. eexists tt, _. split; [reflexivity|]. now apply H. Qed.

Lemma resolveToolCalls_returns toolCalls anchor : forall st,
  returnsWith
    (resolveToolCalls JSON_parse readFileSync toLowerCase basename chat toolCalls anchor)
    st (fun _ st' =>
      chatHistory st'
      = chatHistory st ++ map (toolResultMessage JSON_parse readFileSync) toolCalls
      /\ streamRequests st' = streamRequests st).
Proof.
  induction toolCalls as [|tc rest IH]; intros st; simpl.
  - apply returnsWith_ret. now rewrite app_nil_r.
  - apply returnsWith_bind, pushHistory_returns. intros st1 H1 R1 _.
    apply returnsWith_bind.
    eapply returnsWith_pane; [apply createMessageNode_pane|].
    intros _ st2 _ H2 R2.
    eapply returnsWith_weaken; [apply IH|].
    intros _ st3 (H3 & R3). cbn beta.
    rewrite H3, H2, H1, R3, R2, R1, <- app_assoc. auto.
Qed.

Lemma toolResponse_cases toolCall :
  toolResponse JSON_parse readFileSync toolCall =
  if jseqb (fn_name (tc_function toolCall)) (lit "read_file") then
    match pathArgument JSON_parse toolCall with
    | None => lit "Error reading file: read_file requires a valid path argument"
    | Some path =>
        match readFileSync path with
        | Returned text => text
        | Threw message => lit "Error reading file: " ++ message
        end
    end
  else lit "Tool " ++ fn_name (tc_function toolCall)
       ++ lit " is not implemented in the TUI.".
Proof.
  unfold toolResponse, handleReadFile, readFileBody, pathArgument.
  destruct (jseqb _ _); [|reflexivity].
  destruct (getProp (lit "path") (parseToolArguments JSON_parse toolCall))
    as [[| | | [|c p] | |]|]; reflexivity.
Qed.

(** C8.  [resolveToolCalls] returns for every list of calls and every
    state, never throws, and appends one [function] message per call, in
    order, linked to the call by [tool_call_id].  The text of the message
    is: for a name other than [read_file], that the tool is not
    implemented; for [read_file] without a usable [path], or when reading
    the file throws, [Error reading file: ] and the message of the error;
    otherwise the text of the file. *)
Theorem resolveToolCalls_never_throws :
  (forall (toolCalls : list ToolCall) (anchorMessageId : nat) (st : ChatTui),
     exists st' : ChatTui,
       resolveToolCalls JSON_parse readFileSync toLowerCase basename chat
         toolCalls anchorMessageId st = (Returned tt, st')
       /\ chatHistory st'
          = chatHistory st
            ++ map (toolResultMessage JSON_parse readFileSync) toolCalls)
  /\ (forall toolCall : ToolCall,
        let m := toolResultMessage JSON_parse readFileSync toolCall in
        role m = function
        /\ tool_call_id m = Some (tc_id toolCall)
        /\ name m = Some (fn_name (tc_function toolCall))
        /\ tool_calls m = None
        /\ content m =
           if jseqb (fn_name (tc_function toolCall)) (lit "read_file") then
             match pathArgument JSON_parse toolCall with
             | None =>
                 lit "Error reading file: read_file requires a valid path argument"
             | Some path =>
                 match readFileSync path with
                 | Returned text => text
                 | Threw message => lit "Error reading file: " ++ message
                 end
             end
           else lit "Tool " ++ fn_name (tc_function toolCall)
                ++ lit " is not implemented in the TUI.").
Proof.
  split.
  - intros toolCalls anchor st.
    destruct (resolveToolCalls_returns toolCalls anchor st)
      as ([] & st' & E & H & _).
    now exists st'.
  - intros toolCall. cbn zeta. repeat split. apply toolResponse_cases.
Qed.

Lemma toolResultMessage_ids (calls : list ToolCall) :
  Forall hasId calls ->
  Forall (fun m => nonEmpty (tool_call_id m) = true)
         (map (toolResultMessage JSON_parse readFileSync) calls).
Proof.
  induction 1 as [|tc l Htc _ IH]; constructor; [|exact IH].
  unfold hasId in Htc. simpl. now destruct (tc_id tc).
Qed.

Lemma uint_digits d :
  Forall (fun c => (48 <= c <= 57)%Z)
         (lit (DecimalString.NilEmpty.string_of_uint d)).
Proof.
  induction d; [constructor|..];
    change (lit (String ?a ?r)) with (Z.of_N (N_of_ascii a) :: lit r);
    (constructor; [vm_compute; split; discriminate|exact IHd]).
Qed.

Lemma uint_value d : forall acc,
  fold_left (fun acc c => (10 * acc + (c - 48))%Z)
            (lit (DecimalString.NilEmpty.string_of_uint d)) (Z.of_nat acc)
  = Z.of_nat (Nat.of_uint_acc d acc).
Proof.
  induction d; intros acc; cbn [DecimalString.NilEmpty.string_of_uint
                                 Nat.of_uint_acc];
    [reflexivity| | | | | | | | | |];
    change (lit (String ?a ?r)) with (Z.of_N (N_of_ascii a) :: lit r);
    cbn [fold_left]; rewrite <- IHd; f_equal;
    rewrite Nat.tail_mul_spec;
    match goal with
    | |- context [Z.of_N (N_of_ascii ?a)] =>
        let v := eval vm_compute in (Z.of_N (N_of_ascii a)) in
        change (Z.of_N (N_of_ascii a)) with v
    end; lia.
Qed.

Lemma nzhead_no_zero d :
  match Decimal.nzhead d with Decimal.D0 _ => False | _ => True end.
Proof. induction d; cbn; auto. Qed.

Lemma decimal_isDecimalOf n : isDecimalOf (decimal n) n.
Proof.
  unfold isDecimalOf, decimal.
  assert (Hn : Nat.to_uint n = Decimal.unorm (Nat.to_uint n))
    by (rewrite <- DecimalNat.Unsigned.to_of, DecimalNat.Unsigned.of_to;
        reflexivity).
  repeat split.
  - rewrite Hn. unfold Decimal.unorm.
    destruct (Decimal.nzhead (Nat.to_uint n)); discriminate.
  - apply uint_digits.
  - rewrite Hn. unfold Decimal.unorm.
    pose proof (nzhead_no_zero (Nat.to_uint n)) as Hz.
    destruct (Decimal.nzhead (Nat.to_uint n)); try contradiction;
      [left; reflexivity|right; cbn; lia ..].
  - unfold digitsValue. change 0%Z with (Z.of_nat 0).
    rewrite uint_value. f_equal. apply DecimalNat.Unsigned.of_to.
Qed.

(** C10.  Merging a batch keeps every record's id non-empty; a slot that
    is created by a fragment without an id gets the id [tool-] followed by
    the decimal numeral of its index; so the tool calls pending at the end
    of a pass all have an id, and every message [resolveToolCalls] appends
    for them carries a non-empty [tool_call_id]. *)
Theorem mergeToolCalls_ids_nonEmpty :
  forall (existing : list ToolCall) (updates : list ToolCallDelta),
    Forall hasId existing ->
    Forall hasId (mergeToolCalls existing updates)
    /\ (forall (i : nat) (u : ToolCallDelta),
          nth_error existing i = None ->
          nth_error updates i = Some u ->
          nonEmpty (delta_id u) = false ->
          exists (tc : ToolCall) (digits : jsstring),
            nth_error (mergeToolCalls existing updates) i = Some tc
            /\ tc_id tc = lit "tool-" ++ digits
            /\ isDecimalOf digits i)
    /\ (forall events : list StreamChunk, Forall hasId (pendingOf events))
    /\ (forall (events : list StreamChunk) (anchorMessageId : nat)
               (st : ChatTui),
          exists (st' : ChatTui) (added : list CopilotMessage),
            resolveToolCalls JSON_parse readFileSync toLowerCase basename chat
              (pendingOf events) anchorMessageId st = (Returned tt, st')
            /\ chatHistory st' = chatHistory st ++ added
            /\ length added = length (pendingOf events)
            /\ Forall (fun m => nonEmpty (tool_call_id m) = true) added).
Proof.
  intros existing updates Hall.
  assert (Hp : forall events, Forall hasId (pendingOf events))
    by (intros events; apply accumulate_hasId; constructor).
  split; [|split; [|split]].
  - now apply mergeToolCalls_hasId.
  - intros i u He Hu Hn. rewrite mergeToolCalls_nth, Hu, He.
    eexists _, (decimal i). split; [reflexivity|].
    split; [|apply decimal_isDecimalOf].
    simpl. now apply orElse_empty.
  - exact Hp.
  - intros events anchor st.
    destruct (resolveToolCalls_returns (pendingOf events) anchor st)
      as ([] & st' & E & H & _).
    exists st', (map (toolResultMessage JSON_parse readFileSync)
                     (pendingOf events)).
    repeat split; auto.
    + apply length_map.
    + apply toolResultMessage_ids, Hp.
Qed.


Section PassBound.






End PassBound.

End OrchestratorProperties.

(** ** DeviceAuthFlow *)

Lemma jseqb_eq a b : jseqb a b = true <-> a = b.
Proof.
  revert b; induction a as [|x a IH]; intros [|y b]; simpl;
    try (split; [discriminate|congruence]); [tauto|].
  rewrite andb_true_iff, Z.eqb_eq, IH. split; [intros [-> ->]|intros [= -> ->]]; auto.
Qed.

Lemma jseqb_refl a : jseqb a a = true.
Proof. now apply jseqb_eq. Qed.

Lemma waitsAndPolls_app a b :
  waitsAndPolls (a ++ b) = waitsAndPolls a ++ waitsAndPolls b.
Proof. apply filter_app. Qed.

Lemma pollCalls_waitsAndPolls events :
  pollCalls (waitsAndPolls events) = pollCalls events.
Proof.
  unfold pollCalls, waitsAndPolls.
  induction events as [|[t|ms|d] events IH]; simpl; auto.
Qed.

Lemma sleptMilliseconds_waitsAndPolls events :
  sleptMilliseconds (waitsAndPolls events) = sleptMilliseconds events.
Proof.
  unfold waitsAndPolls.
  induction events as [|[t|ms|d] events IH]; simpl; auto. now rewrite IH.
Qed.

Lemma pollCalls_rounds info n : pollCalls (rounds info n) = n.
Proof.
  unfold pollCalls. induction n as [|n IH]; simpl; [reflexivity|].
  now rewrite IH.
Qed.

Lemma sleptMilliseconds_rounds info n :
  sleptMilliseconds (rounds info n) = (Z.of_nat n * (interval info * 1000))%Z.
Proof.
  induction n as [|n IH]; [reflexivity|].
  cbn [rounds sleptMilliseconds]. rewrite IH. lia.
Qed.

Section LoginProperties.

Variable authorize : Outcome DeviceInfo.
Variable poll : nat -> jsstring -> Outcome jsstring.

Lemma pollLoop_stop info remaining attempts status :
  jseqb status (lit "pending") = false ->
  pollLoop poll info remaining attempts status
  = ([], Returned (status, attempts)).
Proof. intros H. destruct remaining; simpl; now rewrite H. Qed.

Lemma pollLoop_step info remaining attempts status' :
  poll attempts (device info) = Returned status' ->
  pollLoop poll info (S remaining) attempts (lit "pending")
  = (let (events, result) :=
       pollLoop poll info remaining (S attempts) status' in
     (Sleep (interval info * 1000) :: Poll (device info)
      :: (if jseqb status' (lit "pending")
          then [Print (lit "Still waiting for authorization...")]
          else []) ++ events,
      result)).
Proof.
  intros H. cbn [pollLoop].
  replace (jseqb (lit "pending") (lit "pending")) with true by reflexivity.
  now rewrite H.
Qed.

(** The loop waits and then polls, round after round, at most as often as
    attempts remain. *)
Lemma pollLoop_rounds info remaining : forall attempts status,
  exists n, n <= remaining
    /\ waitsAndPolls (fst (pollLoop poll info remaining attempts status))
       = rounds info n.
Proof.
  induction remaining as [|r IH]; intros attempts status.
  - exists 0. split; [lia|]. simpl. now destruct (jseqb status _).
  - destruct (jseqb status (lit "pending")) eqn:E.
    + apply jseqb_eq in E. subst status.
      destruct (poll attempts (device info)) as [status'|error] eqn:P.
      * rewrite (pollLoop_step info r P).
        destruct (IH (S attempts) status') as (n & L & H).
        destruct (pollLoop poll info r (S attempts) status') as [events result].
        exists (S n). split; [lia|]. cbn [fst rounds] in *.
        change (Sleep (interval info * 1000) :: Poll (device info) :: ?l)
          with ([Sleep (interval info * 1000); Poll (device info)] ++ l).
        rewrite !waitsAndPolls_app, H.
        now destruct (jseqb status' (lit "pending")).
      * exists 1. split; [lia|]. cbn [pollLoop].
        replace (jseqb (lit "pending") (lit "pending")) with true by reflexivity.
        now rewrite P.
    + exists 0. split; [lia|]. now rewrite pollLoop_stop.
Qed.

(** While the answers are [pending] the loop goes on; at the first other
    answer it stops, having polled once more than it was told to wait. *)
Lemma pollLoop_until info k : forall remaining attempts status,
  k < remaining ->
  pendingThen poll (device info) attempts k status ->
  jseqb status (lit "pending") = false ->
  exists events,
    pollLoop poll info remaining attempts (lit "pending")
    = (events, Returned (status, attempts + S k))
    /\ waitsAndPolls events = rounds info (S k).
Proof.
  induction k as [|k IH]; intros remaining attempts status L [Hp Hs] Hn;
    destruct remaining as [|r]; try lia.
  - rewrite Nat.add_0_r in Hs. rewrite (pollLoop_step info r Hs).
    rewrite pollLoop_stop, Hn by exact Hn.
    eexists. split; [now rewrite Nat.add_1_r|reflexivity].
  - assert (P0 : poll attempts (device info) = Returned (lit "pending")).
    { rewrite <- (Nat.add_0_r attempts) at 1. apply Hp. lia. }
    rewrite (pollLoop_step info r P0).
    destruct (IH r (S attempts) status) as (events & E & W); [lia| |exact Hn|].
    { split.
      - intros j Hj. replace (S attempts + j) with (attempts + S j) by lia.
        apply Hp. lia.
      - now replace (S attempts + k) with (attempts + S k) by lia. }
    rewrite E. eexists. split.
    + f_equal. f_equal. f_equal. lia.
    + cbn [rounds] in *.
      change (Sleep (interval info * 1000) :: Poll (device info) :: ?l)
        with ([Sleep (interval info * 1000); Poll (device info)] ++ l).
      now rewrite !waitsAndPolls_app, W.
Qed.

(** When every answer within the budget is [pending] the loop uses the
    budget up and ends with [pending]. *)
Lemma pollLoop_exhausted info remaining : forall attempts,
  (forall j, j < remaining ->
             poll (attempts + j) (device info) = Returned (lit "pending")) ->
  exists events,
    pollLoop poll info remaining attempts (lit "pending")
    = (events, Returned (lit "pending", attempts + remaining))
    /\ waitsAndPolls events = rounds info remaining.
Proof.
  induction remaining as [|r IH]; intros attempts Hp.
  - exists []. now rewrite Nat.add_0_r.
  - assert (P0 : poll attempts (device info) = Returned (lit "pending")).
    { rewrite <- (Nat.add_0_r attempts) at 1. apply Hp. lia. }
    rewrite (pollLoop_step info r P0).
    destruct (IH (S attempts)) as (events & E & W).
    { intros j Hj. replace (S attempts + j) with (attempts + S j) by lia.
      apply Hp. lia. }
    rewrite E. eexists. split.
    + f_equal. f_equal. f_equal. lia.
    + cbn [rounds].
      change (Sleep (interval info * 1000) :: Poll (device info) :: ?l)
        with ([Sleep (interval info * 1000); Poll (device info)] ++ l).
      now rewrite !waitsAndPolls_app, W.
Qed.

Lemma login_authorized info :
  authorize = Returned info ->
  login authorize poll =
  (let (events, polled) :=
     pollLoop poll info maxAttempts 0 (lit "pending") in
   let (final, result) :=
     match polled with
     | Threw error => loginFailed error
     | Returned (status, _) =>
         if jseqb status (lit "complete")
         then ([Print (lit "Successfully logged into GitHub Copilot!")],
               Resolved)
         else ([Print (lit "Authorization failed or timed out")], Exited 1)
     end in
   (Print (lit "Logging into GitHub Copilot...")
    :: [ Print (10%Z :: lit "Go to: " ++ verification info);
         Print (lit "Enter code: " ++ user_code info);
         Print (10%Z :: lit "Waiting for authorization...") ]
    ++ events ++ final, result)).
Proof. intros H. unfold login. now rewrite H. Qed.

Lemma login_waitsAndPolls info events polled :
  authorize = Returned info ->
  pollLoop poll info maxAttempts 0 (lit "pending") = (events, polled) ->
  waitsAndPolls (fst (login authorize poll)) = waitsAndPolls events
  /\ snd (login authorize poll)
     = match polled with
       | Threw _ => Exited 1
       | Returned (status, _) =>
           if jseqb status (lit "complete") then Resolved else Exited 1
       end.
Proof.
  intros Ha E. rewrite (login_authorized Ha), E.
  destruct polled as [[status att]|error].
  - destruct (jseqb status (lit "complete")); cbn [fst snd];
      change (Print ?a :: [Print ?b; Print ?c; Print ?d] ++ ?l)
        with ([Print a; Print b; Print c; Print d] ++ l);
      rewrite !waitsAndPolls_app; simpl; now rewrite app_nil_r.
  - cbn [loginFailed fst snd].
    change (Print ?a :: [Print ?b; Print ?c; Print ?d] ++ ?l)
      with ([Print a; Print b; Print c; Print d] ++ l).
    rewrite !waitsAndPolls_app; simpl; now rewrite app_nil_r.
Qed.

(** A loop that ends with a status other than [pending] was answered
    [pending] until that status came, within the budget. *)
Lemma pollLoop_ended info remaining : forall attempts events status att,
  pollLoop poll info remaining attempts (lit "pending")
  = (events, Returned (status, att)) ->
  jseqb status (lit "pending") = false ->
  exists k, k < remaining /\ pendingThen poll (device info) attempts k status.
Proof.
  induction remaining as [|r IH]; intros attempts events status att E Hn.
  - cbn in E. injection E as _ <- _. discriminate.
  - destruct (poll attempts (device info)) as [status'|error] eqn:P.
    + rewrite (pollLoop_step info r P) in E.
      destruct (jseqb status' (lit "pending")) eqn:Es.
      * apply jseqb_eq in Es. subst status'.
        destruct (pollLoop poll info r (S attempts) (lit "pending"))
          as [events' result] eqn:E'.
        injection E as _ ->.
        destruct (IH _ _ _ _ E' Hn) as (k & L & Hp & Hs).
        exists (S k). split; [lia|]. split.
        -- intros [|j] Hj; [now rewrite Nat.add_0_r|].
           replace (attempts + S j) with (S attempts + j) by lia.
           apply Hp. lia.
        -- now replace (attempts + S k) with (S attempts + k) by lia.
      * rewrite pollLoop_stop in E by exact Es. injection E as _ <- _.
        exists 0. split; [lia|]. split; [intros j Hj; lia|].
        now rewrite Nat.add_0_r.
    + cbn [pollLoop] in E.
      replace (jseqb (lit "pending") (lit "pending")) with true in E
        by reflexivity.
      rewrite P in E. discriminate.
Qed.

(** C9.  [login] ends in one of two ways: it resolves, or the process
    exits with code 1.  When [authorize] has answered, what it does besides
    printing is a number of rounds, at most 120, each a wait of
    [interval * 1000] milliseconds followed by one call of [poll].  The
    rounds go on while the answer is [pending]: [k] such answers followed
    by another status make [k + 1] rounds, and 120 answers [pending] make
    120 rounds and a failure.  It resolves exactly when a [complete]
    answer comes within the budget after nothing but [pending].  With an
    interval of 5 and the answers [pending], [pending], [pending],
    [complete], it resolves after 4 calls of [poll] and 20000 milliseconds
    of waiting. *)
Theorem login_polls_until_complete :
  let run := login authorize poll in
  (snd run = Resolved \/ snd run = Exited 1)
  /\ (snd run = Resolved <->
      exists info k, authorize = Returned info /\ k < 120
        /\ pendingThen poll (device info) 0 k (lit "complete"))
  /\ (forall error, authorize = Threw error ->
        waitsAndPolls (fst run) = [] /\ snd run = Exited 1)
  /\ (forall info, authorize = Returned info ->
        (exists n, n <= 120 /\ waitsAndPolls (fst run) = rounds info n)
        /\ (forall k status,
              k < 120 ->
              pendingThen poll (device info) 0 k status ->
              jseqb status (lit "pending") = false ->
              waitsAndPolls (fst run) = rounds info (S k)
              /\ snd run = if jseqb status (lit "complete")
                           then Resolved else Exited 1)
        /\ ((forall j, j < 120 ->
                       poll j (device info) = Returned (lit "pending")) ->
            waitsAndPolls (fst run) = rounds info 120 /\ snd run = Exited 1)
        /\ (interval info = 5%Z ->
            pendingThen poll (device info) 0 3 (lit "complete") ->
            snd run = Resolved
            /\ pollCalls (fst run) = 4
            /\ sleptMilliseconds (fst run) = 20000%Z
            /\ (15000 <= sleptMilliseconds (fst run))%Z)).
Proof.
  cbn zeta.
  assert (Until : forall info k status,
            authorize = Returned info -> k < 120 ->
            pendingThen poll (device info) 0 k status ->
            jseqb status (lit "pending") = false ->
            waitsAndPolls (fst (login authorize poll)) = rounds info (S k)
            /\ snd (login authorize poll)
               = if jseqb status (lit "complete") then Resolved else Exited 1).
  { intros info k status Ha L Hp Hn.
    destruct (pollLoop_until info (remaining := maxAttempts) L Hp Hn)
      as (events & E & W).
    destruct (login_waitsAndPolls Ha E) as [H1 H2]. now rewrite H1, H2, W. }
  assert (C : (exists info, authorize = Returned info)
               \/ (exists error, authorize = Threw error))
    by (destruct authorize; eauto).
  destruct C as [[info Ha]|[error Ha]].
  - destruct (pollLoop poll info maxAttempts 0 (lit "pending"))
      as [events polled] eqn:E.
    destruct (login_waitsAndPolls Ha E) as [H1 H2].
    split; [|split; [|split]].
    + rewrite H2. destruct polled as [[status att]|]; auto.
      destruct (jseqb status (lit "complete")); auto.
    + split.
      * intros R. rewrite H2 in R.
        destruct polled as [[status att]|]; [|discriminate].
        destruct (jseqb status (lit "complete")) eqn:Ec; [|discriminate].
        apply jseqb_eq in Ec. subst status.
        destruct (pollLoop_ended info maxAttempts 0 E eq_refl) as (k & L & Hp).
        exists info, k. auto.
      * intros (info' & k & Ha' & L & Hp).
        now destruct (Until info' k (lit "complete") Ha' L Hp eq_refl).
    + intros error Ha'. rewrite Ha in Ha'. discriminate.
    + intros info' Ha'. assert (info' = info) by congruence. subst info'.
      split; [|split; [|split]].
      * destruct (pollLoop_rounds info maxAttempts 0 (lit "pending"))
          as (n & L & W).
        rewrite E in W. exists n. split; [exact L|]. now rewrite H1.
      * intros k status L Hp Hn. exact (Until info k status Ha L Hp Hn).
      * intros Hp.
        destruct (@pollLoop_exhausted info maxAttempts 0 Hp) as (ev & E' & W).
        rewrite E in E'. injection E' as Ee Ep. subst events polled.
        now rewrite H1, H2.
      * intros Hi Hp.
        assert (L : 3 < 120) by lia.
        destruct (Until info 3 (lit "complete") Ha L Hp eq_refl) as [W R].
        assert (S : sleptMilliseconds (fst (login authorize poll)) = 20000%Z).
        { rewrite <- sleptMilliseconds_waitsAndPolls, W,
            sleptMilliseconds_rounds, Hi. reflexivity. }
        repeat split.
        -- exact R.
        -- now rewrite <- pollCalls_waitsAndPolls, W, pollCalls_rounds.
        -- exact S.
        -- rewrite S. discriminate.
  - unfold login. rewrite Ha. cbn [loginFailed fst snd].
    split; [auto|]. split; [|split].
    + split; [discriminate|]. intros (info' & k & Ha' & _). discriminate.
    + auto.
    + intros info' Ha'. discriminate.
Qed.

End LoginProperties.

(** ** The statements at sample runs *)

(** The scenario of the design document: the user asks for a file, the
    model calls [read_file], then answers. *)
Example scenario_read_file :
  let run := streamAssistantResponse parseJSON sampleFiles helpfulService
               sampleLower sampleBasename sampleChat askedState in
  fst run = Returned tt
  /\ map role (chatHistory (snd run)) = [user; assistant; function; assistant]
  /\ map content (chatHistory (snd run))
     = [lit "what's in a.txt"; []; lit "hello"; lit "a.txt contains: hello"]
  /\ length (streamRequests (snd run)) = 2.
Proof. vm_compute. repeat split. Qed.

(** The same turn from an idle client. *)
Example scenario_whole_turn :
  let run := sendToAssistant parseJSON sampleFiles helpfulService
               sampleLower sampleBasename sampleChat (lit "what's in a.txt")
               (mkTui [] [] false 0 (lit "Ready", lit "brightBlue") []) in
  fst run = Returned tt
  /\ map role (chatHistory (snd run)) = [user; assistant; function; assistant]
  /\ isStreaming (snd run) = false
  /\ statusLine (snd run) = (lit "Ready", lit "brightBlue")
  /\ map mr_role (messages (snd run)) = [function; assistant].
Proof. vm_compute. repeat split. Qed.

(** A model that asks for the file again and again is stopped. *)
Example scenario_pass_bound :
  let run := streamAssistantResponse parseJSON sampleFiles insistentService
               sampleLower sampleBasename sampleChat askedState in
  fst run = Returned tt
  /\ map role (chatHistory (snd run))
     = [user; assistant; function; assistant; function;
        assistant; function; assistant; function]
  /\ length (streamRequests (snd run)) = 4
  /\ map mr_text (skipn 6 (messages (snd run))) = [depthLimitNote].
Proof. vm_compute. repeat split. Qed.

(** Fragments split differently add up to the same record. *)
Example merge_split_independent :
  accumulate []
    [ [mkDelta (Some (lit "call_1"))
         (Some (mkDeltaFn (Some (lit "read_file")) (Some (litq "{'pa"))))];
      [mkDelta None (Some (mkDeltaFn (Some []) (Some [])))];
      [mkDelta (Some []) (Some (mkDeltaFn None (Some (litq "th':'a.txt'}"))))] ]
  = [mkToolCall (lit "call_1")
       (mkFn (lit "read_file") (litq "{'path':'a.txt'}"))].
Proof. reflexivity. Qed.

(** A body with a malformed line, byte by byte, against the body without
    the line. *)
Example malformed_line_dropped :
  chatStream parseJSON (FetchBody (bytewise malformedBody) None)
  = chatStream parseJSON (FetchBody [wellFormedBody] None).
Proof. vm_compute. reflexivity. Qed.

Example decode_split_code_point :
  snd (decode newTextDecoder [xf0; x9f; x98; x80])
  = (let (d, t1) := decode newTextDecoder [xf0; x9f] in
     t1 ++ snd (decode d [x98; x80])).
Proof. reflexivity. Qed.


(** The sentinel, in a body that arrives one byte at a time. *)
Lemma chatStream_sentinel_ends_stream_witness :
  completeLines (bytewise sentinelBody)
  = [hiLine] ++ lit "data: [DONE]" :: [lateLine]
  /\ (chatStream parseJSON (FetchBody (bytewise sentinelBody) None)
      = (fst (processLines parseJSON [hiLine]), Returned tt)
      /\ forall (more : list (list byte)) (readError' : option jsstring),
           chatStream parseJSON
             (FetchBody (bytewise sentinelBody ++ more) readError')
           = (fst (processLines parseJSON [hiLine]), Returned tt)).
Proof.
  assert (H : completeLines (bytewise sentinelBody)
              = [hiLine] ++ lit "data: [DONE]" :: [lateLine])
    by (vm_compute; reflexivity).
  split; [exact H|].
  exact (@chatStream_sentinel_ends_stream parseJSON (bytewise sentinelBody)
           None [hiLine] [lateLine] H).
Defined.

(** The amended rule, at a delta with an empty text and an empty list. *)
Lemma processLine_yields_iff_witness :
  jseqb emptyDeltaPayload (lit "[DONE]") = false
  /\ parseJSON emptyDeltaPayload = Some emptyDeltaParsed
  /\ (processLine parseJSON (lit "data: " ++ emptyDeltaPayload)
      = Yield (mkChunk (Some (JString [])) (Some (JArray [])))
      <-> exists delta : json,
            deltaOf emptyDeltaParsed = Some delta
            /\ mkChunk (Some (JString [])) (Some (JArray []))
               = mkChunk (getProp (lit "content") delta)
                         (getProp (lit "tool_calls") delta)
            /\ (Truthy (getProp (lit "content") delta)
                \/ Truthy (getProp (lit "tool_calls") delta)))
  /\ (processLine parseJSON (lit "data: " ++ emptyDeltaPayload) = Skip
      <-> forall delta : json,
            deltaOf emptyDeltaParsed = Some delta ->
            ~ Truthy (getProp (lit "content") delta)
            /\ ~ Truthy (getProp (lit "tool_calls") delta)).
Proof.
  assert (H1 : jseqb emptyDeltaPayload (lit "[DONE]") = false) by reflexivity.
  assert (H2 : parseJSON emptyDeltaPayload = Some emptyDeltaParsed)
    by (vm_compute; reflexivity).
  split; [exact H1|]. split; [exact H2|].
  pose proof (@processLine_yields_iff parseJSON emptyDeltaPayload
                emptyDeltaParsed
                (mkChunk (Some (JString [])) (Some (JArray []))) H1 H2) as P.
  exact (conj (proj1 P) (proj1 (proj2 P))).
Defined.

(** The claim of the design document about empty deltas fails on the
    code: the payload
    [{"choices":[{"delta":{"content":"","tool_calls":[]}}]}] parses, its
    delta has an empty text and an empty list of fragments, and the line
    yields an event all the same. *)
Lemma yieldsOnlyNonEmptyDeltas_counterexample :
  parseJSON emptyDeltaPayload = Some emptyDeltaParsed
  /\ deltaOf emptyDeltaParsed = Some emptyDelta
  /\ deltaContent emptyDelta = Some []
  /\ deltaToolCalls emptyDelta = Some []
  /\ processLine parseJSON (lit "data: " ++ emptyDeltaPayload)
     = Yield (mkChunk (Some (JString [])) (Some (JArray [])))
  /\ ~ yieldsOnlyNonEmptyDeltas parseJSON.
Proof.
  assert (P : parseJSON emptyDeltaPayload = Some emptyDeltaParsed)
    by (vm_compute; reflexivity).
  assert (Y : processLine parseJSON (lit "data: " ++ emptyDeltaPayload)
              = Yield (mkChunk (Some (JString [])) (Some (JArray []))))
    by (vm_compute; reflexivity).
  repeat split; try assumption.
  intros claim.
  destruct (claim emptyDeltaPayload emptyDeltaParsed emptyDelta
              eq_refl P eq_refl) as [H _].
  destruct H as [H|(u & us & H)]; [eauto | discriminate | discriminate].
Qed.

(** The malformed line, in a body that arrives one byte at a time. *)
Lemma chatStream_skips_malformed_line_witness :
  completeLines (bytewise malformedBody)
  = [aLine] ++ (lit "data: " ++ brokenPayload) :: [bLine]
  /\ jseqb brokenPayload (lit "[DONE]") = false
  /\ parseJSON brokenPayload = None
  /\ (fst (chatStream parseJSON (FetchBody (bytewise malformedBody) None))
      = fst (processLines parseJSON ([aLine] ++ [bLine]))
      /\ forall chunks' : list (list byte),
           completeLines chunks' = [aLine] ++ [bLine] ->
           chatStream parseJSON (FetchBody (bytewise malformedBody) None)
           = chatStream parseJSON (FetchBody chunks' None)).
Proof.
  assert (H1 : completeLines (bytewise malformedBody)
               = [aLine] ++ (lit "data: " ++ brokenPayload) :: [bLine])
    by (vm_compute; reflexivity).
  assert (H2 : jseqb brokenPayload (lit "[DONE]") = false) by reflexivity.
  assert (H3 : parseJSON brokenPayload = None) by (vm_compute; reflexivity).
  split; [exact H1|]. split; [exact H2|]. split; [exact H3|].
  exact (@chatStream_skips_malformed_line parseJSON (bytewise malformedBody)
           None [aLine] [bLine] brokenPayload H1 H2 H3).
Defined.


(** The login, at three answers [pending] and then [complete]. *)
Lemma login_polls_until_complete_witness :
  interval sampleDevice = 5%Z
  /\ pendingThen pendingThrice (device sampleDevice) 0 3 (lit "complete")
  /\ snd (login (Returned sampleDevice) pendingThrice) = Resolved
  /\ pollCalls (fst (login (Returned sampleDevice) pendingThrice)) = 4
  /\ sleptMilliseconds (fst (login (Returned sampleDevice) pendingThrice))
     = 20000%Z
  /\ (15000 <= sleptMilliseconds
                 (fst (login (Returned sampleDevice) pendingThrice)))%Z.
Proof.
  assert (H1 : interval sampleDevice = 5%Z) by reflexivity.
  assert (H2 : pendingThen pendingThrice (device sampleDevice) 0 3
                 (lit "complete")).
  { split; [|reflexivity].
    intros [|[|[|j]]] Hj; try reflexivity. exfalso. lia. }
  split; [exact H1|]. split; [exact H2|].
  exact (proj2 (proj2 (proj2
           (proj2 (proj2 (proj2
              (login_polls_until_complete (Returned sampleDevice) pendingThrice)))
              sampleDevice eq_refl))) H1 H2).
Defined.

(** The synthetic id, at a first fragment without an id. *)
Lemma mergeToolCalls_ids_nonEmpty_witness :
  Forall hasId [mkToolCall (lit "call_1") (mkFn (lit "read_file") (lit "{}"))]
  /\ nth_error [mkToolCall (lit "call_1") (mkFn (lit "read_file") (lit "{}"))] 1
     = None
  /\ nth_error (laterFragment :: anonymousFragments) 1
     = Some (mkDelta None
               (Some (mkDeltaFn (Some (lit "read_file")) (Some (lit "{")))))
  /\ Forall hasId
       (mergeToolCalls
          [mkToolCall (lit "call_1") (mkFn (lit "read_file") (lit "{}"))]
          (laterFragment :: anonymousFragments))
  /\ (exists (tc : ToolCall) (digits : jsstring),
        nth_error
          (mergeToolCalls
             [mkToolCall (lit "call_1") (mkFn (lit "read_file") (lit "{}"))]
             (laterFragment :: anonymousFragments)) 1 = Some tc
        /\ tc_id tc = lit "tool-" ++ digits
        /\ isDecimalOf digits 1)
  /\ map tc_id
       (mergeToolCalls
          [mkToolCall (lit "call_1") (mkFn (lit "read_file") (lit "{}"))]
          (laterFragment :: anonymousFragments))
     = [lit "call_1"; lit "tool-1"].
Proof.
  assert (H : Forall hasId
                [mkToolCall (lit "call_1")
                            (mkFn (lit "read_file") (lit "{}"))])
    by (repeat constructor).
  split; [exact H|]. split; [reflexivity|]. split; [reflexivity|].
  destruct (@mergeToolCalls_ids_nonEmpty parseJSON sampleFiles sampleLower
              sampleBasename sampleChat
              [mkToolCall (lit "call_1") (mkFn (lit "read_file") (lit "{}"))]
              (laterFragment :: anonymousFragments) H) as (A & B & _).
  split; [exact A|]. split; [|reflexivity].
  exact (B 1 _ eq_refl eq_refl eq_refl).
Defined.

(* ================================================================== *)
(** * Further properties of the code *)

(** ** Strings *)

Lemma trimStart_head s :
  trimStart s = [] \/ exists c r, trimStart s = c :: r /\ isWhiteSpace c = false.
Proof.
  induction s as [|c s IH]; simpl; [now left|].
  destruct (isWhiteSpace c) eqn:E; [exact IH|]. right. eauto.
Qed.

Lemma trimStart_fixed c r :
  isWhiteSpace c = false -> trimStart (c :: r) = c :: r.
Proof. intros H. simpl. now rewrite H. Qed.

Lemma trimStart_idem s : trimStart (trimStart s) = trimStart s.
Proof.
  destruct (trimStart_head s) as [->|(c & r & -> & H)]; [reflexivity|].
  now apply trimStart_fixed.
Qed.

Lemma trimStart_suffix s : exists pre, s = pre ++ trimStart s.
Proof.
  induction s as [|c s [pre IH]]; [now exists []|]. simpl.
  destruct (isWhiteSpace c).
  - exists (c :: pre). simpl. now f_equal.
  - now exists [].
Qed.

Lemma trimEnd_prefix s : exists rest, s = trimEnd s ++ rest.
Proof.
  unfold trimEnd. destruct (trimStart_suffix (rev s)) as [pre E].
  exists (rev pre). rewrite <- rev_app_distr, <- E. now rewrite rev_involutive.
Qed.

Lemma trimEnd_idem s : trimEnd (trimEnd s) = trimEnd s.
Proof. unfold trimEnd. now rewrite rev_involutive, trimStart_idem. Qed.

(** A trimmed end is empty or ends in a code unit that is no white space. *)
Lemma trimEnd_last s :
  trimEnd s = [] \/ isWhiteSpace (last (trimEnd s) 0%Z) = false.
Proof.
  unfold trimEnd.
  destruct (trimStart_head (rev s)) as [->|(c & r & -> & H)]; [now left|].
  right. simpl. now rewrite last_last.
Qed.

Lemma trimStart_nil_all l : trimStart l = [] -> forallb isWhiteSpace l = true.
Proof.
  induction l as [|x l IH]; [reflexivity|]. simpl.
  destruct (isWhiteSpace x); [exact IH|discriminate].
Qed.

Lemma trimEnd_keeps_head c r :
  isWhiteSpace c = false -> exists r', trimEnd (c :: r) = c :: r'.
Proof.
  intros H. unfold trimEnd. simpl.
  destruct (trimStart_head (rev r ++ [c])) as [E|(d & t & E & Hd)].
  - exfalso. pose proof (trimStart_nil_all _ E) as W.
    rewrite forallb_app in W. simpl in W.
    rewrite H in W. now rewrite andb_false_r in W.
  - destruct (trimStart_suffix (rev r ++ [c])) as [pre P].
    rewrite E in P.
    assert (R : c :: r = rev (d :: t) ++ rev pre).
    { rewrite <- rev_app_distr, <- P, rev_app_distr, rev_involutive.
      reflexivity. }
    rewrite E. simpl in *.
    destruct (rev t) as [|x u]; simpl in *.
    + injection R as -> _. now exists [].
    + injection R as -> _. eauto.
Qed.

Lemma trim_idem s : trim (trim s) = trim s.
Proof.
  unfold trim.
  destruct (trimStart_head s) as [->|(c & r & -> & H)]; [reflexivity|].
  destruct (@trimEnd_keeps_head c r H) as [r' E].
  rewrite E, (@trimStart_fixed c r' H), <- E. apply trimEnd_idem.
Qed.

Lemma lineFeeds_app a b : lineFeeds (a ++ b) = lineFeeds a + lineFeeds b.
Proof. unfold lineFeeds. now rewrite filter_app, length_app. Qed.

Lemma consHead_length c ll : ll <> [] -> length (consHead c ll) = length ll.
Proof. destruct ll; [congruence|reflexivity]. Qed.

(** A split has one line more than the text has line feeds. *)
Lemma split_newline_length s : length (split_newline s) = S (lineFeeds s).
Proof.
  unfold lineFeeds. induction s as [|c s IH]; [reflexivity|].
  rewrite split_newline_cons. simpl filter.
  destruct (c =? 10)%Z; simpl.
  - now rewrite IH.
  - now rewrite consHead_length by apply split_newline_not_nil.
Qed.

(** No line of a split holds a line feed. *)
Lemma split_newline_lines s : Forall (fun l => lineFeeds l = 0) (split_newline s).
Proof.
  induction s as [|c s IH]; [now repeat constructor|].
  rewrite split_newline_cons. destruct (c =? 10)%Z eqn:E.
  - constructor; [reflexivity|exact IH].
  - destruct (split_newline s) as [|l ls]; simpl; [|inversion IH; subst].
    + repeat constructor. unfold lineFeeds. simpl. now rewrite E.
    + constructor; [|assumption]. unfold lineFeeds in *. simpl. now rewrite E.
Qed.

Lemma lineFeeds_join ls :
  Forall (fun l => lineFeeds l = 0) ls ->
  lineFeeds (join [10%Z] ls) = pred (length ls).
Proof.
  induction 1 as [|l ls Hl Hls IH]; [reflexivity|].
  destruct ls as [|l' ls]; [simpl; now rewrite Hl|].
  change (join [10%Z] (l :: l' :: ls)) with (l ++ [10%Z] ++ join [10%Z] (l' :: ls)).
  rewrite !lineFeeds_app, Hl, IH. reflexivity.
Qed.

(** ** ToolCallAccumulator, further *)

(** X1.  A merge never drops a slot and never leaves a hole: the result
    has as many records as the longer of the accumulator and the batch,
    and the records beyond the batch are the accumulator's. *)
Theorem mergeToolCalls_slots :
  forall (existing : list ToolCall) (updates : list ToolCallDelta),
    length (mergeToolCalls existing updates)
    = Nat.max (length existing) (length updates)
    /\ skipn (length updates) (mergeToolCalls existing updates)
       = skipn (length updates) existing.
Proof.
  intros existing updates. split; [apply mergeToolCalls_length|].
  apply nth_error_ext. intros i.
  rewrite !nth_error_skipn, mergeToolCalls_nth.
  destruct (nth_error updates (length updates + i)) eqn:E; [|reflexivity].
  assert (length updates + i < length updates)
    by (apply nth_error_Some; congruence).
  lia.
Qed.

(** ** StreamDecoder, further *)

(** X2.  A complete line that does not start with [data: ] (a comment, an
    empty line, another field) is ignored: the events, and the way the
    generator ends, are those of the other lines. *)
Theorem chatStream_ignores_unframed_line :
  forall (JSON_parse : jsstring -> option json)
         (chunks : list (list byte)) (readError : option jsstring)
         (before after : list jsstring) (line : jsstring),
    completeLines chunks = before ++ line :: after ->
    startsWith line (lit "data: ") = false ->
    fst (chatStream JSON_parse (FetchBody chunks readError))
    = fst (processLines JSON_parse (before ++ after))
    /\ forall chunks' : list (list byte),
         completeLines chunks' = before ++ after ->
         chatStream JSON_parse (FetchBody chunks readError)
         = chatStream JSON_parse (FetchBody chunks' readError).
Proof.
  intros JSON_parse chunks readError before after line H Hs.
  assert (S : processLine JSON_parse line = Skip)
    by (unfold processLine; now rewrite Hs).
  pose proof (@processLines_skip JSON_parse before line after S) as K.
  split.
  - rewrite chatStream_lines, H, K.
    now destruct (processLines JSON_parse (before ++ after)).
  - intros chunks' H'. now rewrite !chatStream_lines, H, H', K.
Qed.

(** ** ToolExecutor, further *)

(** X3.  When the arguments of a [read_file] call do not parse, or parse
    to a value without a [path] property, the call is answered with the
    path error, whatever the file system holds: the file system is not
    consulted. *)
Theorem read_file_without_path :
  forall (JSON_parse : jsstring -> option json)
         (readFileSync : jsstring -> Outcome jsstring) (toolCall : ToolCall),
    jseqb (fn_name (tc_function toolCall)) (lit "read_file") = true ->
    (JSON_parse (orElse (Some (fn_arguments (tc_function toolCall))) (lit "{}"))
     = None
     \/ exists v,
          JSON_parse (orElse (Some (fn_arguments (tc_function toolCall)))
                             (lit "{}")) = Some v
          /\ getProp (lit "path") v = None) ->
    content (toolResultMessage JSON_parse readFileSync toolCall)
    = lit "Error reading file: read_file requires a valid path argument".
Proof.
  intros JSON_parse readFileSync toolCall Hn Hp.
  cbn [toolResultMessage content].
  unfold toolResponse, handleReadFile, readFileBody, parseToolArguments.
  rewrite Hn.
  destruct Hp as [->|(v & -> & Hv)]; [reflexivity|].
  destruct v; try reflexivity; now rewrite Hv.
Qed.

(** ** The pane texts *)

Lemma unique_snoc_seen x : forall l seen,
  existsb (jseqb x) seen || existsb (jseqb x) l = true ->
  unique seen (l ++ [x]) = unique seen l.
Proof.
  induction l as [|y l IH]; intros seen H; simpl in *.
  - rewrite orb_false_r in H. now rewrite H.
  - destruct (existsb (jseqb y) seen) eqn:Ey.
    + apply IH. destruct (jseqb x y) eqn:E; [|exact H].
      apply jseqb_eq in E. subst y. now rewrite Ey.
    + f_equal. apply IH. simpl.
      destruct (jseqb x y), (existsb (jseqb x) seen),
        (existsb (jseqb x) l); simpl in *; congruence.
Qed.

(** X4.  [describeToolCalls] lists every tool once: a further call whose
    name is blank, or is the name of a call already there, leaves the
    status text as it was. *)
Theorem describeToolCalls_lists_once :
  forall (toolCalls : list ToolCall) (toolCall : ToolCall),
    isEmpty (trim (fn_name (tc_function toolCall))) = true
    \/ existsb (fun call => jseqb (fn_name (tc_function toolCall))
                                  (fn_name (tc_function call)))
               toolCalls = true ->
    describeToolCalls (toolCalls ++ [toolCall]) = describeToolCalls toolCalls.
Proof.
  intros toolCalls toolCall H. unfold describeToolCalls.
  rewrite map_app, filter_app. cbn [map filter].
  destruct (isEmpty (trim (fn_name (tc_function toolCall)))) eqn:E;
    cbn [negb]; [now rewrite app_nil_r|].
  destruct H as [H|H]; [discriminate|].
  rewrite unique_snoc_seen; [reflexivity|]. cbn [existsb orb].
  apply existsb_exists in H. destruct H as (call & Hin & Heq).
  apply existsb_exists. exists (fn_name (tc_function call)). split; [|exact Heq].
  apply filter_In. split.
  - exact (in_map (fun c => fn_name (tc_function c)) toolCalls call Hin).
  - apply jseqb_eq in Heq. rewrite <- Heq, E. reflexivity.
Qed.

(** X5.  [summarizeWithCopilot] never throws; what it returns is [null] or
    a text that is not empty and has no white space at either end; it is
    [null] when the request fails; and it reads only the first 4000 code
    units of its input. *)
Theorem summarizeWithCopilot_result :
  forall (chat : jsstring -> list CopilotMessage -> Z
                 -> Outcome (option (list (option jsstring))))
         (input systemPrompt : jsstring) (maxTokens : Z),
    match summarizeWithCopilot chat input systemPrompt maxTokens with
    | Some text => isEmpty text = false /\ trim text = text
    | None => True
    end
    /\ summarizeWithCopilot chat input systemPrompt maxTokens
       = summarizeWithCopilot chat (firstn SUMMARY_INPUT_LIMIT input)
           systemPrompt maxTokens
    /\ ((exists error,
           chat SUMMARIZER_MODEL_ID
             [ mkMessage system systemPrompt None None None;
               mkMessage user (firstn SUMMARY_INPUT_LIMIT input)
                         None None None ] maxTokens = Threw error)
        -> summarizeWithCopilot chat input systemPrompt maxTokens = None).
Proof.
  intros chat input systemPrompt maxTokens. unfold summarizeWithCopilot.
  rewrite firstn_firstn, Nat.min_id. split; [|split; [reflexivity|]].
  - destruct (chat _ _ _) as [[choices|]|error]; cbn [catchOutcome]; auto.
    destruct (find _ choices) as [[text|]|]; cbn [catchOutcome]; auto.
    destruct (isEmpty (trim text)) eqn:E; cbn [catchOutcome]; auto.
    split; [exact E|apply trim_idem].
  - intros [error ->]. reflexivity.
Qed.

(** X6.  For an output that starts with [error] (after leading white
    space, in any case) or has at most three lines, [describeToolResult]
    does not consult the summarizer: the line shown is the same whatever
    the summarizer would answer. *)
Theorem describeToolResult_without_summary :
  forall (toLowerCase basename : jsstring -> jsstring)
         (chat1 chat2 : jsstring -> list CopilotMessage -> Z
                        -> Outcome (option (list (option jsstring))))
         (toolName : jsstring) (args : json) (output : jsstring),
    startsWith (toLowerCase (trimStart (replaceCRLF output))) (lit "error") = true
    \/ length (split_newline (replaceCRLF output)) <= 3 ->
    describeToolResult toLowerCase basename chat1 toolName args output
    = describeToolResult toLowerCase basename chat2 toolName args output.
Proof.
  intros toLowerCase basename chat1 chat2 toolName args output H.
  unfold describeToolResult.
  assert (N : negb (startsWith (toLowerCase (trimStart (replaceCRLF output)))
                               (lit "error"))
              && Nat.ltb 3 (length (split_newline (replaceCRLF output)))
              = false).
  { destruct H as [->|H]; [reflexivity|].
    apply andb_false_iff. right. apply Nat.ltb_ge. exact H. }
  now rewrite N.
Qed.

Lemma lineFeeds_trimEnd s : lineFeeds (trimEnd s) <= lineFeeds s.
Proof.
  destruct (trimEnd_prefix s) as [rest E]. rewrite E at 2.
  rewrite lineFeeds_app. lia.
Qed.

Lemma Forall_removelast A (P : A -> Prop) l : Forall P l -> Forall P (removelast l).
Proof.
  induction 1 as [|x l Hx Hl IH]; [constructor|].
  destruct l; [constructor|]. simpl. constructor; [exact Hx|exact IH].
Qed.

Lemma Forall_last A (P : A -> Prop) l d : Forall P l -> P d -> P (last l d).
Proof.
  induction 1 as [|x l Hx Hl IH]; intros Hd; [exact Hd|].
  destruct l; [exact Hx|]. now apply IH.
Qed.

Lemma Forall_take A (P : A -> Prop) n : forall l,
  Forall P l -> Forall P (firstn n l).
Proof.
  induction n as [|n IH]; intros l H; [constructor|].
  destruct H; simpl; constructor; auto.
Qed.

Lemma removelast_length A (l : list A) : length (removelast l) = pred (length l).
Proof.
  induction l as [|x l IH]; [reflexivity|].
  destruct l; [reflexivity|]. simpl in *. now rewrite IH.
Qed.

(** X7.  [summarizePreview] with room for at least one line gives at most
    that many lines, and never a text that ends in white space; an empty
    preview gives the empty text. *)
Theorem summarizePreview_bounds :
  forall (preview : jsstring) (maxLines : nat),
    1 <= maxLines ->
    length (split_newline (summarizePreview preview maxLines)) <= maxLines
    /\ (summarizePreview preview maxLines = []
        \/ isWhiteSpace (last (summarizePreview preview maxLines) 0%Z) = false)
    /\ summarizePreview [] maxLines = [].
Proof.
  intros preview maxLines Hm. split; [|split; [|reflexivity]].
  - rewrite split_newline_length. unfold summarizePreview.
    destruct (isEmpty preview); [unfold lineFeeds; simpl; lia|].
    destruct (Nat.leb_spec (length (split_newline (replaceCRLF preview)))
                maxLines) as [L|L].
    + rewrite split_newline_length in L.
      pose proof (lineFeeds_trimEnd (replaceCRLF preview)). lia.
    + set (limited := firstn maxLines (split_newline (replaceCRLF preview))).
      assert (Hl : length limited = maxLines)
        by (unfold limited; rewrite length_firstn; lia).
      assert (Hf : Forall (fun l => lineFeeds l = 0) limited)
        by (apply Forall_take, split_newline_lines).
      destruct limited as [|l0 ls] eqn:El; [simpl in Hl; lia|].
      rewrite <- El in *.
      etransitivity; [apply le_n_S, lineFeeds_trimEnd|].
      rewrite lineFeeds_join.
      * rewrite length_app, removelast_length. simpl. lia.
      * apply Forall_app. split; [now apply Forall_removelast|].
        constructor; [|constructor]. rewrite lineFeeds_app.
        pose proof (@Forall_last _ (fun l => lineFeeds l = 0) limited []
                      Hf eq_refl) as Hlast.
        cbn beta in Hlast. rewrite Hlast. reflexivity.
  - unfold summarizePreview.
    destruct (isEmpty preview); [now left|].
    destruct (Nat.leb _ _); [apply trimEnd_last|].
    destruct (firstn maxLines _); [now left|apply trimEnd_last].
Qed.

(** ** ConversationOrchestrator, further *)

Lemma endsWith_bind A B (m : M A) (k : A -> M B) st
    (Q : Outcome B -> ChatTui -> Prop) :
  endsWith m st (fun o st1 =>
    match o with
    | Returned a => endsWith (k a) st1 Q
    | Threw e => Q (Threw e) st1
    end) ->
  endsWith (bind m k) st Q.
Proof.
  intros ([a|e] & st1 & E & H); unfold endsWith, bind; rewrite E.
  - exact H.
  - eauto.
Qed.

Lemma endsWith_returns A (m : M A) st (P : A -> ChatTui -> Prop)
    (Q : Outcome A -> ChatTui -> Prop) :
  returnsWith m st P ->
  (forall a st', P a st' -> Q (Returned a) st') ->
  endsWith m st Q.
Proof. intros (a & st' & E & H) W. exists (Returned a), st'. auto. Qed.

Lemma endsWith_weaken A (m : M A) st (Q Q' : Outcome A -> ChatTui -> Prop) :
  endsWith m st Q -> (forall o st', Q o st' -> Q' o st') -> endsWith m st Q'.
Proof. intros (o & st' & E & H) W. exists o, st'. auto. Qed.

Lemma endsWith_ret A (a : A) st (Q : Outcome A -> ChatTui -> Prop) :
  Q (Returned a) st -> endsWith (ret a) st Q.
Proof. intros H. now exists (Returned a), st. Qed.

Lemma endsWith_pane A (m : M A) (P : A -> Prop) st
    (Q : Outcome A -> ChatTui -> Prop) :
  paneOnly m P ->
  (forall a st', P a -> chatHistory st' = chatHistory st ->
                 streamRequests st' = streamRequests st -> Q (Returned a) st') ->
  endsWith m st Q.
Proof.
  intros Hm HQ. destruct (Hm st) as (a & st' & E & Pa & H & R).
  exists (Returned a), st'. auto.
Qed.

Lemma endsWith_push message st (Q : Outcome unit -> ChatTui -> Prop) :
  (forall st', chatHistory st' = chatHistory st ++ [message] ->
               streamRequests st' = streamRequests st ->
               Q (Returned tt) st') ->
  endsWith (pushHistory message) st Q.
Proof. intros H. eexists (Returned tt), _. split; [reflexivity|]. now apply H. Qed.

Section AnyService.

Variable JSON_parse : jsstring -> option json.
Variable readFileSync : jsstring -> Outcome jsstring.
Variable fetchStream : nat -> list CopilotMessage -> Response.
Variable toLowerCase : jsstring -> jsstring.
Variable basename : jsstring -> jsstring.
Variable chat :
  jsstring -> list CopilotMessage -> Z
  -> Outcome (option (list (option jsstring))).

Lemma endsWith_resolve toolCalls anchor st (Q : Outcome unit -> ChatTui -> Prop) :
  (forall st',
     chatHistory st'
     = chatHistory st ++ map (toolResultMessage JSON_parse readFileSync) toolCalls ->
     streamRequests st' = streamRequests st -> Q (Returned tt) st') ->
  endsWith
    (resolveToolCalls JSON_parse readFileSync toLowerCase basename chat
       toolCalls anchor) st Q.
Proof.
  intros H.
  destruct (@resolveToolCalls_returns JSON_parse readFileSync toLowerCase
              basename chat toolCalls anchor st) as ([] & st' & E & Hh & R).
  exists (Returned tt), st'. auto.
Qed.

(** A streaming pass, however its stream ends: one request is logged, the
    transcript is not touched. *)
Lemma streamPass_ends a st :
  endsWith (streamPass JSON_parse fetchStream a) st (fun o st' =>
    chatHistory st' = chatHistory st
    /\ streamRequests st' = streamRequests st ++ [chatHistory st]
    /\ match o with
       | Returned locals =>
           exists events,
             chatStream JSON_parse
               (fetchStream (length (streamRequests st)) (chatHistory st))
             = (events, Returned tt)
             /\ accumulatedText locals = textOf events
             /\ pendingToolCalls locals = pendingOf events
       | Threw e =>
           exists events,
             chatStream JSON_parse
               (fetchStream (length (streamRequests st)) (chatHistory st))
             = (events, Threw e)
       end).
Proof.
  destruct (chatStream JSON_parse
              (fetchStream (length (streamRequests st)) (chatHistory st)))
    as [events [[]|error]] eqn:E.
  - eapply endsWith_returns;
      [apply (@streamPass_returns JSON_parse fetchStream a st events E)|].
    intros locals st' (E1 & E2 & H & R). eauto 7.
  - unfold streamPass.
    apply endsWith_bind. exists (Returned st), st. split; [reflexivity|].
    apply endsWith_bind. eexists (Returned tt), _. split; [reflexivity|].
    rewrite E. apply endsWith_bind.
    eapply endsWith_pane; [apply consumeChunks_pane|].
    intros locals st' _ H R. cbn beta iota.
    exists (Threw error), st'. split; [reflexivity|].
    simpl in *. eauto.
Qed.

(** The loop of [streamAssistantResponse] against any service. *)
Lemma passLoop_ends remaining : forall a st,
  endsWith
    (passLoop JSON_parse readFileSync fetchStream toLowerCase basename chat
       remaining a) st
    (fun o st' =>
       exists (passes : list (jsstring * list ToolCall))
              (final : list CopilotMessage)
              (sent : list (list CopilotMessage)),
         chatHistory st'
         = chatHistory st
           ++ concat (map (toolPassMessages
                             (toolResultMessage JSON_parse readFileSync))
                          passes)
           ++ final
         /\ Forall (fun p => snd p <> []) passes
         /\ finalPart final
         /\ streamRequests st' = streamRequests st ++ sent
         /\ length passes <= length sent <= remaining
         /\ (length passes = remaining -> final = [] /\ o = Returned tt)
         /\ (forall e, o = Threw e -> final = [])
         /\ (0 < remaining -> 0 < length sent)
         /\ carriesTranscript (toolResultMessage JSON_parse readFileSync)
              (chatHistory st) passes sent).
Proof.
  assert (Hone : forall start : list CopilotMessage,
            carriesTranscript (toolResultMessage JSON_parse readFileSync)
              start [] [start]).
  { intros start [|k] request E; [|now destruct k].
    injection E as <-. simpl. now rewrite app_nil_r. }
  induction remaining as [|remaining IH]; intros a st.
  - eexists (Returned tt), _. split; [reflexivity|].
    exists [], [], []. simpl. rewrite !app_nil_r.
    repeat split; auto; try (now left); try discriminate; try lia.
    intros [|k] request E; discriminate E.
  - cbn [passLoop]. apply endsWith_bind.
    eapply endsWith_weaken; [apply streamPass_ends|].
    intros [locals|error] st1 (H1 & R1 & Hl); cbn beta iota.
    2:{ exists [], [], [chatHistory st]. simpl. rewrite app_nil_r.
        repeat split; auto; try (now left); try lia; try discriminate. }
    destruct Hl as (events & _ & E1 & E2). rewrite E1, E2.
    destruct (pendingOf events) as [|tc calls] eqn:Ep; cbn [length Nat.eqb].
    + (* the final answer *)
      apply endsWith_bind.
      eapply endsWith_pane; [apply removeStatus_pane|].
      intros [] st2 _ H2 R2. cbn beta iota.
      destruct (trimEnd (textOf events)) as [|c text] eqn:Et;
        cbn [length Nat.eqb].
      * eapply endsWith_pane; [apply removeMessageNode_pane|].
        intros [] st3 _ H3 R3.
        exists [], [], [chatHistory st]. simpl. rewrite app_nil_r.
        refine (conj _ (conj _ (conj _ (conj _ (conj _ (conj _
                 (conj _ (conj _ _)))))))).
        -- congruence.
        -- constructor.
        -- now left.
        -- congruence.
        -- lia.
        -- auto.
        -- auto.
        -- lia.
        -- apply Hone.
      * apply endsWith_bind.
        eapply endsWith_pane; [apply setNodeContent_pane|].
        intros [] st3 _ H3 R3. cbn beta iota.
        apply endsWith_push. intros st4 H4 R4.
        exists [], [finalAnswer (c :: text)], [chatHistory st]. simpl.
        refine (conj _ (conj _ (conj _ (conj _ (conj _ (conj _
                 (conj _ (conj _ _)))))))).
        -- unfold finalAnswer. congruence.
        -- constructor.
        -- right. exists (c :: text). auto.
        -- congruence.
        -- lia.
        -- intros L. exfalso. lia.
        -- discriminate.
        -- lia.
        -- apply Hone.
    + (* a pass that asked for tools *)
      apply endsWith_bind, endsWith_push. intros st2 H2 R2. cbn beta iota.
      apply endsWith_bind, endsWith_resolve. intros st3 H3 R3. cbn beta iota.
      apply endsWith_bind.
      eapply endsWith_pane; [apply removeStatus_pane|].
      intros [] st4 _ H4 R4. cbn beta iota.
      apply endsWith_bind.
      eapply endsWith_pane; [apply when_pane, removeMessageNode_pane|].
      intros [] st5 _ H5 R5. cbn beta iota.
      apply endsWith_bind.
      eapply endsWith_pane; [apply createMessageNode_pane|].
      intros a' st6 _ H6 R6. cbn beta iota.
      eapply endsWith_weaken; [apply IH|].
      intros o st7
        (passes & final & sent & H7 & Hall & Hf & R7 & L & Hb & Ht & _ & Hc).
      exists ((textOf events, tc :: calls) :: passes), final,
             (chatHistory st :: sent).
      cbn [map concat toolPassMessages fst snd length].
      refine (conj _ (conj _ (conj _ (conj _ (conj _ (conj _
               (conj _ (conj _ _)))))))).
      * rewrite H7, H6, H5, H4, H3, H2, H1, <- !app_assoc. reflexivity.
      * constructor; [discriminate|exact Hall].
      * exact Hf.
      * rewrite R7, R6, R5, R4, R3, R2, R1, <- app_assoc. reflexivity.
      * lia.
      * intros Hl. apply Hb. lia.
      * exact Ht.
      * lia.
      * intros [|k] request E.
        -- injection E as <-. simpl. now rewrite app_nil_r.
        -- cbn [nth_error] in E. rewrite (Hc k request E).
           rewrite H6, H5, H4, H3, H2, H1.
           cbn [firstn map concat toolPassMessages fst snd].
           now rewrite <- !app_assoc.
Qed.

(** X8.  Against any service, [streamAssistantResponse] ends, returning
    or throwing, with a transcript that grew by complete groups only: at
    most four passes that asked for tools, each an assistant message with
    its tool calls followed by the result of every call, then at most one
    plain assistant message, whose text is not empty.  It sends a
    streaming request (a call of [chatStream]) per pass begun, one at
    least and never a fifth, each with the transcript as it stands when
    the pass begins; when it throws, and when it stops at the bound, there
    is no plain message.  The requests that are not streamed (to the
    summarizer, for a long tool output) are not counted here. *)
Theorem streamAssistantResponse_any_service :
  forall st : ChatTui,
    exists (o : Outcome unit) (st' : ChatTui)
           (passes : list (jsstring * list ToolCall))
           (final : list CopilotMessage)
           (sent : list (list CopilotMessage)),
      streamAssistantResponse JSON_parse readFileSync fetchStream
        toLowerCase basename chat st = (o, st')
      /\ chatHistory st'
         = chatHistory st
           ++ concat (map (toolPassMessages
                             (toolResultMessage JSON_parse readFileSync))
                          passes)
           ++ final
      /\ Forall (fun p => snd p <> []) passes
      /\ finalPart final
      /\ streamRequests st' = streamRequests st ++ sent
      /\ length passes <= length sent <= 4
      /\ (length passes = 4 -> final = [] /\ o = Returned tt)
      /\ (forall e, o = Threw e -> final = [])
      /\ 1 <= length sent
      /\ carriesTranscript (toolResultMessage JSON_parse readFileSync)
           (chatHistory st) passes sent.
Proof.
  intros st. unfold streamAssistantResponse.
  assert (E : endsWith
            (a <- createMessageNode assistant [] None ;;
             passLoop JSON_parse readFileSync fetchStream toLowerCase basename
               chat maxToolPasses a) st
            (fun o st' =>
               exists passes final sent,
                 chatHistory st'
                 = chatHistory st
                   ++ concat (map (toolPassMessages
                                     (toolResultMessage JSON_parse readFileSync))
                                  passes)
                   ++ final
                 /\ Forall (fun p => snd p <> []) passes
                 /\ finalPart final
                 /\ streamRequests st' = streamRequests st ++ sent
                 /\ length passes <= length sent <= 4
                 /\ (length passes = 4 -> final = [] /\ o = Returned tt)
                 /\ (forall e, o = Threw e -> final = [])
                 /\ 1 <= length sent
                 /\ carriesTranscript
                      (toolResultMessage JSON_parse readFileSync)
                      (chatHistory st) passes sent)).
  { apply endsWith_bind.
    eapply endsWith_pane; [apply createMessageNode_pane|].
    intros a st1 _ H1 R1. cbn beta iota.
    eapply endsWith_weaken; [apply passLoop_ends|].
    intros o st2
      (passes & final & sent & H2 & Hall & Hf & R2 & L & Hb & Ht & Hp & Hc).
    exists passes, final, sent. rewrite H2, H1, R2, R1 in *.
    unfold maxToolPasses in *. repeat split; auto; try lia; try apply Hb; auto. }
  destruct E as (o & st' & E & passes & final & sent & H).
  exists o, st', passes, final, sent. auto.
Qed.

End AnyService.

Lemma returnsWith_tryCatch_ends A (body : M A) handler st
    (B : Outcome A -> ChatTui -> Prop) (Q : A -> ChatTui -> Prop) :
  endsWith body st B ->
  (forall a st', B (Returned a) st' -> Q a st') ->
  (forall e st', B (Threw e) st' -> returnsWith (handler e) st' Q) ->
  returnsWith (tryCatch body handler) st Q.
Proof.
  intros ([a|e] & st' & E & H) Hr Ht; unfold returnsWith, tryCatch; rewrite E.
  - eauto.
  - exact (Ht e st' H).
Qed.

Section AnyServiceTurn.

Variable JSON_parse : jsstring -> option json.
Variable readFileSync : jsstring -> Outcome jsstring.
Variable fetchStream : nat -> list CopilotMessage -> Response.
Variable toLowerCase : jsstring -> jsstring.
Variable basename : jsstring -> jsstring.
Variable chat :
  jsstring -> list CopilotMessage -> Z
  -> Outcome (option (list (option jsstring))).

Lemma streamAssistantResponse_ends st :
  endsWith
    (streamAssistantResponse JSON_parse readFileSync fetchStream
       toLowerCase basename chat) st
    (fun o st' =>
       exists added more,
         chatHistory st' = chatHistory st ++ added
         /\ streamRequests st' = streamRequests st ++ chatHistory st :: more
         /\ length (chatHistory st :: more) <= 4).
Proof.
  unfold streamAssistantResponse. apply endsWith_bind.
  eapply endsWith_pane; [apply createMessageNode_pane|].
  intros a st1 _ H1 R1. cbn beta iota.
  eapply endsWith_weaken; [apply passLoop_ends|].
  intros o st2
    (passes & final & sent & H2 & _ & _ & R2 & L & _ & _ & Hp & Hc).
  unfold maxToolPasses in *.
  destruct sent as [|first more]; [simpl in Hp; lia|].
  pose proof (Hc 0 first eq_refl) as Hf. simpl in Hf.
  rewrite app_nil_r in Hf. subst first.
  eexists _, more. rewrite H2, R2, R1, H1.
  split; [reflexivity|]. split; [reflexivity|]. simpl in *. lia.
Qed.

Lemma sendToAssistant_returns (value : jsstring) (st : ChatTui) :
  returnsWith
    (sendToAssistant JSON_parse readFileSync fetchStream toLowerCase
       basename chat value) st
    (fun _ st' =>
       exists added more,
         isStreaming st' = false
         /\ chatHistory st'
            = chatHistory st ++ mkMessage user value None None None :: added
         /\ streamRequests st'
            = streamRequests st
              ++ (chatHistory st ++ [mkMessage user value None None None])
              :: more
         /\ length more < 4
         /\ (statusLine st' = (lit "Ready", lit "brightBlue")
             \/ (statusLine st'
                 = (lit "Error " ++ [8212%Z] ++ lit " try again?",
                    lit "brightRed")
                 /\ exists ms n e,
                      messages st'
                      = ms ++ [mkRenderable n system (lit "Error: " ++ e)]))).
Proof.
  unfold sendToAssistant.
  apply returnsWith_bind, pushHistory_returns. intros st1 H1 R1 _.
  apply returnsWith_bind. eexists tt, _. split; [reflexivity|].
  apply returnsWith_bind. eexists tt, _. split; [reflexivity|].
  apply returnsWith_bind.
  eapply returnsWith_tryCatch_ends with
    (B := fun (o : Outcome unit) st' =>
            (exists added more,
               chatHistory st' = chatHistory st1 ++ added
               /\ streamRequests st'
                  = streamRequests st1 ++ chatHistory st1 :: more
               /\ length more < 4)
            /\ match o with
               | Returned _ => statusLine st' = (lit "Ready", lit "brightBlue")
               | Threw _ => True
               end).
  - apply endsWith_bind.
    eapply endsWith_weaken; [apply streamAssistantResponse_ends|].
    intros [[]|e] st2 (added & more & H2 & R2 & L); cbn beta iota.
    + eexists (Returned tt), _. split; [reflexivity|].
      cbn [chatHistory streamRequests statusLine length] in *.
      split; [exists added, more; repeat split; auto; lia|reflexivity].
    + cbn [chatHistory streamRequests length] in *.
      split; [exists added, more; repeat split; auto; lia|exact I].
  - intros [] st2 ((added & more & H2 & R2 & L) & Hs).
    eexists tt, _. split; [reflexivity|].
    cbn [chatHistory streamRequests statusLine isStreaming].
    exists added, more. rewrite H2, R2, H1, R1, <- app_assoc. auto 7.
  - intros e st2 ((added & more & H2 & R2 & L) & _).
    apply returnsWith_bind. eexists tt, _. split; [reflexivity|].
    eexists tt, _. split; [reflexivity|].
    eexists tt, _. split; [reflexivity|].
    cbn [chatHistory streamRequests statusLine isStreaming messages].
    exists added, more. rewrite H2, R2, H1, R1, <- app_assoc.
    repeat split; auto. right. split; [reflexivity|]. eauto.
Qed.

(** X9.  [sendToAssistant] never throws, whatever the service does: a
    failure of a stream is caught and shown as a system node [Error: ...],
    with the error status; otherwise the status is [Ready].  Either way
    [isStreaming] is reset, the user's message stays in the transcript,
    first of what the turn added, and the turn has sent its streaming
    requests (the calls of [chatStream]): one at least and four at most,
    the first with the transcript and the user's message.  The requests
    that are not streamed (the summarizer's, and the one of the detached
    title summary, which the model leaves out) are not counted. *)
Theorem sendToAssistant_never_throws :
  forall (value : jsstring) (st : ChatTui),
    exists (st' : ChatTui) (added : list CopilotMessage)
           (more : list (list CopilotMessage)),
      sendToAssistant JSON_parse readFileSync fetchStream toLowerCase
        basename chat value st = (Returned tt, st')
      /\ isStreaming st' = false
      /\ chatHistory st'
         = chatHistory st ++ mkMessage user value None None None :: added
      /\ streamRequests st'
         = streamRequests st
           ++ (chatHistory st ++ [mkMessage user value None None None])
           :: more
      /\ length more < 4
      /\ (statusLine st' = (lit "Ready", lit "brightBlue")
          \/ (statusLine st'
              = (lit "Error " ++ [8212%Z] ++ lit " try again?", lit "brightRed")
              /\ exists ms n e,
                   messages st' = ms ++ [mkRenderable n system (lit "Error: " ++ e)])).
Proof.
  intros value st.
  destruct (sendToAssistant_returns value st)
    as ([] & st' & E & added & more & H).
  exists st', added, more. tauto.
Qed.

End AnyServiceTurn.

(** ** The pane *)

Lemma In_insertAt A (x z : A) i l :
  In z (firstn i l ++ x :: skipn i l) <-> z = x \/ In z l.
Proof.
  rewrite <- (firstn_skipn i l) at 3. rewrite !in_app_iff. simpl.
  intuition congruence.
Qed.

Lemma NoDup_insertAt A (x : A) : forall l i,
  NoDup l -> ~ In x l -> NoDup (firstn i l ++ x :: skipn i l).
Proof.
  induction l as [|y l IH]; intros i Hn Hx.
  - destruct i; simpl; repeat constructor; auto.
  - inversion Hn as [|? ? Hy Hl]; subst. destruct i as [|i]; simpl.
    + constructor; [exact Hx|exact Hn].
    + constructor.
      * rewrite In_insertAt. intros [->|H]; [apply Hx; now left|contradiction].
      * apply IH; [exact Hl|]. intros H. apply Hx. now right.
Qed.

Lemma In_removeAt A (z : A) : forall l i,
  In z (firstn i l ++ skipn (S i) l) -> In z l.
Proof.
  induction l as [|y l IH]; intros i H; [now destruct i|].
  destruct i as [|i]; [now right|].
  change (In z (y :: (firstn i l ++ skipn (S i) l))) in H.
  destruct H as [H|H]; [now left|]. right. exact (IH i H).
Qed.

Lemma NoDup_removeAt A : forall (l : list A) i,
  NoDup l -> NoDup (firstn i l ++ skipn (S i) l).
Proof.
  induction l as [|y l IH]; intros i Hn; [now destruct i|].
  inversion Hn as [|? ? Hy Hl]; subst. destruct i as [|i]; [exact Hl|].
  change (NoDup (y :: (firstn i l ++ skipn (S i) l))).
  constructor; [|now apply IH]. intros H. apply Hy. exact (@In_removeAt _ _ _ _ H).
Qed.

Lemma findIndex_first A (p : A -> bool) x after : forall before,
  (forall m, In m before -> p m = false) -> p x = true ->
  findIndex p (before ++ x :: after) = Some (length before).
Proof.
  induction before as [|y before IH]; intros Hb Hx; simpl.
  - now rewrite Hx.
  - rewrite (Hb y) by now left. rewrite IH; auto. intros m Hm. apply Hb. now right.
Qed.

Lemma findIndex_none A (p : A -> bool) : forall l,
  (forall m, In m l -> p m = false) -> findIndex p l = None.
Proof.
  induction l as [|y l IH]; intros H; [reflexivity|]. simpl.
  rewrite (H y) by now left. rewrite IH; auto. intros m Hm. apply H. now right.
Qed.

Lemma firstn_length_app A (a b : list A) : firstn (length a) (a ++ b) = a.
Proof. rewrite firstn_app, Nat.sub_diag, firstn_all. simpl. apply app_nil_r. Qed.

Lemma skipn_length_app A (a b : list A) : skipn (length a) (a ++ b) = b.
Proof. rewrite skipn_app, Nat.sub_diag, skipn_all. reflexivity. Qed.

(** X10.  [createMessageNode] with an anchor puts the new node right
    before the node of that id, and leaves the others in their order; with
    an anchor that is not in the pane it appends the node, as it does
    without an anchor.  The node gets the id [messageCounter], which goes
    up by one. *)
Theorem createMessageNode_before_anchor :
  forall (r : Role) (text : jsstring) (anchor : nat) (st : ChatTui),
    (forall (before after : list MessageRenderable) (node : MessageRenderable),
       messages st = before ++ node :: after ->
       mr_id node = anchor ->
       (forall m, In m before -> mr_id m <> anchor) ->
       exists st',
         createMessageNode r text (Some anchor) st
         = (Returned (messageCounter st), st')
         /\ messages st'
            = before ++ mkRenderable (messageCounter st) r text :: node :: after
         /\ messageCounter st' = S (messageCounter st))
    /\ ((forall m, In m (messages st) -> mr_id m <> anchor) ->
        exists st',
          createMessageNode r text (Some anchor) st
          = (Returned (messageCounter st), st')
          /\ messages st'
             = messages st ++ [mkRenderable (messageCounter st) r text]
          /\ messages st' = messages (snd (createMessageNode r text None st))).
Proof.
  intros r text anchor st. split.
  - intros before after node Hm Hid Hb.
    eexists. split; [reflexivity|]. cbn [messages messageCounter].
    split; [|reflexivity]. rewrite Hm.
    rewrite (@findIndex_first _ (fun msg => Nat.eqb (mr_id msg) anchor)
               node after before).
    + now rewrite firstn_length_app, skipn_length_app.
    + intros m Hin. apply Nat.eqb_neq. now apply Hb.
    + now apply Nat.eqb_eq.
  - intros Hn. eexists. split; [reflexivity|]. cbn [messages snd].
    rewrite findIndex_none; [auto|].
    intros m Hin. apply Nat.eqb_neq. now apply Hn.
Qed.

Lemma removeMessageNode_at (id : nat) (st : ChatTui)
    (before after : list MessageRenderable) (node : MessageRenderable) :
  messages st = before ++ node :: after ->
  mr_id node = id ->
  (forall m, In m before -> mr_id m <> id) ->
  removeMessageNode id st
  = (Returned tt,
     mkTui (before ++ after) (chatHistory st) (isStreaming st)
           (messageCounter st) (statusLine st) (streamRequests st)).
Proof.
  intros Hm Hid Hb. unfold removeMessageNode, bind, get. rewrite Hm.
  rewrite (@findIndex_first _ (fun msg => Nat.eqb (mr_id msg) id)
             node after before).
  - rewrite firstn_length_app. unfold setMessages, modify. do 3 f_equal.
    clear. induction before as [|y before IH]; [reflexivity|exact IH].
  - intros m Hin. apply Nat.eqb_neq. now apply Hb.
  - now apply Nat.eqb_eq.
Qed.

(** X11.  A node that is created and then removed leaves the pane as it
    was, wherever it had been put, provided the ids of the pane are below
    [messageCounter]: the empty turn of the assistant leaves no node. *)
Theorem createMessageNode_then_remove :
  forall (r : Role) (text : jsstring) (anchor : option nat) (st : ChatTui),
    paneWellFormed st ->
    exists st',
      (id <- createMessageNode r text anchor ;; removeMessageNode id) st
      = (Returned tt, st')
      /\ messages st' = messages st
      /\ messageCounter st' = S (messageCounter st).
Proof.
  intros r text anchor st [_ Hlt].
  assert (Hfresh : forall m, In m (messages st) -> mr_id m <> messageCounter st).
  { intros m Hin. rewrite Forall_forall in Hlt.
    assert (mr_id m < messageCounter st)
      by (apply Hlt; unfold paneIds; now apply in_map).
    lia. }
  unfold bind at 1.
  destruct (createMessageNode r text anchor st) as [o st1] eqn:E.
  unfold createMessageNode in E.
  destruct (match anchor with
            | Some target =>
                findIndex (fun msg => Nat.eqb (mr_id msg) target) (messages st)
            | None => None
            end) as [i|]; injection E as <- <-.
  - rewrite (@removeMessageNode_at _ _ (firstn i (messages st))
               (skipn i (messages st))
               (mkRenderable (messageCounter st) r text)); try reflexivity.
    + eexists. split; [reflexivity|]. cbn [messages messageCounter].
      split; [apply firstn_skipn|reflexivity].
    + intros m Hin. apply Hfresh. rewrite <- (firstn_skipn i (messages st)).
      apply in_or_app. now left.
  - rewrite (@removeMessageNode_at _ _ (messages st) []
               (mkRenderable (messageCounter st) r text)); try reflexivity.
    + eexists. split; [reflexivity|]. cbn [messages messageCounter].
      split; [apply app_nil_r|reflexivity].
    + exact Hfresh.
Qed.

(** ** The pane stays well formed *)

Lemma keeps_ret A (I : ChatTui -> Prop) (a : A) : keeps I (ret a).
Proof. intros st o st' H E. injection E as <- <-. exact H. Qed.

Lemma keeps_throw A (I : ChatTui -> Prop) e : keeps I (@throw A e).
Proof. intros st o st' H E. injection E as <- <-. exact H. Qed.

Lemma keeps_get (I : ChatTui -> Prop) : keeps I get.
Proof. intros st o st' H E. injection E as <- <-. exact H. Qed.

Lemma keeps_bind A B (I : ChatTui -> Prop) (m : M A) (k : A -> M B) :
  keeps I m -> (forall a, keeps I (k a)) -> keeps I (bind m k).
Proof.
  intros Hm Hk st o st' H E. unfold bind in E.
  destruct (m st) as [[a|e] st1] eqn:E1.
  - exact (Hk a st1 o st' (Hm st _ st1 H E1) E).
  - injection E as <- <-. exact (Hm st _ st1 H E1).
Qed.

Lemma keeps_tryCatch A (I : ChatTui -> Prop) (m : M A) (h : jsstring -> M A) :
  keeps I m -> (forall e, keeps I (h e)) -> keeps I (tryCatch m h).
Proof.
  intros Hm Hh st o st' H E. unfold tryCatch in E.
  destruct (m st) as [[a|e] st1] eqn:E1.
  - injection E as <- <-. exact (Hm st _ st1 H E1).
  - exact (Hh e st1 o st' (Hm st _ st1 H E1) E).
Qed.

Lemma keeps_modify (I : ChatTui -> Prop) (f : ChatTui -> ChatTui) :
  (forall st, I st -> I (f st)) -> keeps I (modify f).
Proof. intros Hf st o st' H E. injection E as <- <-. now apply Hf. Qed.

Lemma keeps_pane_frame (f : ChatTui -> ChatTui) :
  (forall st, messages (f st) = messages st
              /\ messageCounter (f st) = messageCounter st) ->
  keeps paneWellFormed (modify f).
Proof.
  intros Hf. apply keeps_modify. intros st H.
  destruct (Hf st) as [Hm Hc]. unfold paneWellFormed, paneIds in *.
  now rewrite Hm, Hc.
Qed.

Lemma keeps_pushHistory m : keeps paneWellFormed (pushHistory m).
Proof. apply keeps_pane_frame. now intros st. Qed.

Lemma keeps_setStatus t c : keeps paneWellFormed (setStatus t c).
Proof. apply keeps_pane_frame. now intros st. Qed.

Lemma keeps_setIsStreaming b : keeps paneWellFormed (setIsStreaming b).
Proof. apply keeps_pane_frame. now intros st. Qed.

Lemma keeps_createMessageNode r text anchor :
  keeps paneWellFormed (createMessageNode r text anchor).
Proof.
  intros st o st' [Hn Hlt] E. unfold createMessageNode in E.
  assert (Hfresh : ~ In (messageCounter st) (paneIds st)).
  { intros Hin. rewrite Forall_forall in Hlt. specialize (Hlt _ Hin). lia. }
  assert (Hlt' : Forall (fun id => id < S (messageCounter st)) (paneIds st)).
  { eapply Forall_impl; [|exact Hlt]. intros; simpl in *; lia. }
  destruct (match anchor with
            | Some target =>
                findIndex (fun msg => Nat.eqb (mr_id msg) target) (messages st)
            | None => None
            end) as [i|]; injection E as <- <-;
    unfold paneWellFormed, paneIds in *; cbn [messages messageCounter].
  - rewrite map_app, map_cons, <- firstn_map, <- skipn_map. cbn [mr_id]. split.
    + now apply NoDup_insertAt.
    + apply Forall_forall. intros z Hz. apply In_insertAt in Hz.
      destruct Hz as [->|Hz]; [lia|].
      rewrite Forall_forall in Hlt'. now apply Hlt'.
  - rewrite map_app. cbn [map mr_id]. split.
    + rewrite <- (firstn_all (map mr_id (messages st))) at 1.
      rewrite <- (skipn_all (map mr_id (messages st))).
      now apply NoDup_insertAt.
    + apply Forall_app. split; [exact Hlt'|]. repeat constructor.
Qed.

Lemma keeps_setMessages_sub (ms : ChatTui -> list MessageRenderable) :
  (forall st, paneWellFormed st ->
     NoDup (map mr_id (ms st))
     /\ forall z, In z (map mr_id (ms st)) -> In z (paneIds st)) ->
  keeps paneWellFormed (st <- get ;; setMessages (ms st)).
Proof.
  intros Hms st o st' H E. injection E as <- <-.
  destruct (Hms st H) as [Hn Hsub]. destruct H as [_ Hlt].
  split; unfold paneIds; cbn [messages messageCounter]; [exact Hn|].
  apply Forall_forall. intros z Hz. rewrite Forall_forall in Hlt.
  apply Hlt. now apply Hsub.
Qed.

Lemma keeps_removeMessageNode id : keeps paneWellFormed (removeMessageNode id).
Proof.
  intros st o st' H E. unfold removeMessageNode, bind, get in E.
  destruct (findIndex (fun msg => Nat.eqb (mr_id msg) id) (messages st))
    as [i|]; [|injection E as <- <-; exact H].
  injection E as <- <-. destruct H as [Hn Hlt].
  unfold paneWellFormed, paneIds in *. cbn [messages messageCounter].
  change (match messages st with [] => [] | _ :: l => skipn i l end)
    with (skipn (S i) (messages st)).
  rewrite map_app, <- firstn_map, <- skipn_map. split.
  - now apply NoDup_removeAt.
  - apply Forall_forall. intros z Hz. rewrite Forall_forall in Hlt.
    apply Hlt. exact (@In_removeAt _ _ _ _ Hz).
Qed.

Lemma setNodeContent_ids id text ms :
  map mr_id
    (map (fun msg => if Nat.eqb (mr_id msg) id
                     then mkRenderable (mr_id msg) (mr_role msg) text
                     else msg) ms)
  = map mr_id ms.
Proof.
  rewrite map_map. apply map_ext. intros m.
  now destruct (Nat.eqb (mr_id m) id).
Qed.

Lemma keeps_setNodeContent id text : keeps paneWellFormed (setNodeContent id text).
Proof.
  intros st o st' H E. injection E as <- <-.
  unfold paneWellFormed, paneIds in *. cbn [messages messageCounter].
  now rewrite setNodeContent_ids.
Qed.

Lemma keeps_addSystemMessage text : keeps paneWellFormed (addSystemMessage text).
Proof.
  apply keeps_bind; [apply keeps_createMessageNode|intros; apply keeps_ret].
Qed.

Create HintDb pane.

#[local] Hint Resolve keeps_ret keeps_throw keeps_get keeps_pushHistory
  keeps_setStatus keeps_setIsStreaming keeps_createMessageNode
  keeps_removeMessageNode keeps_setNodeContent keeps_addSystemMessage
  : pane.

Ltac keeps_pane :=
  repeat first
    [ solve [auto with pane]
    | apply keeps_bind; [|intros ?]
    | apply keeps_tryCatch; [|intros ?]
    | match goal with
      | |- keeps _ (when ?b _) => destruct b; unfold when
      | |- keeps _ (match ?x with _ => _ end) => destruct x
      end ].

Section PaneInvariant.

Variable JSON_parse : jsstring -> option json.
Variable readFileSync : jsstring -> Outcome jsstring.
Variable fetchStream : nat -> list CopilotMessage -> Response.
Variable toLowerCase : jsstring -> jsstring.
Variable basename : jsstring -> jsstring.
Variable chat :
  jsstring -> list CopilotMessage -> Z
  -> Outcome (option (list (option jsstring))).

Lemma keeps_resolveToolCalls anchor : forall toolCalls,
  keeps paneWellFormed
    (resolveToolCalls JSON_parse readFileSync toLowerCase basename chat
       toolCalls anchor).
Proof.
  induction toolCalls as [|toolCall rest IH]; cbn [resolveToolCalls];
    keeps_pane.
Qed.

Lemma keeps_consumeChunk anchor locals chunk :
  keeps paneWellFormed (consumeChunk anchor locals chunk).
Proof. unfold consumeChunk. keeps_pane. Qed.

Lemma keeps_consumeChunks anchor : forall chunks locals,
  keeps paneWellFormed (consumeChunks anchor locals chunks).
Proof.
  induction chunks as [|chunk rest IH]; intros locals; cbn [consumeChunks].
  - apply keeps_ret.
  - apply keeps_bind; [apply keeps_consumeChunk|intros; apply IH].
Qed.

Lemma keeps_streamPass anchor :
  keeps paneWellFormed (streamPass JSON_parse fetchStream anchor).
Proof.
  unfold streamPass. apply keeps_bind; [apply keeps_get|intros st0].
  apply keeps_bind; [apply keeps_pane_frame; now intros st|intros _].
  destruct (chatStream JSON_parse _) as [events outcome].
  apply keeps_bind; [apply keeps_consumeChunks|intros locals].
  destruct outcome; keeps_pane.
Qed.

Lemma keeps_passLoop : forall remaining anchor,
  keeps paneWellFormed
    (passLoop JSON_parse readFileSync fetchStream toLowerCase basename chat
       remaining anchor).
Proof.
  induction remaining as [|remaining IH]; intros anchor; cbn [passLoop].
  - apply keeps_addSystemMessage.
  - apply keeps_bind; [apply keeps_streamPass|intros locals].
    destruct (Nat.eqb (length (pendingToolCalls locals)) 0).
    + keeps_pane.
    + apply keeps_bind; [apply keeps_pushHistory|intros _].
      apply keeps_bind; [apply keeps_resolveToolCalls|intros _].
      apply keeps_bind; [keeps_pane|intros _].
      apply keeps_bind; [keeps_pane|intros _].
      apply keeps_bind; [apply keeps_createMessageNode|intros id]. apply IH.
Qed.

(** X12.  A turn keeps the pane well formed: however the service answers
    and whether the turn fails or not, the nodes of the pane keep distinct
    ids, all of them below [messageCounter], so that [removeMessageNode]
    and [setNodeContent] address one node at most. *)
Theorem sendToAssistant_keeps_pane :
  forall (value : jsstring) (st st' : ChatTui) (o : Outcome unit),
    paneWellFormed st ->
    sendToAssistant JSON_parse readFileSync fetchStream toLowerCase basename
      chat value st = (o, st') ->
    paneWellFormed st'.
Proof.
  intros value st st' o H E. revert st o st' H E.
  change (keeps paneWellFormed
            (sendToAssistant JSON_parse readFileSync fetchStream toLowerCase
               basename chat value)).
  unfold sendToAssistant, streamAssistantResponse.
  apply keeps_bind; [apply keeps_pushHistory|intros _].
  apply keeps_bind; [apply keeps_setStatus|intros _].
  apply keeps_bind; [apply keeps_setIsStreaming|intros _].
  apply keeps_bind; [|intros _; apply keeps_setIsStreaming].
  apply keeps_tryCatch.
  - apply keeps_bind; [|intros _; apply keeps_setStatus].
    apply keeps_bind; [apply keeps_createMessageNode|intros id].
    apply keeps_passLoop.
  - intros e. apply keeps_bind; [apply keeps_addSystemMessage|intros _].
    apply keeps_setStatus.
Qed.

End PaneInvariant.

(** ** The further properties on sample runs *)

Lemma chatStream_ignores_unframed_line_witness :
  completeLines (bytewise commentedBody)
  = [aLine] ++ lit ": keep-alive" :: [bLine]
  /\ startsWith (lit ": keep-alive") (lit "data: ") = false
  /\ completeLines [plainBody] = [aLine] ++ [bLine]
  /\ chatStream parseJSON (FetchBody (bytewise commentedBody) None)
     = chatStream parseJSON (FetchBody [plainBody] None).
Proof.
  assert (H1 : completeLines (bytewise commentedBody)
               = [aLine] ++ lit ": keep-alive" :: [bLine])
    by (vm_compute; reflexivity).
  assert (H2 : startsWith (lit ": keep-alive") (lit "data: ") = false)
    by reflexivity.
  assert (H3 : completeLines [plainBody] = [aLine] ++ [bLine])
    by (vm_compute; reflexivity).
  split; [exact H1|]. split; [exact H2|]. split; [exact H3|].
  exact (proj2 (@chatStream_ignores_unframed_line parseJSON
                  (bytewise commentedBody) None [aLine] [bLine]
                  (lit ": keep-alive") H1 H2) [plainBody] H3).
Defined.

Lemma read_file_without_path_witness :
  jseqb (fn_name (tc_function truncatedCall)) (lit "read_file") = true
  /\ parseJSON (orElse (Some (fn_arguments (tc_function truncatedCall)))
                       (lit "{}")) = None
  /\ content (toolResultMessage parseJSON sampleFiles truncatedCall)
     = lit "Error reading file: read_file requires a valid path argument".
Proof.
  assert (H1 : jseqb (fn_name (tc_function truncatedCall)) (lit "read_file")
               = true) by reflexivity.
  assert (H2 : parseJSON (orElse (Some (fn_arguments (tc_function truncatedCall)))
                                 (lit "{}")) = None)
    by (vm_compute; reflexivity).
  split; [exact H1|]. split; [exact H2|].
  exact (@read_file_without_path parseJSON sampleFiles truncatedCall H1
           (or_introl H2)).
Defined.

Lemma describeToolCalls_lists_once_witness :
  existsb (fun call => jseqb (fn_name (tc_function truncatedCall))
                             (fn_name (tc_function call)))
          [truncatedCall] = true
  /\ describeToolCalls ([truncatedCall] ++ [truncatedCall])
     = describeToolCalls [truncatedCall].
Proof.
  assert (H : existsb (fun call => jseqb (fn_name (tc_function truncatedCall))
                                         (fn_name (tc_function call)))
                      [truncatedCall] = true) by reflexivity.
  split; [exact H|].
  exact (@describeToolCalls_lists_once [truncatedCall] truncatedCall
           (or_intror H)).
Defined.

Lemma summarizeWithCopilot_result_witness :
  sampleChat SUMMARIZER_MODEL_ID
    [ mkMessage system (lit "Summarize.") None None None;
      mkMessage user (firstn SUMMARY_INPUT_LIMIT (lit "some output"))
                None None None ] 80%Z
  = Threw (lit "fetch failed")
  /\ summarizeWithCopilot sampleChat (lit "some output") (lit "Summarize.") 80%Z
     = None.
Proof.
  assert (H : sampleChat SUMMARIZER_MODEL_ID
                [ mkMessage system (lit "Summarize.") None None None;
                  mkMessage user (firstn SUMMARY_INPUT_LIMIT (lit "some output"))
                            None None None ] 80%Z
              = Threw (lit "fetch failed")) by reflexivity.
  split; [exact H|].
  exact (proj2 (proj2 (@summarizeWithCopilot_result sampleChat
                         (lit "some output") (lit "Summarize.") 80%Z))
           (ex_intro _ (lit "fetch failed") H)).
Defined.

Lemma describeToolResult_without_summary_witness :
  startsWith (sampleLower (trimStart (replaceCRLF (lit "  Error: no such file"))))
             (lit "error") = true
  /\ describeToolResult sampleLower sampleBasename sampleChat
       (lit "read_file") (JObject []) (lit "  Error: no such file")
     = describeToolResult sampleLower sampleBasename talkativeChat
         (lit "read_file") (JObject []) (lit "  Error: no such file").
Proof.
  assert (H : startsWith
                (sampleLower (trimStart (replaceCRLF (lit "  Error: no such file"))))
                (lit "error") = true) by reflexivity.
  split; [exact H|].
  exact (@describeToolResult_without_summary sampleLower sampleBasename
           sampleChat talkativeChat (lit "read_file") (JObject [])
           (lit "  Error: no such file") (or_introl H)).
Defined.

Lemma summarizePreview_bounds_witness :
  1 <= 2
  /\ length (split_newline
               (summarizePreview (lit "a" ++ 10%Z :: lit "b " ++ 10%Z :: lit "c") 2))
     <= 2
  /\ (summarizePreview (lit "a" ++ 10%Z :: lit "b " ++ 10%Z :: lit "c") 2 = []
      \/ isWhiteSpace
           (last (summarizePreview (lit "a" ++ 10%Z :: lit "b " ++ 10%Z :: lit "c") 2)
                 0%Z) = false)
  /\ summarizePreview [] 2 = [].
Proof.
  assert (H : 1 <= 2) by lia.
  split; [exact H|].
  exact (@summarizePreview_bounds (lit "a" ++ 10%Z :: lit "b " ++ 10%Z :: lit "c")
           2 H).
Defined.

Lemma createMessageNode_before_anchor_witness :
  messages samplePane
  = [mkRenderable 0 user (lit "hi")] ++ mkRenderable 1 assistant []
    :: [mkRenderable 2 system (lit "note")]
  /\ (forall m, In m [mkRenderable 0 user (lit "hi")] -> mr_id m <> 1)
  /\ exists st',
       createMessageNode function (lit "read_file a.txt") (Some 1) samplePane
       = (Returned 3, st')
       /\ messages st'
          = [mkRenderable 0 user (lit "hi")]
            ++ mkRenderable 3 function (lit "read_file a.txt")
            :: mkRenderable 1 assistant []
            :: [mkRenderable 2 system (lit "note")]
       /\ messageCounter st' = 4.
Proof.
  assert (H1 : messages samplePane
               = [mkRenderable 0 user (lit "hi")] ++ mkRenderable 1 assistant []
                 :: [mkRenderable 2 system (lit "note")]) by reflexivity.
  assert (H2 : forall m, In m [mkRenderable 0 user (lit "hi")] -> mr_id m <> 1).
  { intros m [<-|[]]. simpl. lia. }
  split; [exact H1|]. split; [exact H2|].
  exact (proj1 (@createMessageNode_before_anchor function
                  (lit "read_file a.txt") 1 samplePane)
           [mkRenderable 0 user (lit "hi")]
           [mkRenderable 2 system (lit "note")]
           (mkRenderable 1 assistant []) H1 eq_refl H2).
Defined.

Lemma samplePane_wellFormed : paneWellFormed samplePane.
Proof.
  split; unfold paneIds; simpl.
  - repeat constructor; simpl; lia.
  - repeat constructor; simpl; lia.
Defined.

Lemma createMessageNode_then_remove_witness :
  paneWellFormed samplePane
  /\ exists st',
       (id <- createMessageNode function (lit "running read_file") (Some 1) ;;
        removeMessageNode id) samplePane
       = (Returned tt, st')
       /\ messages st' = messages samplePane
       /\ messageCounter st' = S (messageCounter samplePane).
Proof.
  split; [exact samplePane_wellFormed|].
  exact (@createMessageNode_then_remove function (lit "running read_file")
           (Some 1) samplePane samplePane_wellFormed).
Defined.

Lemma sendToAssistant_keeps_pane_witness :
  paneWellFormed samplePane
  /\ paneWellFormed
       (snd (sendToAssistant parseJSON sampleFiles helpfulService sampleLower
               sampleBasename sampleChat (lit "what's in a.txt") samplePane)).
Proof.
  split; [exact samplePane_wellFormed|].
  exact (@sendToAssistant_keeps_pane parseJSON sampleFiles helpfulService
           sampleLower sampleBasename sampleChat (lit "what's in a.txt")
           samplePane
           (snd (sendToAssistant parseJSON sampleFiles helpfulService
                   sampleLower sampleBasename sampleChat
                   (lit "what's in a.txt") samplePane))
           (fst (sendToAssistant parseJSON sampleFiles helpfulService
                   sampleLower sampleBasename sampleChat
                   (lit "what's in a.txt") samplePane))
           samplePane_wellFormed
           (surjective_pairing _)).
Defined.

(** ** The command assistant *)

Lemma indexOf_first c pre rest :
  (forall d, In d pre -> d <> c) ->
  indexOf c (pre ++ c :: rest) = Some (length pre).
Proof.
  intros H. unfold indexOf. apply findIndex_first.
  - intros d Hd. apply Z.eqb_neq. now apply H.
  - apply Z.eqb_refl.
Qed.

Lemma indexOf_none c s :
  (forall d, In d s -> d <> c) -> indexOf c s = None.
Proof.
  intros H. unfold indexOf. apply findIndex_none.
  intros d Hd. apply Z.eqb_neq. now apply H.
Qed.

Lemma lastIndexOf_none c : forall s,
  (forall d, In d s -> d <> c) -> lastIndexOf c s = None.
Proof.
  induction s as [|d s IH]; intros H; [reflexivity|]. simpl.
  rewrite IH by (intros e He; apply H; now right).
  destruct (Z.eqb_spec d c) as [E|_]; [|reflexivity].
  exfalso. apply (H d); [now left|exact E].
Qed.

Lemma lastIndexOf_last c post : forall before,
  (forall d, In d post -> d <> c) ->
  lastIndexOf c (before ++ c :: post) = Some (length before).
Proof.
  induction before as [|d before IH]; intros H; simpl.
  - now rewrite (@lastIndexOf_none c post H), Z.eqb_refl.
  - now rewrite IH.
Qed.

(** X13.  [extractJson] reads what lies between the first opening brace
    and the last closing brace, both included, and nothing else: the text
    around them is ignored.  A content without an opening brace, or
    without a closing one, gives [null] and is not parsed. *)
Theorem extractJson_between_braces :
  forall (JSON_parse : jsstring -> option json) (pre mid post content : jsstring),
    ((forall d, In d pre -> d <> 123%Z) ->
     (forall d, In d post -> d <> 125%Z) ->
     extractJson JSON_parse (pre ++ 123%Z :: mid ++ 125%Z :: post)
     = JSON_parse (123%Z :: mid ++ [125%Z]))
    /\ ((forall d, In d content -> d <> 123%Z)
        \/ (forall d, In d content -> d <> 125%Z) ->
        extractJson JSON_parse content = None).
Proof.
  intros JSON_parse pre mid post content. split.
  - intros Hpre Hpost. unfold extractJson.
    rewrite (@indexOf_first 123%Z pre (mid ++ 125%Z :: post) Hpre).
    change (pre ++ 123%Z :: mid ++ 125%Z :: post)
      with (pre ++ (123%Z :: mid) ++ 125%Z :: post).
    rewrite app_assoc, (@lastIndexOf_last 125%Z post (pre ++ 123%Z :: mid) Hpost).
    rewrite length_app. cbn [length].
    replace (Nat.leb (length pre + S (length mid)) (length pre)) with false
      by (symmetry; apply Nat.leb_gt; lia).
    unfold sliceBetween. rewrite <- app_assoc, skipn_length_app.
    replace (length pre + S (length mid) + 1 - length pre)
      with (length (123%Z :: mid ++ [125%Z]))
      by (cbn [length]; rewrite length_app; simpl; lia).
    change ((123%Z :: mid) ++ 125%Z :: post)
      with (123%Z :: mid ++ [125%Z] ++ post).
    rewrite app_assoc.
    change (123%Z :: (mid ++ [125%Z]) ++ post)
      with ((123%Z :: mid ++ [125%Z]) ++ post).
    now rewrite firstn_length_app.
  - intros [H|H]; unfold extractJson.
    + now rewrite (@indexOf_none 123%Z content H).
    + rewrite (@lastIndexOf_none 125%Z content H). now destruct (indexOf 123 content).
Qed.

Lemma trimmedField_trimmed key value s :
  trimmedField key value = Some s -> trim s = s.
Proof.
  unfold trimmedField. destruct (getProp key value) as [[]|]; try discriminate.
  intros E. injection E as <-. apply trim_idem.
Qed.

(** X14.  A proposal that [parseProposal] returns has a command that is
    not empty and has no white space at either end; its explanation and
    its summary, when present, are trimmed too; and nothing was written
    to the error stream.  When it returns [null] it has written one line
    at most. *)
Theorem parseProposal_command :
  forall (JSON_parse : jsstring -> option json)
         (truthyNumber : jsstring -> bool) (content : jsstring)
         (logged : list jsstring) (result : option CommandProposal),
    parseProposal JSON_parse truthyNumber content = (logged, result) ->
    match result with
    | Some proposal =>
        logged = []
        /\ isEmpty (cp_command proposal) = false
        /\ trim (cp_command proposal) = cp_command proposal
        /\ (forall e, cp_explanation proposal = Some e -> trim e = e)
        /\ (forall s, cp_summary proposal = Some s -> trim s = s)
    | None => length logged <= 1
    end.
Proof.
  intros JSON_parse truthyNumber content logged result. unfold parseProposal.
  destruct (extractJson JSON_parse content) as [value|];
    [|intros E; injection E as <- <-; simpl; lia].
  destruct (truthy truthyNumber value); cbn [negb];
    [|intros E; injection E as <- <-; simpl; lia].
  destruct (trimmedField (lit "command") value) as [s|] eqn:Ec;
    [|intros E; injection E as <- <-; simpl; lia].
  destruct (isEmpty s) eqn:Es; intros E; injection E as <- <-; [simpl; lia|].
  cbn [cp_command cp_explanation cp_summary].
  split; [reflexivity|]. split; [exact Es|].
  split; [exact (@trimmedField_trimmed _ _ _ Ec)|].
  split; intros t Ht; exact (@trimmedField_trimmed _ _ _ Ht).
Qed.

Section ShortestPrefix.

Variable JSON_parse : jsstring -> option json.
Variable truthyNumber : jsstring -> bool.




End ShortestPrefix.

Lemma forallb_not_In c s :
  forallb (fun d => negb (d =? c)%Z) s = true ->
  forall d, In d s -> d <> c.
Proof.
  intros H d Hd. rewrite forallb_forall in H. specialize (H d Hd).
  apply Z.eqb_neq. now destruct (d =? c)%Z.
Qed.

Lemma extractJson_between_braces_witness :
  (forall d, In d (lit "Sure: ") -> d <> 123%Z)
  /\ (forall d, In d (lit " ok") -> d <> 125%Z)
  /\ extractJson parseJSON
       (lit "Sure: " ++ 123%Z :: litq "'command':'ls'" ++ 125%Z :: lit " ok")
     = parseJSON (123%Z :: litq "'command':'ls'" ++ [125%Z])
  /\ (forall d, In d (lit "no command") -> d <> 123%Z)
  /\ extractJson parseJSON (lit "no command") = None.
Proof.
  assert (H1 : forall d, In d (lit "Sure: ") -> d <> 123%Z)
    by (apply forallb_not_In; reflexivity).
  assert (H2 : forall d, In d (lit " ok") -> d <> 125%Z)
    by (apply forallb_not_In; reflexivity).
  assert (H3 : forall d, In d (lit "no command") -> d <> 123%Z)
    by (apply forallb_not_In; reflexivity).
  split; [exact H1|]. split; [exact H2|].
  split; [|split; [exact H3|]].
  - exact (proj1 (@extractJson_between_braces parseJSON (lit "Sure: ")
                    (litq "'command':'ls'") (lit " ok") (lit "no command"))
             H1 H2).
  - exact (proj2 (@extractJson_between_braces parseJSON (lit "Sure: ")
                    (litq "'command':'ls'") (lit " ok") (lit "no command"))
             (or_introl H3)).
Defined.

Lemma parseProposal_command_witness :
  parseProposal parseJSON anyNumber
    (litq "Run {'command':' ls -la ','explanation':' lists files '}")
  = ([], Some (mkProposal (lit "ls -la") (Some (lit "lists files")) None))
  /\ isEmpty (lit "ls -la") = false
  /\ trim (lit "ls -la") = lit "ls -la".
Proof.
  assert (H : parseProposal parseJSON anyNumber
                (litq "Run {'command':' ls -la ','explanation':' lists files '}")
              = ([], Some (mkProposal (lit "ls -la") (Some (lit "lists files"))
                                      None)))
    by (vm_compute; reflexivity).
  split; [exact H|].
  pose proof (@parseProposal_command parseJSON anyNumber _ _ _ H) as P.
  cbn [cp_command] in P.
  exact (conj (proj1 (proj2 P)) (proj1 (proj2 (proj2 P)))).
Defined.


(** ** Submissions and commands *)

Lemma keeps_quiet_frame origin (f : ChatTui -> ChatTui) :
  (forall st, chatHistory (f st) = chatHistory st
              /\ streamRequests (f st) = streamRequests st
              /\ isStreaming (f st) = isStreaming st) ->
  keeps (quiet origin) (modify f).
Proof.
  intros Hf. apply keeps_modify. intros st (R & H & S).
  destruct (Hf st) as (H' & R' & S'). unfold quiet. rewrite H', R', S'. auto.
Qed.

Lemma keeps_quiet_create origin r text anchor :
  keeps (quiet origin) (createMessageNode r text anchor).
Proof. intros st o st' H E. injection E as <- <-. exact H. Qed.

Lemma keeps_quiet_addSystemMessage origin text :
  keeps (quiet origin) (addSystemMessage text).
Proof.
  apply keeps_bind; [apply keeps_quiet_create|intros; apply keeps_ret].
Qed.

Lemma keeps_quiet_runCommand origin command :
  keeps (quiet origin) (runCommand command).
Proof.
  destruct command; cbn [runCommand].
  - apply keeps_bind; [apply keeps_quiet_addSystemMessage|intros; apply keeps_ret].
  - apply keeps_bind; [apply keeps_quiet_frame; now intros st|intros _].
    apply keeps_bind.
    + apply keeps_modify. intros st (R & _ & S). unfold quiet. cbn. auto.
    + intros _. apply keeps_bind;
        [apply keeps_quiet_addSystemMessage|intros; apply keeps_ret].
  - apply keeps_bind; [apply keeps_get|intros st0].
    destruct (Nat.eqb (length (chatHistory st0)) 0);
      (apply keeps_bind;
       [apply keeps_quiet_addSystemMessage|intros; apply keeps_ret]).
  - apply keeps_bind; [apply keeps_quiet_addSystemMessage|intros; apply keeps_ret].
  - apply keeps_bind; [apply keeps_quiet_addSystemMessage|intros; apply keeps_ret].
Qed.

Lemma runCommand_returns command st :
  exists exits st', runCommand command st = (Returned exits, st').
Proof.
  destruct command; cbn [runCommand]; try (eexists _, _; reflexivity).
  unfold bind at 1, get.
  destruct (Nat.eqb (length (chatHistory st)) 0); eexists _, _; reflexivity.
Qed.

Section SubmissionFacts.

Variable JSON_parse : jsstring -> option json.
Variable readFileSync : jsstring -> Outcome jsstring.
Variable fetchStream : nat -> list CopilotMessage -> Response.
Variable toLowerCase : jsstring -> jsstring.
Variable basename : jsstring -> jsstring.
Variable chat :
  jsstring -> list CopilotMessage -> Z
  -> Outcome (option (list (option jsstring))).
Variable inheritedCommand : jsstring -> option (Outcome unit).

Lemma keeps_quiet_handleCommand origin input :
  keeps (quiet origin) (handleCommand toLowerCase inheritedCommand input).
Proof.
  unfold handleCommand.
  destruct (ownCommand _); [apply keeps_quiet_runCommand|].
  destruct (inheritedCommand _) as [[|]|].
  - apply keeps_ret.
  - apply keeps_throw.
  - apply keeps_bind; [apply keeps_quiet_addSystemMessage|intros; apply keeps_ret].
Qed.

(** The branches of [handleSubmission], one after the other. *)
Lemma handleSubmission_branches rawValue st :
  handleSubmission JSON_parse readFileSync fetchStream toLowerCase basename
    chat inheritedCommand rawValue st
  = if isEmpty (trim rawValue) then
      (Returned false,
       snd (setStatus (lit "Nothing to send " ++ 8212%Z :: lit " type a message.")
                      (lit "brightBlack") st))
    else if isStreaming st then
      (Returned false,
       snd (addSystemMessage
              (lit "Hold on " ++ 8212%Z :: lit " response is still streaming.")
              st))
    else if jseqb (toLowerCase (trim rawValue)) (lit "exit") then
      (Returned true,
       snd (addSystemMessage
              (lit "Shutting down " ++ 8212%Z :: lit " see you next time.") st))
    else if startsWith (trim rawValue) (lit "/") then
      handleCommand toLowerCase inheritedCommand (trim rawValue)
        (snd (createMessageNode user (trim rawValue) None st))
    else
      (sendToAssistant JSON_parse readFileSync fetchStream toLowerCase
         basename chat (trim rawValue) ;;; ret false)
        (snd (createMessageNode user (trim rawValue) None st)).
Proof.
  unfold handleSubmission.
  destruct (isEmpty (trim rawValue)); [reflexivity|].
  unfold bind at 1, get.
  destruct (isStreaming st); [reflexivity|].
  unfold bind at 1, echoUserInput.
  destruct (jseqb (toLowerCase (trim rawValue)) (lit "exit")); [reflexivity|].
  unfold bind at 1. cbn [createMessageNode ret fst snd negb].
  destruct (startsWith (trim rawValue) (lit "/")); reflexivity.
Qed.

(** X16.  A submission that is blank, or arrives while a response is
    streaming, or is [exit] in any letter case, or starts with a slash,
    sends no request: the request log and [isStreaming] are as before,
    and the transcript is as before or, after [/clear], empty. *)
Theorem handleSubmission_sends_nothing :
  forall (rawValue : jsstring) (st st' : ChatTui) (o : Outcome bool),
    handleSubmission JSON_parse readFileSync fetchStream toLowerCase basename
      chat inheritedCommand rawValue st = (o, st') ->
    isEmpty (trim rawValue) = true
    \/ isStreaming st = true
    \/ jseqb (toLowerCase (trim rawValue)) (lit "exit") = true
    \/ startsWith (trim rawValue) (lit "/") = true ->
    streamRequests st' = streamRequests st
    /\ (chatHistory st' = chatHistory st \/ chatHistory st' = [])
    /\ isStreaming st' = isStreaming st.
Proof.
  intros rawValue st st' o E C. rewrite handleSubmission_branches in E.
  change (quiet st st').
  destruct (isEmpty (trim rawValue));
    [injection E as <- <-; unfold quiet; cbn; auto|].
  destruct (isStreaming st) eqn:Es;
    [injection E as <- <-; unfold quiet; cbn; auto|].
  destruct (jseqb (toLowerCase (trim rawValue)) (lit "exit"));
    [injection E as <- <-; unfold quiet; cbn; auto|].
  destruct (startsWith (trim rawValue) (lit "/")).
  - eapply keeps_quiet_handleCommand; [|exact E]. unfold quiet. cbn. auto.
  - destruct C as [C|[C|[C|C]]]; discriminate C.
Qed.

(** X17.  While a response is streaming, every submission that is not
    blank is refused, [exit] and the commands too: the pane gains the
    system node [Hold on ...] and nothing else changes; the exit timer is
    not set. *)
Theorem handleSubmission_while_streaming :
  forall (rawValue : jsstring) (st : ChatTui),
    isEmpty (trim rawValue) = false ->
    isStreaming st = true ->
    handleSubmission JSON_parse readFileSync fetchStream toLowerCase basename
      chat inheritedCommand rawValue st
    = (Returned false,
       mkTui (messages st
              ++ [mkRenderable (messageCounter st) system
                    (lit "Hold on " ++ 8212%Z
                     :: lit " response is still streaming.")])
             (chatHistory st) true (S (messageCounter st)) (statusLine st)
             (streamRequests st)).
Proof.
  intros rawValue st Hv Hs. rewrite handleSubmission_branches, Hv, Hs.
  cbn. now rewrite Hs.
Qed.

(** X18.  [/clear], in any letter case and whatever follows the word,
    empties the pane and the transcript: the node of the input just
    echoed goes too, the pane is left with the one system node
    [Conversation cleared.], and [messageCounter] is not reset. *)
Theorem handleSubmission_clear :
  forall (rawValue : jsstring) (st : ChatTui),
    isStreaming st = false ->
    startsWith (trim rawValue) (lit "/") = true ->
    jseqb (toLowerCase (trim rawValue)) (lit "exit") = false ->
    toLowerCase (firstWord (trim (slice 1 (trim rawValue)))) = lit "clear" ->
    handleSubmission JSON_parse readFileSync fetchStream toLowerCase basename
      chat inheritedCommand rawValue st
    = (Returned false,
       mkTui [mkRenderable (S (messageCounter st)) system
                (lit "Conversation cleared.")]
             [] false (S (S (messageCounter st))) (statusLine st)
             (streamRequests st)).
Proof.
  intros rawValue st Hs Hv Hx Hc. rewrite handleSubmission_branches.
  assert (He : isEmpty (trim rawValue) = false)
    by (destruct (trim rawValue); [discriminate Hv|reflexivity]).
  rewrite He, Hs, Hx, Hv. unfold handleCommand. rewrite Hc.
  cbn. now rewrite Hs.
Qed.

(** X19.  A submission that is not blank, not [exit], has no slash in
    front and comes when nothing is streaming is sent to the assistant
    with its surrounding white space removed: [handleSubmission] returns,
    whatever the service does, without setting the exit timer, with
    [isStreaming] reset and the trimmed text as a user message in the
    transcript; a streaming request has gone to the service with the
    transcript and that message, followed by three more at most.  The
    requests that are not streamed (summarizer, title) are not counted. *)
Theorem handleSubmission_message :
  forall (rawValue : jsstring) (st : ChatTui),
    isEmpty (trim rawValue) = false ->
    isStreaming st = false ->
    jseqb (toLowerCase (trim rawValue)) (lit "exit") = false ->
    startsWith (trim rawValue) (lit "/") = false ->
    exists (st' : ChatTui) (added : list CopilotMessage)
           (more : list (list CopilotMessage)),
      handleSubmission JSON_parse readFileSync fetchStream toLowerCase
        basename chat inheritedCommand rawValue st = (Returned false, st')
      /\ isStreaming st' = false
      /\ chatHistory st'
         = chatHistory st
           ++ mkMessage user (trim rawValue) None None None :: added
      /\ streamRequests st'
         = streamRequests st
           ++ (chatHistory st
               ++ [mkMessage user (trim rawValue) None None None])
           :: more
      /\ length more < 4.
Proof.
  intros rawValue st He Hs Hx Hv.
  rewrite handleSubmission_branches, He, Hs, Hx, Hv.
  destruct (sendToAssistant_returns JSON_parse readFileSync fetchStream
              toLowerCase basename chat (trim rawValue)
              (snd (createMessageNode user (trim rawValue) None st)))
    as ([] & st' & E & added & more & S' & H' & R' & L & _).
  exists st', added, more. unfold bind. rewrite E. cbn [ret].
  cbn [createMessageNode snd chatHistory streamRequests] in H', R'. auto.
Qed.

(** X20.  [handleSubmission] throws in one case only: a command whose
    name is not a key of [commands] but a property of [Object.prototype]
    that throws when it is called.  Every other submission returns. *)
Theorem handleSubmission_throws_only_inherited :
  forall (rawValue : jsstring) (st st' : ChatTui) (e : jsstring),
    handleSubmission JSON_parse readFileSync fetchStream toLowerCase basename
      chat inheritedCommand rawValue st = (Threw e, st') ->
    startsWith (trim rawValue) (lit "/") = true
    /\ ownCommand (toLowerCase (firstWord (trim (slice 1 (trim rawValue)))))
       = None
    /\ inheritedCommand
         (toLowerCase (firstWord (trim (slice 1 (trim rawValue)))))
       = Some (Threw e).
Proof.
  intros rawValue st st' e E. rewrite handleSubmission_branches in E.
  destruct (isEmpty (trim rawValue)); [discriminate E|].
  destruct (isStreaming st); [discriminate E|].
  destruct (jseqb (toLowerCase (trim rawValue)) (lit "exit")); [discriminate E|].
  destruct (startsWith (trim rawValue) (lit "/")).
  - split; [reflexivity|]. unfold handleCommand in E.
    destruct (ownCommand _) as [command|].
    + destruct (runCommand_returns command
                  (snd (createMessageNode user (trim rawValue) None st)))
        as (exits & st1 & E1).
      rewrite E1 in E. discriminate E.
    + split; [reflexivity|].
      destruct (inheritedCommand _) as [[|m]|]; try discriminate E.
      injection E as <- _. reflexivity.
  - destruct (sendToAssistant_returns JSON_parse readFileSync fetchStream
                toLowerCase basename chat (trim rawValue)
                (snd (createMessageNode user (trim rawValue) None st)))
      as ([] & st1 & E1 & _).
    unfold bind in E. rewrite E1 in E. discriminate E.
Qed.

End SubmissionFacts.

Lemma handleSubmission_sends_nothing_witness :
  startsWith (trim (lit " /history ")) (lit "/") = true
  /\ streamRequests (snd (sampleSubmission (lit " /history ") restingState))
     = streamRequests restingState
  /\ (chatHistory (snd (sampleSubmission (lit " /history ") restingState))
      = chatHistory restingState
      \/ chatHistory (snd (sampleSubmission (lit " /history ") restingState))
         = [])
  /\ isStreaming (snd (sampleSubmission (lit " /history ") restingState))
     = isStreaming restingState.
Proof.
  assert (H : startsWith (trim (lit " /history ")) (lit "/") = true)
    by reflexivity.
  split; [exact H|].
  exact (@handleSubmission_sends_nothing parseJSON sampleFiles helpfulService
           sampleLower sampleBasename sampleChat sampleInherited
           (lit " /history ") restingState
           (snd (sampleSubmission (lit " /history ") restingState))
           (fst (sampleSubmission (lit " /history ") restingState))
           (surjective_pairing _)
           (or_intror (or_intror (or_intror H)))).
Defined.

Lemma handleSubmission_while_streaming_witness :
  isEmpty (trim (lit "exit")) = false
  /\ isStreaming askedState = true
  /\ sampleSubmission (lit "exit") askedState
     = (Returned false,
        mkTui (messages askedState
               ++ [mkRenderable (messageCounter askedState) system
                     (lit "Hold on " ++ 8212%Z
                      :: lit " response is still streaming.")])
              (chatHistory askedState) true (S (messageCounter askedState))
              (statusLine askedState) (streamRequests askedState)).
Proof.
  assert (H1 : isEmpty (trim (lit "exit")) = false) by reflexivity.
  assert (H2 : isStreaming askedState = true) by reflexivity.
  split; [exact H1|]. split; [exact H2|].
  exact (@handleSubmission_while_streaming parseJSON sampleFiles
           helpfulService sampleLower sampleBasename sampleChat
           sampleInherited (lit "exit") askedState H1 H2).
Defined.

Lemma handleSubmission_clear_witness :
  isStreaming restingState = false
  /\ startsWith (trim (lit "  /Clear now ")) (lit "/") = true
  /\ jseqb (sampleLower (trim (lit "  /Clear now "))) (lit "exit") = false
  /\ sampleLower (firstWord (trim (slice 1 (trim (lit "  /Clear now ")))))
     = lit "clear"
  /\ sampleSubmission (lit "  /Clear now ") restingState
     = (Returned false,
        mkTui [mkRenderable 4 system (lit "Conversation cleared.")]
              [] false 5 (statusLine restingState)
              (streamRequests restingState)).
Proof.
  assert (H1 : isStreaming restingState = false) by reflexivity.
  assert (H2 : startsWith (trim (lit "  /Clear now ")) (lit "/") = true)
    by reflexivity.
  assert (H3 : jseqb (sampleLower (trim (lit "  /Clear now "))) (lit "exit")
               = false) by reflexivity.
  assert (H4 : sampleLower
                 (firstWord (trim (slice 1 (trim (lit "  /Clear now ")))))
               = lit "clear") by reflexivity.
  split; [exact H1|]. split; [exact H2|]. split; [exact H3|].
  split; [exact H4|].
  exact (@handleSubmission_clear parseJSON sampleFiles helpfulService
           sampleLower sampleBasename sampleChat sampleInherited
           (lit "  /Clear now ") restingState H1 H2 H3 H4).
Defined.

Lemma handleSubmission_message_witness :
  isEmpty (trim (lit " what's in a.txt ")) = false
  /\ isStreaming restingState = false
  /\ jseqb (sampleLower (trim (lit " what's in a.txt "))) (lit "exit") = false
  /\ startsWith (trim (lit " what's in a.txt ")) (lit "/") = false
  /\ exists (st' : ChatTui) (added : list CopilotMessage)
            (more : list (list CopilotMessage)),
       sampleSubmission (lit " what's in a.txt ") restingState
       = (Returned false, st')
       /\ isStreaming st' = false
       /\ chatHistory st'
          = chatHistory restingState
            ++ mkMessage user (trim (lit " what's in a.txt ")) None None None
               :: added
       /\ streamRequests st'
          = streamRequests restingState
            ++ (chatHistory restingState
                ++ [mkMessage user (trim (lit " what's in a.txt "))
                              None None None])
            :: more
       /\ length more < 4.
Proof.
  assert (H1 : isEmpty (trim (lit " what's in a.txt ")) = false)
    by reflexivity.
  assert (H2 : isStreaming restingState = false) by reflexivity.
  assert (H3 : jseqb (sampleLower (trim (lit " what's in a.txt ")))
                     (lit "exit") = false) by reflexivity.
  assert (H4 : startsWith (trim (lit " what's in a.txt ")) (lit "/") = false)
    by reflexivity.
  split; [exact H1|]. split; [exact H2|]. split; [exact H3|].
  split; [exact H4|].
  exact (@handleSubmission_message parseJSON sampleFiles helpfulService
           sampleLower sampleBasename sampleChat sampleInherited
           (lit " what's in a.txt ") restingState H1 H2 H3 H4).
Defined.

Lemma handleSubmission_throws_only_inherited_witness :
  sampleSubmission (lit "/__proto__") restingState
  = (Threw (lit "handler is not a function"),
     snd (sampleSubmission (lit "/__proto__") restingState))
  /\ startsWith (trim (lit "/__proto__")) (lit "/") = true
  /\ ownCommand
       (sampleLower (firstWord (trim (slice 1 (trim (lit "/__proto__"))))))
     = None
  /\ sampleInherited
       (sampleLower (firstWord (trim (slice 1 (trim (lit "/__proto__"))))))
     = Some (Threw (lit "handler is not a function")).
Proof.
  assert (H : sampleSubmission (lit "/__proto__") restingState
              = (Threw (lit "handler is not a function"),
                 snd (sampleSubmission (lit "/__proto__") restingState)))
    by (vm_compute; reflexivity).
  split; [exact H|].
  exact (@handleSubmission_throws_only_inherited parseJSON sampleFiles
           helpfulService sampleLower sampleBasename sampleChat
           sampleInherited (lit "/__proto__") restingState
           (snd (sampleSubmission (lit "/__proto__") restingState))
           (lit "handler is not a function") H).
Defined.

(** ** The command-line clients *)

Section CommandLineFacts.

Variable JSON_parse : jsstring -> option json.
Variable readFileAt : option json -> Outcome jsstring.
Variable fetchStream : nat -> list CopilotMessage -> Response.
Variable fetchChat :
  nat -> list CopilotMessage -> Outcome (list (option ResponseMessage)).
Variable toLowerCase : jsstring -> jsstring.

Lemma answerToolCall_shape toolCall pushed :
  answerToolCall JSON_parse readFileAt toolCall = Some pushed ->
  (namesReadFile toolCall = true
   /\ exists m, pushed = [m] /\ readFileResult m
                /\ tool_call_id m = delta_id toolCall)
  \/ (namesReadFile toolCall = false /\ pushed = []).
Proof.
  unfold answerToolCall, namesReadFile, delta_name.
  destruct (delta_function toolCall) as [fn|]; [|discriminate].
  destruct (df_name fn) as [name|];
    [|intros E; injection E as <-; now right].
  destruct (jseqb name (lit "read_file")) eqn:En;
    [|intros E; injection E as <-; now right].
  apply jseqb_eq in En. subst name.
  destruct (df_arguments fn) as [args|]; [|discriminate].
  destruct (JSON_parse args) as [parsed|]; [|discriminate].
  intros E. left. split; [reflexivity|].
  destruct parsed; try discriminate E; injection E as <-;
    (eexists; split; [reflexivity|]; repeat split).
Qed.

Lemma answerToolCalls_pushed : forall toolCalls pushed completed,
  answerToolCalls JSON_parse readFileAt toolCalls = (pushed, completed) ->
  Forall readFileResult pushed.
Proof.
  induction toolCalls as [|toolCall rest IH]; intros pushed completed E.
  - injection E as <- _. constructor.
  - cbn [answerToolCalls] in E.
    destruct (answerToolCall JSON_parse readFileAt toolCall) as [first|] eqn:Ea;
      [|injection E as <- _; constructor].
    destruct (answerToolCalls JSON_parse readFileAt rest) as [more done] eqn:Er.
    injection E as <- _. apply Forall_app. split; [|exact (IH _ _ eq_refl)].
    destruct (answerToolCall_shape _ Ea) as [(_ & m & -> & Hm & _)|(_ & ->)];
      [constructor; [exact Hm|constructor]|constructor].
Qed.

(** X21.  The loop over the tool calls of [repl] and [chat] answers the
    calls of [read_file] and no other: when it comes to its end it has
    pushed one function message per [read_file] call, in the order of the
    calls and each with the id of its call, and nothing for a call of
    another tool.  When it does not, it has stopped at a call that cannot
    be read, with the calls before that one answered. *)
Theorem answerToolCalls_results :
  forall (toolCalls : list ToolCallDelta) (pushed : list CopilotMessage)
         (completed : bool),
    answerToolCalls JSON_parse readFileAt toolCalls = (pushed, completed) ->
    Forall readFileResult pushed
    /\ (if completed
        then map tool_call_id pushed
             = map delta_id (filter namesReadFile toolCalls)
        else exists before toolCall after,
               toolCalls = before ++ toolCall :: after
               /\ answerToolCall JSON_parse readFileAt toolCall = None
               /\ answerToolCalls JSON_parse readFileAt before = (pushed, true)).
Proof.
  induction toolCalls as [|toolCall rest IH]; intros pushed completed E.
  - injection E as <- <-. split; [constructor|reflexivity].
  - cbn [answerToolCalls] in E.
    destruct (answerToolCall JSON_parse readFileAt toolCall) as [first|] eqn:Ea.
    + destruct (answerToolCalls JSON_parse readFileAt rest)
        as [more done] eqn:Er.
      injection E as <- <-. destruct (IH more done eq_refl) as [Hf Hc].
      destruct (answerToolCall_shape _ Ea)
        as [(Hn & m & -> & Hm & Hid)|(Hn & ->)].
      * split; [constructor; assumption|].
        destruct done.
        -- cbn [filter]. rewrite Hn. cbn [map app]. now rewrite Hid, Hc.
        -- destruct Hc as (before & bad & after & -> & Hbad & Hbefore).
           exists (toolCall :: before), bad, after.
           split; [reflexivity|]. split; [exact Hbad|].
           cbn [answerToolCalls]. now rewrite Ea, Hbefore.
      * split; [exact Hf|].
        destruct done.
        -- cbn [filter]. now rewrite Hn.
        -- destruct Hc as (before & bad & after & -> & Hbad & Hbefore).
           exists (toolCall :: before), bad, after.
           split; [reflexivity|]. split; [exact Hbad|].
           cbn [answerToolCalls]. now rewrite Ea, Hbefore.
    + injection E as <- <-. split; [constructor|].
      exists [], toolCall, rest. auto.
Qed.

(** X22.  [exit], a line that starts with a slash, and a blank line do not
    reach the service and leave the transcript of [repl] as it is; only
    [exit] ends the session without asking again. *)
Theorem replTurn_quiet :
  forall (input : jsstring) (history : list CopilotMessage),
    jseqb (toLowerCase input) (lit "exit") = true
    \/ startsWith input (lit "/") = true
    \/ isEmpty (trim input) = true ->
    rt_history (replTurn JSON_parse readFileAt fetchStream toLowerCase
                  input history) = history
    /\ rt_requests (replTurn JSON_parse readFileAt fetchStream toLowerCase
                      input history) = []
    /\ rt_failure (replTurn JSON_parse readFileAt fetchStream toLowerCase
                     input history) = None
    /\ (rt_end (replTurn JSON_parse readFileAt fetchStream toLowerCase
                  input history) = Closed
        <-> jseqb (toLowerCase input) (lit "exit") = true).
Proof.
  intros input history C. unfold replTurn.
  destruct (jseqb (toLowerCase input) (lit "exit")).
  - cbn. tauto.
  - destruct (startsWith input (lit "/")).
    + cbn [rt_history rt_requests rt_failure rt_end].
      do 3 (split; [reflexivity|]). split; intros H; [|discriminate H].
      destruct (jseqb (toLowerCase (slice 1 input)) (lit "exit"));
        discriminate H.
    + destruct (isEmpty (trim input)).
      * cbn [rt_history rt_requests rt_failure rt_end].
        do 3 (split; [reflexivity|]). split; intros H; discriminate H.
      * destruct C as [C|[C|C]]; discriminate C.
Qed.

(** X23.  Any other line starts a turn of [repl]: the line goes into the
    transcript as it was typed, followed by the results of the
    [read_file] calls that were answered and, when the turn did not fail
    and only then, by one assistant message, which may be empty.  The
    turn sends one request, carrying the transcript with the line, or
    two, the second with the results as well; it never sends a third. *)
Theorem replTurn_transcript :
  forall (input : jsstring) (history : list CopilotMessage),
    jseqb (toLowerCase input) (lit "exit") = false ->
    startsWith input (lit "/") = false ->
    isEmpty (trim input) = false ->
    exists (results : list CopilotMessage) (text : jsstring),
      rt_history (replTurn JSON_parse readFileAt fetchStream toLowerCase
                    input history)
      = history ++ mkMessage user input None None None :: results
        ++ match rt_failure (replTurn JSON_parse readFileAt fetchStream
                               toLowerCase input history) with
           | None => [finalAnswer text]
           | Some _ => []
           end
      /\ Forall readFileResult results
      /\ (rt_requests (replTurn JSON_parse readFileAt fetchStream toLowerCase
                         input history)
          = [history ++ [mkMessage user input None None None]]
          \/ rt_requests (replTurn JSON_parse readFileAt fetchStream
                            toLowerCase input history)
             = [history ++ [mkMessage user input None None None];
                history ++ mkMessage user input None None None :: results])
      /\ rt_end (replTurn JSON_parse readFileAt fetchStream toLowerCase
                   input history) = Asked.
Proof.
  intros input history Hx Hs Hb. unfold replTurn. rewrite Hx, Hs, Hb.
  destruct (chatStream JSON_parse (fetchStream 0 _)) as [events [[]|message]].
  - destruct (Nat.ltb 0 (length (concat (map fragmentBatch events)))).
    + destruct (answerToolCalls JSON_parse readFileAt
                  (concat (map fragmentBatch events)))
        as [pushed completed] eqn:Ea.
      pose proof (answerToolCalls_pushed _ Ea) as Hf.
      destruct completed.
      * destruct (chatStream JSON_parse (fetchStream 1 _))
          as [events' [[]|message']].
        -- exists pushed, (textOf events ++ textOf events').
           cbn [rt_history rt_failure rt_requests rt_end].
           unfold finalAnswer. rewrite <- !app_assoc. cbn [app]. auto.
        -- exists pushed, [].
           cbn [rt_history rt_failure rt_requests rt_end].
           rewrite <- !app_assoc, app_nil_r. cbn [app]. auto.
      * exists pushed, [].
        cbn [rt_history rt_failure rt_requests rt_end].
        rewrite <- !app_assoc, app_nil_r. cbn [app]. auto.
    + exists [], (textOf events).
      cbn [rt_history rt_failure rt_requests rt_end].
      unfold finalAnswer. rewrite <- !app_assoc. cbn [app]. auto.
  - exists [], []. cbn [rt_history rt_failure rt_requests rt_end]. auto.
Qed.


(** X25.  In [chat], the content of a first response that carries a list
    of tool calls, even an empty one, is never printed.  When the loop
    over the calls comes to its end, a second request follows, with the
    user's message and the results of the [read_file] calls, and what is
    printed is the content of the second response; for the empty list the
    second request is the first once more.  When a [read_file] call cannot
    be read (its arguments do not parse), [chat] fails after the first
    request and prints nothing more. *)
Theorem chatCommand_second_request :
  forall (message : jsstring) (response : list (option ResponseMessage))
         (first : ResponseMessage) (toolCalls : list ToolCallDelta),
    fetchChat 0 [mkMessage user message None None None] = Returned response ->
    firstMessage response = Some first ->
    rm_tool_calls first = Some toolCalls ->
    (toolCalls = []
     -> cr_requests (chatCommand JSON_parse readFileAt fetchChat message)
        = [ [mkMessage user message None None None];
            [mkMessage user message None None None] ])
    /\ match answerToolCalls JSON_parse readFileAt toolCalls with
       | (pushed, true) =>
           cr_requests (chatCommand JSON_parse readFileAt fetchChat message)
           = [ [mkMessage user message None None None];
               mkMessage user message None None None :: pushed ]
           /\ match fetchChat 1
                      (mkMessage user message None None None :: pushed) with
              | Returned final =>
                  cr_printed
                    (chatCommand JSON_parse readFileAt fetchChat message)
                  = [lit "008: ";
                     contentOr final (lit "No final response from 008")]
                  /\ cr_failure
                       (chatCommand JSON_parse readFileAt fetchChat message)
                     = None
              | Threw e =>
                  cr_printed
                    (chatCommand JSON_parse readFileAt fetchChat message)
                  = [lit "008: "]
                  /\ cr_failure
                       (chatCommand JSON_parse readFileAt fetchChat message)
                     = Some (ServiceFailure e)
              end
       | (pushed, false) =>
           cr_requests (chatCommand JSON_parse readFileAt fetchChat message)
           = [ [mkMessage user message None None None] ]
           /\ cr_printed (chatCommand JSON_parse readFileAt fetchChat message)
              = [lit "008: "]
           /\ cr_failure (chatCommand JSON_parse readFileAt fetchChat message)
              = Some ToolCallFailure
       end.
Proof.
  intros message response first toolCalls H0 H1 H2.
  unfold chatCommand. rewrite H0, H1, H2. split.
  - intros ->. cbn [answerToolCalls app]. now destruct (fetchChat 1 _).
  - destruct (answerToolCalls JSON_parse readFileAt toolCalls)
      as [pushed [|]]; cbn [app]; [|auto].
    now destruct (fetchChat 1 _).
Qed.

End CommandLineFacts.

Lemma answerToolCalls_results_witness :
  answerToolCalls parseJSON sampleFileAt sampleCalls
  = ([mkMessage function (lit "hello") None (Some (lit "call_1"))
                (Some (lit "read_file"))], true)
  /\ Forall readFileResult
       [mkMessage function (lit "hello") None (Some (lit "call_1"))
                  (Some (lit "read_file"))]
  /\ map tool_call_id
       [mkMessage function (lit "hello") None (Some (lit "call_1"))
                  (Some (lit "read_file"))]
     = map delta_id (filter namesReadFile sampleCalls).
Proof.
  assert (H : answerToolCalls parseJSON sampleFileAt sampleCalls
              = ([mkMessage function (lit "hello") None (Some (lit "call_1"))
                            (Some (lit "read_file"))], true))
    by (vm_compute; reflexivity).
  split; [exact H|].
  exact (@answerToolCalls_results parseJSON sampleFileAt sampleCalls _ true H).
Defined.

Lemma replTurn_quiet_witness :
  startsWith (lit "/history") (lit "/") = true
  /\ rt_history (replTurn parseJSON sampleFileAt wholeCallService sampleLower
                   (lit "/history") [finalAnswer (lit "Hello.")])
     = [finalAnswer (lit "Hello.")]
  /\ rt_requests (replTurn parseJSON sampleFileAt wholeCallService sampleLower
                    (lit "/history") [finalAnswer (lit "Hello.")])
     = [].
Proof.
  assert (H : startsWith (lit "/history") (lit "/") = true) by reflexivity.
  split; [exact H|].
  pose proof (@replTurn_quiet parseJSON sampleFileAt wholeCallService
                sampleLower (lit "/history") [finalAnswer (lit "Hello.")]
                (or_intror (or_introl H))) as P.
  exact (conj (proj1 P) (proj1 (proj2 P))).
Defined.

Lemma replTurn_transcript_witness :
  jseqb (sampleLower (lit "what's in a.txt")) (lit "exit") = false
  /\ startsWith (lit "what's in a.txt") (lit "/") = false
  /\ isEmpty (trim (lit "what's in a.txt")) = false
  /\ exists (results : list CopilotMessage) (text : jsstring),
       rt_history (replTurn parseJSON sampleFileAt wholeCallService
                     sampleLower (lit "what's in a.txt") [])
       = [] ++ mkMessage user (lit "what's in a.txt") None None None
         :: results
         ++ match rt_failure (replTurn parseJSON sampleFileAt wholeCallService
                                sampleLower (lit "what's in a.txt") []) with
            | None => [finalAnswer text]
            | Some _ => []
            end
       /\ Forall readFileResult results
       /\ (rt_requests (replTurn parseJSON sampleFileAt wholeCallService
                          sampleLower (lit "what's in a.txt") [])
           = [[] ++ [mkMessage user (lit "what's in a.txt") None None None]]
           \/ rt_requests (replTurn parseJSON sampleFileAt wholeCallService
                             sampleLower (lit "what's in a.txt") [])
              = [[] ++ [mkMessage user (lit "what's in a.txt") None None None];
                 [] ++ mkMessage user (lit "what's in a.txt") None None None
                 :: results])
       /\ rt_end (replTurn parseJSON sampleFileAt wholeCallService sampleLower
                    (lit "what's in a.txt") []) = Asked.
Proof.
  assert (H1 : jseqb (sampleLower (lit "what's in a.txt")) (lit "exit") = false)
    by reflexivity.
  assert (H2 : startsWith (lit "what's in a.txt") (lit "/") = false)
    by reflexivity.
  assert (H3 : isEmpty (trim (lit "what's in a.txt")) = false) by reflexivity.
  split; [exact H1|]. split; [exact H2|]. split; [exact H3|].
  exact (@replTurn_transcript parseJSON sampleFileAt wholeCallService
           sampleLower (lit "what's in a.txt") [] H1 H2 H3).
Defined.


Lemma chatCommand_second_request_witness :
  callingChat 0 [mkMessage user (lit "hi") None None None]
  = Returned [Some (mkResponseMessage (Some (lit "One moment."))
                                      (Some sampleCalls))]
  /\ cr_requests (chatCommand parseJSON sampleFileAt callingChat (lit "hi"))
     = [ [mkMessage user (lit "hi") None None None];
         [mkMessage user (lit "hi") None None None;
          mkMessage function (lit "hello") None (Some (lit "call_1"))
                    (Some (lit "read_file"))] ]
  /\ cr_printed (chatCommand parseJSON sampleFileAt callingChat (lit "hi"))
     = [lit "008: "; lit "It says hello."].
Proof.
  assert (H : callingChat 0 [mkMessage user (lit "hi") None None None]
              = Returned [Some (mkResponseMessage (Some (lit "One moment."))
                                                  (Some sampleCalls))])
    by reflexivity.
  split; [exact H|].
  pose proof (proj2 (@chatCommand_second_request parseJSON sampleFileAt
                       callingChat (lit "hi") _
                       (mkResponseMessage (Some (lit "One moment."))
                                          (Some sampleCalls))
                       sampleCalls H eq_refl eq_refl)) as P.
  exact (conj (proj1 P) (proj1 (proj2 P))).
Defined.

(** An empty list of tool calls makes [chat] ask twice; a call that cannot
    be read makes it fail. *)
Example chat_empty_list_and_unreadable_call :
  cr_requests (chatCommand parseJSON sampleFileAt silentChat (lit "hi"))
  = [ [mkMessage user (lit "hi") None None None];
      [mkMessage user (lit "hi") None None None] ]
  /\ chatCommand parseJSON sampleFileAt
       (fun _ _ => Returned [Some (mkResponseMessage (Some (lit "One moment."))
                                                     (Some [firstFragment]))])
       (lit "hi")
     = mkChatRun [lit "008: "] [[mkMessage user (lit "hi") None None None]]
                 (Some ToolCallFailure).
Proof. split; reflexivity. Qed.

(** ** The command assistant as a whole *)




(** ** The title and the lines of the pane *)

Lemma collapseWhiteSpace_spaces s :
  Forall (fun c => isWhiteSpace c = true -> c = 32%Z) (collapseWhiteSpace s).
Proof.
  induction s as [|c r IH]; [constructor|]. cbn [collapseWhiteSpace].
  destruct (isWhiteSpace c) eqn:Ec.
  - destruct r as [|d r']; [repeat constructor|].
    destruct (isWhiteSpace d); [exact IH|]. constructor; [reflexivity|exact IH].
  - constructor; [|exact IH]. intros H. congruence.
Qed.

Lemma collapseWhiteSpace_singleSpaced s :
  singleSpaced (collapseWhiteSpace s) = true.
Proof.
  induction s as [|c r IH]; [reflexivity|]. cbn [collapseWhiteSpace].
  destruct (isWhiteSpace c) eqn:Ec.
  - destruct r as [|d r']; [reflexivity|].
    destruct (isWhiteSpace d) eqn:Ed; [exact IH|].
    assert (Hd : collapseWhiteSpace (d :: r') = d :: collapseWhiteSpace r')
      by (cbn [collapseWhiteSpace]; now rewrite Ed).
    rewrite Hd in *.
    change (negb (isWhiteSpace 32 && isWhiteSpace d)
            && singleSpaced (d :: collapseWhiteSpace r') = true).
    now rewrite Ed, andb_false_r.
  - destruct (collapseWhiteSpace r) as [|b r'] eqn:Er; [reflexivity|].
    cbn [singleSpaced]. rewrite Ec. exact IH.
Qed.

Lemma singleSpaced_app a : forall b,
  singleSpaced (a ++ b) = true ->
  singleSpaced a = true /\ singleSpaced b = true.
Proof.
  induction a as [|x a IH]; intros b H; [now split|].
  destruct a as [|y a'].
  - split; [reflexivity|]. destruct b; [reflexivity|].
    cbn [app singleSpaced] in H. now apply andb_prop in H.
  - change (negb (isWhiteSpace x && isWhiteSpace y)
            && singleSpaced ((y :: a') ++ b) = true) in H.
    apply andb_prop in H. destruct H as [H1 H2].
    destruct (IH b H2) as [Ha Hb]. split; [|exact Hb].
    change (negb (isWhiteSpace x && isWhiteSpace y)
            && singleSpaced (y :: a') = true).
    now rewrite H1, Ha.
Qed.

Lemma trim_within s : exists pre rest, s = pre ++ trim s ++ rest.
Proof.
  destruct (trimStart_suffix s) as [pre Hpre].
  destruct (trimEnd_prefix (trimStart s)) as [rest Hrest].
  exists pre, rest. unfold trim. now rewrite <- Hrest.
Qed.

Lemma trimStart_white s :
  exists pre, s = pre ++ trimStart s /\ forallb isWhiteSpace pre = true.
Proof.
  induction s as [|c r (pre & E & W)]; [now exists []|].
  cbn [trimStart]. destruct (isWhiteSpace c) eqn:Ec.
  - exists (c :: pre). cbn [app forallb]. rewrite Ec, W. now rewrite <- E.
  - now exists [].
Qed.

Lemma trimEnd_white s :
  exists post, s = trimEnd s ++ post /\ forallb isWhiteSpace post = true.
Proof.
  destruct (trimStart_white (rev s)) as (pre & E & W).
  exists (rev pre). split.
  - unfold trimEnd. rewrite <- rev_app_distr, <- E. now rewrite rev_involutive.
  - apply forallb_forall. intros x Hx. apply in_rev in Hx.
    rewrite forallb_forall in W. now apply W.
Qed.

Lemma wordsOf_white_left pre s :
  forallb isWhiteSpace pre = true -> wordsOf (pre ++ s) = wordsOf s.
Proof.
  induction pre as [|c pre IH]; [reflexivity|]. cbn [forallb app wordsOf].
  intros H. apply andb_prop in H. destruct H as [Hc Hp]. now rewrite Hc, IH.
Qed.

Lemma headWhite_white_right r post :
  forallb isWhiteSpace post = true -> headWhite (r ++ post) = headWhite r.
Proof.
  destruct r; [|reflexivity]. destruct post as [|c post]; [reflexivity|].
  cbn. intros H. apply andb_prop in H. tauto.
Qed.

Lemma wordsOf_white_right post :
  forallb isWhiteSpace post = true ->
  forall s, wordsOf (s ++ post) = wordsOf s.
Proof.
  intros H. induction s as [|c r IH].
  - cbn [app]. rewrite <- (app_nil_r post).
    exact (@wordsOf_white_left post [] H).
  - cbn [app wordsOf]. rewrite IH.
    now rewrite (@headWhite_white_right r post H).
Qed.

Lemma wordsOf_trim s : wordsOf (trim s) = wordsOf s.
Proof.
  destruct (trimStart_white s) as (pre & E & W).
  destruct (trimEnd_white (trimStart s)) as (post & E' & W').
  transitivity (wordsOf (trimStart s)).
  - unfold trim.
    rewrite <- (@wordsOf_white_right post W' (trimEnd (trimStart s))).
    now rewrite <- E'.
  - rewrite <- (@wordsOf_white_left pre (trimStart s) W). now rewrite <- E.
Qed.

Lemma headWhite_collapse s : headWhite (collapseWhiteSpace s) = headWhite s.
Proof.
  induction s as [|c r IH]; [reflexivity|]. cbn [collapseWhiteSpace].
  destruct (isWhiteSpace c) eqn:Ec; [|cbn; now rewrite Ec].
  destruct r as [|d r']; [cbn; now rewrite Ec|].
  destruct (isWhiteSpace d) eqn:Ed.
  - rewrite IH. cbn. now rewrite Ec, Ed.
  - cbn. now rewrite Ec.
Qed.

Lemma wordsOf_collapse s : wordsOf (collapseWhiteSpace s) = wordsOf s.
Proof.
  induction s as [|c r IH]; [reflexivity|]. cbn [collapseWhiteSpace wordsOf].
  destruct (isWhiteSpace c) eqn:Ec.
  - destruct r as [|d r']; [reflexivity|].
    destruct (isWhiteSpace d) eqn:Ed; [exact IH|].
    change (wordsOf (32%Z :: ?x)) with (wordsOf x). exact IH.
  - cbn [wordsOf]. now rewrite Ec, headWhite_collapse, IH.
Qed.

Lemma wordsOf_not_nil c r :
  isWhiteSpace c = false -> wordsOf (c :: r) <> [].
Proof.
  intros H. cbn [wordsOf]. rewrite H.
  destruct (headWhite r); [discriminate|].
  destruct (wordsOf r); discriminate.
Qed.

Lemma join_consHead c : forall l,
  l <> [] -> join [32%Z] (consHead c l) = c :: join [32%Z] l.
Proof. intros [|w [|w' l]] H; [contradiction|reflexivity|reflexivity]. Qed.

(** A text without white space in front or at the end, in which white
    space is single spaces, is its words joined by spaces. *)
Lemma join_wordsOf n : forall w,
  length w <= n ->
  headWhite w = false ->
  isWhiteSpace (last w 0%Z) = false ->
  singleSpaced w = true ->
  Forall (fun c => isWhiteSpace c = true -> c = 32%Z) w ->
  w = join [32%Z] (wordsOf w) /\ wordsOf w <> [].
Proof.
  induction n as [|n IH]; intros [|c r] L Hh Hl Hs Hf;
    try discriminate Hh; [simpl in L; lia|].
  cbn [headWhite] in Hh.
  split; [|now apply wordsOf_not_nil].
  cbn [wordsOf]. rewrite Hh.
  destruct r as [|d r']; [reflexivity|].
  inversion Hf as [|? ? _ Hf']; subst.
  change (last (c :: d :: r') 0%Z) with (last (d :: r') 0%Z) in Hl.
  change (negb (isWhiteSpace c && isWhiteSpace d)
          && singleSpaced (d :: r') = true) in Hs.
  apply andb_prop in Hs. destruct Hs as [_ Hs].
  cbn [headWhite]. destruct (isWhiteSpace d) eqn:Ed.
  - inversion Hf' as [|? ? Hd Hf'']; subst.
    assert (E32 : d = 32%Z) by exact (Hd Ed). subst d.
    destruct r' as [|e r'']; [cbn in Hl; congruence|].
    change (negb (isWhiteSpace 32 && isWhiteSpace e)
            && singleSpaced (e :: r'') = true) in Hs.
    apply andb_prop in Hs. destruct Hs as [He Hs].
    rewrite Ed in He. cbn [andb] in He. apply negb_true_iff in He.
    change (last (32%Z :: e :: r'') 0%Z) with (last (e :: r'') 0%Z) in Hl.
    destruct (IH (e :: r'')) as [Ew Hw]; auto; [simpl in *; lia|].
    change (wordsOf (32%Z :: e :: r'')) with (wordsOf (e :: r'')).
    destruct (wordsOf (e :: r'')) as [|w1 ws] eqn:Ewords; [contradiction|].
    change (join [32%Z] ([c] :: w1 :: ws))
      with (c :: 32%Z :: join [32%Z] (w1 :: ws)).
    now rewrite <- Ew.
  - destruct (IH (d :: r')) as [Ew Hw]; auto; [simpl in *; lia|].
    rewrite join_consHead by exact Hw. now rewrite <- Ew.
Qed.

Lemma summarizeWithCopilot_trimmed chat input systemPrompt maxTokens text :
  summarizeWithCopilot chat input systemPrompt maxTokens = Some text ->
  isEmpty text = false /\ trim text = text.
Proof.
  unfold summarizeWithCopilot.
  destruct (chat _ _ _) as [[choices|]|error]; cbn [catchOutcome];
    try discriminate.
  destruct (find _ choices) as [[t|]|]; cbn [catchOutcome]; try discriminate.
  destruct (isEmpty (trim t)) eqn:E; cbn [catchOutcome]; [discriminate|].
  intros H. injection H as <-. split; [exact E|apply trim_idem].
Qed.

Lemma trimmed_words text :
  isEmpty text = false -> trim text = text -> wordsOf text <> [].
Proof.
  intros Hn Ht. destruct (trimStart_head text) as [E|(c & r & E & Hc)].
  - unfold trim in Ht. rewrite E in Ht. cbn in Ht. subst text. discriminate Hn.
  - destruct (@trimEnd_keeps_head c r Hc) as [r' E'].
    unfold trim in Ht. rewrite E, E' in Ht. subst text.
    now apply wordsOf_not_nil.
Qed.

Lemma trim_collapse_words s :
  wordsOf s <> [] ->
  trim (collapseWhiteSpace s) = join [32%Z] (wordsOf s).
Proof.
  intros Hw.
  assert (Ew : wordsOf (trim (collapseWhiteSpace s)) = wordsOf s)
    by now rewrite wordsOf_trim, wordsOf_collapse.
  destruct (trim_within (collapseWhiteSpace s)) as (pre & rest & Hin).
  pose proof (collapseWhiteSpace_singleSpaced s) as Hs.
  pose proof (collapseWhiteSpace_spaces s) as Hf.
  rewrite Hin in Hs, Hf.
  apply singleSpaced_app in Hs. destruct Hs as [_ Hs].
  apply singleSpaced_app in Hs. destruct Hs as [Hs _].
  apply Forall_app in Hf. destruct Hf as [_ Hf].
  apply Forall_app in Hf. destruct Hf as [Hf _].
  assert (Hhead : headWhite (trim (collapseWhiteSpace s)) = false).
  { unfold trim in *.
    destruct (trimStart_head (collapseWhiteSpace s)) as [E|(c & r & E & Hc)].
    - rewrite E in Ew. cbn in Ew. congruence.
    - destruct (@trimEnd_keeps_head c r Hc) as [r' E'].
      rewrite E, E'. exact Hc. }
  assert (Hlast : isWhiteSpace (last (trim (collapseWhiteSpace s)) 0%Z) = false).
  { unfold trim in *.
    destruct (trimEnd_last (trimStart (collapseWhiteSpace s))) as [E|E];
      [|exact E].
    rewrite E in Hhead. discriminate Hhead. }
  destruct (@join_wordsOf (length (trim (collapseWhiteSpace s)))
              (trim (collapseWhiteSpace s)) (le_n _) Hhead Hlast Hs Hf)
    as [E _].
  now rewrite <- Ew.
Qed.

(** X27.  [maybeGenerateTitleSummary] asks the summarizer only when the
    flag is not set and the message is not blank, and writes a title
    exactly when the summarizer returns a text: the title is then [008], a
    middle dot and the words of that text with a single space between
    them, and the flag is set.  In every other case the title stays as it
    was, and the flag is down unless it was set before. *)
Theorem maybeGenerateTitleSummary_title :
  forall (chat : jsstring -> list CopilotMessage -> Z
                 -> Outcome (option (list (option jsstring))))
         (initialMessage title : jsstring) (hasGeneratedTitle : bool),
    maybeGenerateTitleSummary chat initialMessage hasGeneratedTitle title
    = (if hasGeneratedTitle then (true, title)
       else if isEmpty (trim initialMessage) then (false, title)
       else
         match summarizeWithCopilot chat (trim initialMessage)
                 TITLE_PROMPT 24 with
         | Some summary =>
             (true,
              lit "008 " ++ 183%Z :: 32%Z :: join [32%Z] (wordsOf summary))
         | None => (false, title)
         end)
    /\ (forall summary : jsstring,
          summarizeWithCopilot chat (trim initialMessage) TITLE_PROMPT 24
          = Some summary ->
          wordsOf summary <> []
          /\ Forall (fun word => word <> []
                                 /\ forallb isWhiteSpace word = false)
                    (wordsOf summary)).
Proof.
  intros chat initialMessage title has. split.
  - unfold maybeGenerateTitleSummary.
    destruct has; [reflexivity|].
    destruct (isEmpty (trim initialMessage)); [reflexivity|].
    destruct (summarizeWithCopilot chat (trim initialMessage) TITLE_PROMPT 24)
      as [summary|] eqn:E; [|reflexivity].
    destruct (summarizeWithCopilot_trimmed _ _ _ _ E) as [Hn Ht].
    pose proof (trimmed_words Hn Ht) as Hw.
    destruct summary as [|c summary]; [discriminate Hn|].
    rewrite (@trim_collapse_words _ Hw).
    destruct (join [32%Z] (wordsOf (c :: summary))) eqn:Ej; [|reflexivity].
    exfalso. rewrite <- (@trim_collapse_words _ Hw) in Ej.
    apply Hw. rewrite <- wordsOf_collapse, <- wordsOf_trim, Ej. reflexivity.
  - intros summary E.
    destruct (summarizeWithCopilot_trimmed _ _ _ _ E) as [Hn Ht].
    split; [exact (trimmed_words Hn Ht)|].
    clear. induction summary as [|c r IH]; [constructor|].
    cbn [wordsOf]. destruct (isWhiteSpace c) eqn:Ec; [exact IH|].
    destruct (headWhite r).
    + constructor; [|exact IH]. split; [discriminate|]. cbn. now rewrite Ec.
    + destruct (wordsOf r) as [|w ws]; cbn [consHead].
      * repeat constructor; [discriminate|]. cbn. now rewrite Ec.
      * inversion IH as [|? ? [_ Hw] Hws]; subst.
        constructor; [|exact Hws]. split; [discriminate|].
        cbn. now rewrite Ec.
Qed.

Lemma removeCR_idem text : removeCR (removeCR text) = removeCR text.
Proof.
  unfold removeCR. induction text as [|c r IH]; [reflexivity|]. cbn [filter].
  destruct (negb (c =? 13)%Z) eqn:E; [|exact IH].
  cbn [filter]. now rewrite E, IH.
Qed.

(** X28.  A line of the pane is the label of the role, then a space and
    the text when there is any, then a line feed, for [function] as for
    the other roles; no carriage return of the text reaches the pane, and
    a text of carriage returns only is shown as no text. *)
Theorem formatMessage_line :
  forall (r : Role) (text : jsstring),
    formatMessage r text
    = mkStyled (colorForRole r) (prefixForRole r)
        ((if isEmpty (removeCR text) then [] else 32%Z :: removeCR text)
         ++ [10%Z])
    /\ ~ In 13%Z (st_rest (formatMessage r text))
    /\ formatMessage r (removeCR text) = formatMessage r text.
Proof.
  intros r text.
  assert (E : formatMessage r text
              = mkStyled (colorForRole r) (prefixForRole r)
                  ((if isEmpty (removeCR text) then []
                    else 32%Z :: removeCR text) ++ [10%Z])).
  { unfold formatMessage. destruct r; destruct (removeCR text); reflexivity. }
  split; [exact E|]. split.
  - rewrite E. cbn [st_rest]. intros H. apply in_app_or in H.
    destruct H as [H|[H|[]]]; [|discriminate H].
    destruct (isEmpty (removeCR text)); [destruct H|].
    destruct H as [H|H]; [discriminate H|].
    unfold removeCR in H. apply filter_In in H. destruct H as [_ H].
    discriminate H.
  - unfold formatMessage. now rewrite removeCR_idem.
Qed.


Lemma maybeGenerateTitleSummary_title_witness :
  summarizeWithCopilot spacedChat (trim (lit " fix the parser "))
    TITLE_PROMPT 24
  = Some (lit "Fix  the" ++ 10%Z :: 9%Z :: lit "Parser")
  /\ maybeGenerateTitleSummary spacedChat (lit " fix the parser ") false
       (lit "008")
     = (true, lit "008 " ++ 183%Z :: 32%Z :: lit "Fix the Parser")
  /\ wordsOf (lit "Fix  the" ++ 10%Z :: 9%Z :: lit "Parser")
     = [lit "Fix"; lit "the"; lit "Parser"]
  /\ wordsOf (lit "Fix  the" ++ 10%Z :: 9%Z :: lit "Parser") <> [].
Proof.
  assert (H : summarizeWithCopilot spacedChat (trim (lit " fix the parser "))
                TITLE_PROMPT 24
              = Some (lit "Fix  the" ++ 10%Z :: 9%Z :: lit "Parser"))
    by (vm_compute; reflexivity).
  split; [exact H|]. split; [|split; [reflexivity|]].
  - exact (proj1 (@maybeGenerateTitleSummary_title spacedChat
                    (lit " fix the parser ") (lit "008") false)).
  - exact (proj1 (proj2 (@maybeGenerateTitleSummary_title spacedChat
                           (lit " fix the parser ") (lit "008") false)
                    _ H)).
Defined.

(** ** A rejected poll *)

Section LoginRejected.

Variable poll : nat -> jsstring -> Outcome jsstring.

Lemma pollLoop_rejected info k error : forall remaining attempts,
  k < remaining ->
  (forall j, j < k ->
     poll (attempts + j) (device info) = Returned (lit "pending")) ->
  poll (attempts + k) (device info) = Threw error ->
  exists events,
    pollLoop poll info remaining attempts (lit "pending")
    = (events, Threw error)
    /\ waitsAndPolls events = rounds info (S k).
Proof.
  induction k as [|k IH]; intros remaining attempts L Hp He;
    destruct remaining as [|r]; try lia.
  - rewrite Nat.add_0_r in He. cbn [pollLoop].
    replace (jseqb (lit "pending") (lit "pending")) with true by reflexivity.
    rewrite He. eexists. split; reflexivity.
  - assert (P0 : poll attempts (device info) = Returned (lit "pending")).
    { rewrite <- (Nat.add_0_r attempts) at 1. apply Hp. lia. }
    rewrite (@pollLoop_step poll info r attempts (lit "pending") P0).
    destruct (IH r (S attempts)) as (events & E & W); [lia| | |].
    { intros j Hj. replace (S attempts + j) with (attempts + S j) by lia.
      apply Hp. lia. }
    { now replace (S attempts + k) with (attempts + S k) by lia. }
    rewrite E. eexists. split; [reflexivity|].
    cbn [rounds] in *.
    change (Sleep (interval info * 1000) :: Poll (device info) :: ?l)
      with ([Sleep (interval info * 1000); Poll (device info)] ++ l).
    now rewrite !waitsAndPolls_app, W.
Qed.

(** X29.  When a call of [poll] rejects, after any number of answers
    [pending] within the budget, [login] stops at once: it has waited and
    polled once per answer and once more, it polls no further, and it
    ends by printing [Login failed:] with the error and exiting with
    code 1. *)
Theorem login_poll_rejected :
  forall (info : DeviceInfo) (k : nat) (error : jsstring),
    k < 120 ->
    (forall j, j < k -> poll j (device info) = Returned (lit "pending")) ->
    poll k (device info) = Threw error ->
    waitsAndPolls (fst (login (Returned info) poll)) = rounds info (S k)
    /\ pollCalls (fst (login (Returned info) poll)) = S k
    /\ last (fst (login (Returned info) poll)) (Print [])
       = Print (lit "Login failed: " ++ error)
    /\ snd (login (Returned info) poll) = Exited 1.
Proof.
  intros info k error L Hp He. unfold login.
  destruct (@pollLoop_rejected info k error maxAttempts 0)
    as (events & E & W); [exact L|exact Hp|exact He|].
  rewrite E. unfold loginFailed. cbn [fst snd].
  assert (Hw : waitsAndPolls
                 (Print (lit "Logging into GitHub Copilot...")
                  :: [Print (10%Z :: lit "Go to: " ++ verification info);
                      Print (lit "Enter code: " ++ user_code info);
                      Print (10%Z :: lit "Waiting for authorization...")]
                  ++ events ++ [Print (lit "Login failed: " ++ error)])
               = rounds info (S k)).
  { change (Print (lit "Logging into GitHub Copilot...") :: ?a ++ ?b)
      with ((Print (lit "Logging into GitHub Copilot...") :: a) ++ b).
    rewrite !waitsAndPolls_app, W. cbn [waitsAndPolls filter app].
    apply app_nil_r. }
  split; [exact Hw|]. split; [|split; [|reflexivity]].
  - unfold pollCalls.
    assert (Hf : forall l, filter isPoll l = filter isPoll (waitsAndPolls l)).
    { induction l as [|[| |] l IH]; cbn; now rewrite ?IH. }
    rewrite Hf, Hw. clear. induction (S k) as [|n IH]; [reflexivity|].
    cbn [rounds filter isPoll length]. now rewrite IH.
  - change (Print (lit "Logging into GitHub Copilot...") :: ?a ++ events ++ ?c)
      with ((Print (lit "Logging into GitHub Copilot...") :: a ++ events) ++ c).
    apply last_last.
Qed.

End LoginRejected.

Lemma login_poll_rejected_witness :
  2 < 120
  /\ (forall j, j < 2 ->
        rejectingPoll j (device sampleDevice) = Returned (lit "pending"))
  /\ rejectingPoll 2 (device sampleDevice) = Threw (lit "fetch failed")
  /\ pollCalls (fst (login (Returned sampleDevice) rejectingPoll)) = 3
  /\ snd (login (Returned sampleDevice) rejectingPoll) = Exited 1.
Proof.
  assert (H1 : 2 < 120) by lia.
  assert (H2 : forall j, j < 2 ->
                 rejectingPoll j (device sampleDevice)
                 = Returned (lit "pending")).
  { intros [|[|j]] Hj; try reflexivity. exfalso. lia. }
  assert (H3 : rejectingPoll 2 (device sampleDevice)
               = Threw (lit "fetch failed")) by reflexivity.
  split; [exact H1|]. split; [exact H2|]. split; [exact H3|].
  pose proof (@login_poll_rejected rejectingPoll sampleDevice 2
                (lit "fetch failed") H1 H2 H3) as P.
  exact (conj (proj1 (proj2 P)) (proj2 (proj2 (proj2 P)))).
Defined.
